(** * Epidemic situation report: classification, normalisation, statistics,
      ingestion and narrative generation of [app.py]

    The development embeds the decision logic of [app.py] (disease
    classifier, numeric clean-up of ingested columns, contingency statistics,
    file router, age binning, report generator) and states the properties of
    the specification over that embedding.

    Conventions of the embedding.
    - A Python [str] is a [string] holding the UTF-8 bytes of the text.
      Substring search, single ASCII character replacement and suffix tests
      on the bytes agree with the same operations on code points, because
      UTF-8 is self-synchronising.
    - A float64 is a [float]: an exact rational, an infinity or NaN.  The
      rounding error and the overflow of binary arithmetic are not modelled
      (a numeral is read as the number it spells, also beyond the range of
      float64, and sums and quotients are exact); signed zeros are not
      distinguished.
    - An exception is a value of [exn]; code that can raise returns a
      [result].
    - A table is a list of headers and a list of rows.  The readers that
      produce the tables are outside the program; they return distinct
      headers, and where the program would behave differently on a repeated
      header the embedding says so.
    - What the program takes from pandas, numpy and scipy is embedded as
      those libraries behave: the text scanner of [to_numeric], the sort
      behind [sort_values] (one of the arrangements its default kind may
      return), [cut], [value_counts] and the chi-square test.
      Two functions are kept abstract, as parameters: [repr] on finite
      floats and the survival function of the chi-square distribution. *)

From Stdlib Require Import String Ascii List ZArith QArith Qabs Qround Lia Bool.
From Stdlib Require Import DecimalString Sorted Permutation.
From Stdlib Require DecimalPos.
Import ListNotations.
Local Open Scope string_scope.
Local Open Scope list_scope.

(** ** Python string primitives *)

Module PyStr.

(** [pat in s] *)
Fixpoint contains (pat s : string) : bool :=
  prefix pat s ||
  match s with
  | EmptyString => false
  | String _ t => contains pat t
  end.

(** [s.endswith(suf)] *)
Fixpoint endswith (s suf : string) : bool :=
  String.eqb s suf ||
  match s with
  | EmptyString => false
  | String _ t => endswith t suf
  end.

(** [s.replace(c, new)] for a one-character pattern [c] *)
Fixpoint replace (c : ascii) (new s : string) : string :=
  match s with
  | EmptyString => EmptyString
  | String a t =>
      if Ascii.eqb a c then new ++ replace c new t
      else String a (replace c new t)
  end.

Fixpoint drop (n : nat) (s : string) : string :=
  match n, s with
  | O, _ => s
  | S k, EmptyString => EmptyString
  | S k, String _ t => drop k t
  end.

Definition of_bytes (l : list nat) : string :=
  string_of_list_ascii (map ascii_of_nat l).

(** The characters for which [str.isspace] holds, as UTF-8 byte sequences:
    the ASCII controls 09-0D and 1C-1F, the space, U+0085, U+00A0, U+1680,
    U+2000..U+200A, U+2028, U+2029, U+202F, U+205F and U+3000. *)
Definition whitespace : list string :=
  map of_bytes
    ([[9]; [10]; [11]; [12]; [13]; [28]; [29]; [30]; [31]; [32];
      [194; 133]; [194; 160]; [225; 154; 128]] ++
     map (fun k => [226; 128; 128 + k]) (seq 0 11) ++
     [[226; 128; 168]; [226; 128; 169]; [226; 128; 175]; [226; 129; 159];
      [227; 128; 128]])%nat.

Definition ws_prefix (s : string) : option string :=
  find (fun w => prefix w s) whitespace.

Fixpoint lstrip_fuel (fuel : nat) (s : string) : string :=
  match fuel with
  | O => s
  | S k =>
      match ws_prefix s with
      | Some w => lstrip_fuel k (drop (String.length w) s)
      | None => s
      end
  end.

(** [s.lstrip()] *)
Definition lstrip (s : string) : string := lstrip_fuel (String.length s) s.

(** [all_ws s]: [s] is a run of whitespace characters *)
Fixpoint all_ws_fuel (fuel : nat) (s : string) : bool :=
  match s with
  | EmptyString => true
  | _ =>
      match fuel with
      | O => false
      | S k =>
          match ws_prefix s with
          | Some w => all_ws_fuel k (drop (String.length w) s)
          | None => false
          end
      end
  end.

Definition all_ws (s : string) : bool := all_ws_fuel (String.length s) s.

(** [s.rstrip()]: cut at the first position from which only whitespace
    follows *)
Fixpoint rstrip (s : string) : string :=
  if all_ws s then EmptyString
  else match s with
       | EmptyString => EmptyString
       | String a t => String a (rstrip t)
       end.

(** [s.strip()] *)
Definition strip (s : string) : string := rstrip (lstrip s).

(** [sep.join(l)] *)
Definition join (sep : string) (l : list string) : string := String.concat sep l.

(** [s in l] for a list of strings *)
Definition mem (s : string) (l : list string) : bool :=
  existsb (String.eqb s) l.

End PyStr.

(** ** The statutory classification *)

Inductive tier := TierA | TierB | TierC | Unclassified.

(** The label each tier carries in the program text. *)
Definition tier_label (t : tier) : string :=
  match t with
  | TierA => "甲类"
  | TierB => "乙类"
  | TierC => "丙类"
  | Unclassified => "其他"
  end.

Module DISEASE_CLASS.

Definition tierA : list string := ["鼠疫"; "霍乱"].

Definition tierB : list string :=
  ["传染性非典型肺炎"; "艾滋病"; "病毒性肝炎"; "脊髓灰质炎";
   "人感染高致病性禽流感"; "麻疹"; "流行性出血热"; "狂犬病";
   "流行性乙型脑炎"; "登革热"; "炭疽"; "细菌性痢疾"; "阿米巴性痢疾";
   "肺结核"; "伤寒"; "副伤寒"; "流行性脑脊髓膜炎"; "百日咳"; "白喉";
   "新生儿破伤风"; "猩红热"; "布鲁氏菌病"; "淋病"; "梅毒";
   "钩端螺旋体病"; "血吸虫病"; "疟疾"; "新型冠状病毒感染";
   "新冠病毒感染"; "人感染H7N9禽流感"; "猴痘"].

Definition tierC : list string :=
  ["流行性感冒"; "流行性腮腺炎"; "风疹"; "急性出血性结膜炎"; "麻风病";
   "流行性斑疹伤寒"; "地方性斑疹伤寒"; "黑热病"; "包虫病"; "丝虫病";
   "除霍乱、细菌性痢疾、伤寒和副伤寒以外的感染性腹泻病"; "手足口病";
   "其它感染性腹泻病"; "其他感染性腹泻病"].

(** The keyword lists of the two fallback rules. *)
Definition keywordsB : list string := ["肝炎"; "梅毒"; "炭疽"; "艾滋"].
Definition keywordsC : list string := ["腹泻"; "斑疹"].

End DISEASE_CLASS.

(** [str(name).replace(' ', '').strip()] on a name that is already text *)
Definition normalize (name : string) : string :=
  PyStr.strip (PyStr.replace " "%char "" name).

Definition get_disease_class (name : string) : tier :=
  let name := normalize name in
  if PyStr.mem name DISEASE_CLASS.tierA then TierA
  else if PyStr.mem name DISEASE_CLASS.tierB
          || existsb (fun x => PyStr.contains x name) DISEASE_CLASS.keywordsB
       then TierB
  else if PyStr.mem name DISEASE_CLASS.tierC
          || existsb (fun x => PyStr.contains x name) DISEASE_CLASS.keywordsC
       then TierC
  else Unclassified.

(** ** Exceptions and fallible code *)

Inductive exn :=
| IndexError | KeyError | ValueError | TypeError | OverflowError
| AttributeError.

Inductive result (A : Type) :=
| Ok (a : A)
| Raise (e : exn).
Arguments Ok {A} a.
Arguments Raise {A} e.

Definition bind {A B} (r : result A) (k : A -> result B) : result B :=
  match r with
  | Ok a => k a
  | Raise e => Raise e
  end.

Declare Scope py_scope.
Delimit Scope py_scope with py.
Notation "x <- c ;; k" := (bind c (fun x => k))
  (at level 61, c at next level, right associativity) : py_scope.

Fixpoint mapM {A B} (f : A -> result B) (l : list A) : result (list B) :=
  match l with
  | [] => Ok []
  | a :: t =>
      bind (f a) (fun b => bind (mapM f t) (fun bs => Ok (b :: bs)))
  end.

(** ** Numbers *)

Inductive float :=
| Fin (q : Q)
| PInf
| NInf
| NaN.

Module Float.

Definition zero : float := Fin 0.
Definition of_Z (z : Z) : float := Fin (inject_Z z).

Definition is_nan (x : float) : bool :=
  match x with NaN => true | _ => false end.

Definition is_finite (x : float) : bool :=
  match x with Fin _ => true | _ => false end.

Definition Qltb (a b : Q) : bool := negb (Qle_bool b a).

(** [x < y], [x == y] and the like: every comparison with NaN is false. *)
Definition ltb (x y : float) : bool :=
  match x, y with
  | NaN, _ | _, NaN => false
  | Fin a, Fin b => Qltb a b
  | NInf, NInf => false
  | NInf, _ => true
  | _, PInf => match x with PInf => false | _ => true end
  | _, _ => false
  end.

Definition eqb (x y : float) : bool :=
  match x, y with
  | Fin a, Fin b => Qeq_bool a b
  | PInf, PInf | NInf, NInf => true
  | _, _ => false
  end.

Definition leb (x y : float) : bool := ltb x y || eqb x y.
Definition gtb (x y : float) : bool := ltb y x.

Definition neg (x : float) : float :=
  match x with
  | Fin q => Fin (Qred (- q))
  | PInf => NInf
  | NInf => PInf
  | NaN => NaN
  end.

Definition abs (x : float) : float :=
  match x with
  | Fin q => Fin (Qred (Qabs q))
  | PInf | NInf => PInf
  | NaN => NaN
  end.

Definition add (x y : float) : float :=
  match x, y with
  | NaN, _ | _, NaN => NaN
  | Fin a, Fin b => Fin (Qred (a + b))
  | PInf, NInf | NInf, PInf => NaN
  | PInf, _ | _, PInf => PInf
  | NInf, _ | _, NInf => NInf
  end.

Definition sub (x y : float) : float := add x (neg y).

(** The infinity with the sign of the rational [q]; NaN when [q] is zero. *)
Definition inf_signed (q : Q) : float :=
  if Qltb 0 q then PInf else if Qltb q 0 then NInf else NaN.

Definition mul (x y : float) : float :=
  match x, y with
  | NaN, _ | _, NaN => NaN
  | Fin a, Fin b => Fin (Qred (a * b))
  | PInf, Fin q | Fin q, PInf => inf_signed q
  | NInf, Fin q | Fin q, NInf => inf_signed (- q)
  | PInf, PInf | NInf, NInf => PInf
  | PInf, NInf | NInf, PInf => NInf
  end.

Definition div (x y : float) : float :=
  match x, y with
  | NaN, _ | _, NaN => NaN
  | Fin a, Fin b => if Qeq_bool b 0 then inf_signed a else Fin (Qred (a / b))
  | Fin _, _ => Fin 0
  | PInf, Fin b => if Qltb b 0 then NInf else PInf
  | NInf, Fin b => if Qltb b 0 then PInf else NInf
  | _, _ => NaN
  end.

Definition min (x y : float) : float :=
  if is_nan x || is_nan y then NaN else if ltb y x then y else x.

(** [numpy.sign] *)
Definition sign (x : float) : float :=
  match x with
  | NaN => NaN
  | _ => if ltb zero x then Fin 1 else if ltb x zero then Fin (-1) else zero
  end.

(** Sum of a numpy array: NaN propagates. *)
Definition sum (l : list float) : float := fold_left add l zero.

(** Sum of a pandas column or row: missing values are skipped. *)
Definition nansum (l : list float) : float :=
  sum (filter (fun x => negb (is_nan x)) l).

(** Nearest integer, ties to even. *)
Definition round_half_even (q : Q) : Z :=
  let n := Qnum q in
  let d := Z.pos (Qden q) in
  let fl := (n / d)%Z in
  let r := (n mod d)%Z in
  match (2 * r ?= d)%Z with
  | Lt => fl
  | Gt => (fl + 1)%Z
  | Eq => if Z.even fl then fl else (fl + 1)%Z
  end.

(** [round(2)] on a column *)
Definition round2 (x : float) : float :=
  match x with
  | Fin q => Fin (Qred (inject_Z (round_half_even (q * 100)) / 100))
  | _ => x
  end.

(** [int(x)] on a finite float: truncation towards zero *)
Definition trunc (q : Q) : Z := Z.quot (Qnum q) (Z.pos (Qden q)).

End Float.

Definition str_of_Z (z : Z) : string := NilZero.string_of_int (Z.to_int z).
Definition str_of_nat (n : nat) : string := str_of_Z (Z.of_nat n).

(** [f"{x:.2f}"] *)
Definition format_2f (x : float) : string :=
  match x with
  | Fin q =>
      let n := Float.round_half_even (q * 100) in
      let a := Z.abs n in
      let frac := (a mod 100)%Z in
      (if Float.Qltb q 0 then "-" else "") ++ str_of_Z (a / 100) ++ "." ++
      (if (frac <? 10)%Z then "0" else "") ++ str_of_Z frac
  | PInf => "inf"
  | NInf => "-inf"
  | NaN => "nan"
  end.

(** [f"{x:.3f}"] *)
Definition format_3f (x : float) : string :=
  match x with
  | Fin q =>
      let n := Float.round_half_even (q * 1000) in
      let a := Z.abs n in
      let frac := (a mod 1000)%Z in
      (if Float.Qltb q 0 then "-" else "") ++ str_of_Z (a / 1000) ++ "." ++
      (if (frac <? 10)%Z then "00" else if (frac <? 100)%Z then "0" else "") ++
      str_of_Z frac
  | PInf => "inf"
  | NInf => "-inf"
  | NaN => "nan"
  end.

(** ** Reading a number from text

    [xstrtod] follows the scanner that [pandas.to_numeric] applies to a text
    cell: blanks, an optional sign, digits with an optional fraction (at
    least one digit in all), an optional exponent, blanks, end of text.  When
    the scan fails the lower-cased text is compared with the spellings of NaN
    and of the infinities.  Python's [float] reads the same numerals (it also
    accepts digit-group underscores and blanks around the special words,
    which are not modelled). *)

Module Parse.

Definition is_digit (a : ascii) : bool :=
  let n := nat_of_ascii a in (48 <=? n)%nat && (n <=? 57)%nat.

Definition digit (a : ascii) : Z := Z.of_nat (nat_of_ascii a - 48).

Definition is_space (a : ascii) : bool :=
  let n := nat_of_ascii a in (n =? 32)%nat || ((9 <=? n)%nat && (n <=? 13)%nat).

Fixpoint skip_spaces (s : string) : string :=
  match s with
  | String a t => if is_space a then skip_spaces t else s
  | EmptyString => s
  end.

(** Scan a run of digits: the accumulated value, the number of digits read
    and the rest of the text. *)
Fixpoint digits (s : string) (acc : Z) (n : nat) : Z * nat * string :=
  match s with
  | String a t =>
      if is_digit a then digits t (10 * acc + digit a)%Z (S n) else (acc, n, s)
  | EmptyString => (acc, n, s)
  end.

(** An optional sign: whether it was a minus, and the rest. *)
Definition sign (s : string) : bool * string :=
  match s with
  | String "-"%char t => (true, t)
  | String "+"%char t => (false, t)
  | _ => (false, s)
  end.

Definition pow10 (e : Z) : Q :=
  if (0 <=? e)%Z then inject_Z (10 ^ e) else 1 / inject_Z (10 ^ (- e)).

Definition exponent (s : string) : Z * string :=
  match s with
  | String c t =>
      if Ascii.eqb c "e"%char || Ascii.eqb c "E"%char then
        let '(neg, t1) := sign t in
        let '(n, k, t2) := digits t1 0%Z 0%nat in
        if (k =? 0)%nat then (0%Z, s)
        else ((if neg then - n else n)%Z, t2)
      else (0%Z, s)
  | EmptyString => (0%Z, s)
  end.

Definition xstrtod (s : string) : option Q :=
  let '(neg, p) := sign (skip_spaces s) in
  let '(n1, k1, p) := digits p 0%Z 0%nat in
  let '(n2, k2, p) :=
    match p with
    | String "."%char t => digits t n1 0%nat
    | _ => (n1, 0%nat, p)
    end in
  if (k1 + k2 =? 0)%nat then None
  else
    let '(e, p) := exponent p in
    match skip_spaces p with
    | EmptyString =>
        Some (Qred (inject_Z (if neg then - n2 else n2) * pow10 (e - Z.of_nat k2)))
    | _ => None
    end.

Definition lower (a : ascii) : ascii :=
  let n := nat_of_ascii a in
  if (65 <=? n)%nat && (n <=? 90)%nat then ascii_of_nat (n + 32) else a.

Fixpoint lowercase (s : string) : string :=
  match s with
  | EmptyString => EmptyString
  | String a t => String (lower a) (lowercase t)
  end.

Definition special (s : string) : option float :=
  let t := lowercase s in
  if String.eqb t "nan" then Some NaN
  else if PyStr.mem t ["inf"; "+inf"; "infinity"; "+infinity"] then Some PInf
  else if PyStr.mem t ["-inf"; "-infinity"] then Some NInf
  else None.

(** The number a text spells, if any. *)
Definition float_of_string (s : string) : option float :=
  match xstrtod s with
  | Some q => Some (Fin q)
  | None => special s
  end.

(** The integer literal Python's [int] accepts: blanks, an optional sign,
    digits, blanks (digit-group underscores are not modelled). *)
Definition int_of_string (s : string) : option Z :=
  let '(neg, p) := sign (PyStr.strip s) in
  let '(n, k, p) := digits p 0%Z 0%nat in
  match k, p with
  | S _, EmptyString => Some (if neg then - n else n)%Z
  | _, _ => None
  end.

End Parse.

(** ** Cells and tables *)

(** A scalar cell of a table: a Python [int], a float (with NaN for a
    missing value) or text. *)
Inductive value :=
| VInt (z : Z)
| VFloat (f : float)
| VStr (s : string).

(** A [pandas.DataFrame] with the default index: the headers and the rows.
    Every row of a frame has one cell per header. *)
Record DataFrame := mkFrame {
  columns : list string;
  rows : list (list value)
}.

Module Frame.

Definition missing : value := VFloat NaN.

Fixpoint index_of (name : string) (cols : list string) : option nat :=
  match cols with
  | [] => None
  | c :: t =>
      if String.eqb c name then Some O
      else option_map S (index_of name t)
  end.

Definition cell (i : nat) (row : list value) : value := nth i row missing.

(** [df.iloc[:, i]] *)
Definition iloc_col (i : nat) (df : DataFrame) : list value :=
  map (cell i) (rows df).

Fixpoint set_nth {A} (i : nat) (x : A) (l : list A) : list A :=
  match i, l with
  | _, [] => []
  | O, _ :: t => x :: t
  | S k, a :: t => a :: set_nth k x t
  end.

(** [df[name] = vals]: an existing column is overwritten in place, a new one
    is appended on the right. *)
Definition set_column (name : string) (vals : list value) (df : DataFrame)
  : DataFrame :=
  match index_of name (columns df) with
  | Some i =>
      mkFrame (columns df)
              (map (fun rv => set_nth i (snd rv) (fst rv)) (combine (rows df) vals))
  | None =>
      mkFrame (columns df ++ [name])
              (map (fun rv => fst rv ++ [snd rv]) (combine (rows df) vals))
  end.

(** [df.iloc[:, i] = f(df.iloc[:, i])] *)
Definition map_column (i : nat) (f : value -> value) (df : DataFrame)
  : DataFrame :=
  mkFrame (columns df) (map (fun r => set_nth i (f (cell i r)) r) (rows df)).

(** [row[name]] on a row of a frame with headers [cols] *)
Definition getitem (cols : list string) (row : list value) (name : string)
  : result value :=
  match index_of name cols with
  | Some i => Ok (cell i row)
  | None => Raise KeyError
  end.

(** [row.get(name, default)] *)
Definition get (cols : list string) (row : list value) (name : string)
  (default : value) : value :=
  match index_of name cols with
  | Some i => cell i row
  | None => default
  end.

(** [df[mask]] *)
Fixpoint select {A} (mask : list bool) (l : list A) : list A :=
  match mask, l with
  | true :: m, a :: t => a :: select m t
  | false :: m, _ :: t => select m t
  | _, _ => []
  end.

End Frame.

(** ** Conversions between cells and numbers *)

(** The number held by a numeric cell. *)
Definition number (v : value) : option float :=
  match v with
  | VInt z => Some (Float.of_Z z)
  | VFloat f => Some f
  | VStr _ => None
  end.

(** [pandas.to_numeric(cell, errors='coerce')] *)
Definition to_numeric (v : value) : float :=
  match v with
  | VInt z => Float.of_Z z
  | VFloat f => f
  | VStr s =>
      match Parse.float_of_string s with
      | Some f => f
      | None => NaN
      end
  end.

(** [.fillna(0)] *)
Definition fillna0 (x : float) : float :=
  if Float.is_nan x then Float.zero else x.

(** [float(v)] *)
Definition py_float (v : value) : result float :=
  match v with
  | VInt z => Ok (Float.of_Z z)
  | VFloat f => Ok f
  | VStr s =>
      match Parse.float_of_string s with
      | Some f => Ok f
      | None => Raise ValueError
      end
  end.

(** [int(x)] on a float *)
Definition int_of_float (x : float) : result Z :=
  match x with
  | Fin q => Ok (Float.trunc q)
  | PInf | NInf => Raise OverflowError
  | NaN => Raise ValueError
  end.

(** [int(v)] *)
Definition py_int (v : value) : result Z :=
  match v with
  | VInt z => Ok z
  | VFloat f => int_of_float f
  | VStr s =>
      match Parse.int_of_string s with
      | Some z => Ok z
      | None => Raise ValueError
      end
  end.

(** [v > 0] and [v <= 0] on a cell: text does not compare with a number. *)
Definition gt0 (v : value) : result bool :=
  match number v with
  | Some x => Ok (Float.gtb x Float.zero)
  | None => Raise TypeError
  end.

Definition le0 (v : value) : result bool :=
  match number v with
  | Some x => Ok (Float.leb x Float.zero)
  | None => Raise TypeError
  end.

(** ** The statistics engine *)

Section Statistics.

(** The survival function of the chi-square distribution, [chi2.sf(x, dof)]
    of scipy: a special function outside rational arithmetic, kept
    abstract. *)
Variable chi2_sf : float -> Z -> float.

Definition format_p_value (p : float) : string :=
  if Float.ltb p (Fin (1 # 1000)) then "<0.001" else format_3f p.

Definition ncols (m : list (list float)) : nat := length (hd [] m).

Definition col_sums (m : list (list float)) : list float :=
  map (fun j => Float.sum (map (fun r => nth j r Float.zero) m))
      (seq 0 (ncols m)).

(** [scipy.stats.contingency.expected_freq] on a two-way table *)
Definition expected_freq (m : list (list float)) : list (list float) :=
  let total := Float.sum (concat m) in
  map (fun r => map (fun c => Float.div (Float.mul r c) total) (col_sums m))
      (map Float.sum m).

(** Yates' continuity correction: every observed count moves towards its
    expected count by at most one half. *)
Definition yates (o e : float) : float :=
  let diff := Float.sub e o in
  Float.add o (Float.mul (Float.min (Fin (1 # 2)) (Float.abs diff))
                         (Float.sign diff)).

Definition pearson_term (o e : float) : float :=
  let d := Float.sub o e in Float.div (Float.mul d d) e.

(** [scipy.stats.chi2_contingency(observed)] with its default continuity
    correction: the statistic and the p-value.  The totals of the observed
    and expected counts agree by construction, so the consistency test of
    [power_divergence] passes. *)
Definition chi2_contingency (observed : list (list float))
  : result (float * float) :=
  if existsb (existsb (fun x => Float.ltb x Float.zero)) observed
  then Raise ValueError
  else if (length (concat observed) =? 0)%nat then Raise ValueError
  else
    let expected := expected_freq observed in
    if existsb (existsb (fun e => Float.eqb e Float.zero)) expected
    then Raise ValueError
    else
      let dof := ((Z.of_nat (length observed) - 1) *
                  (Z.of_nat (ncols observed) - 1))%Z in
      if (dof =? 0)%Z then Ok (Float.zero, Fin 1)
      else
        let cells := combine (concat observed) (concat expected) in
        let adjusted :=
          if (dof =? 1)%Z
          then map (fun oe => (yates (fst oe) (snd oe), snd oe)) cells
          else cells in
        let stat :=
          Float.sum (map (fun oe => pearson_term (fst oe) (snd oe)) adjusted) in
        Ok (stat, chi2_sf stat dof).

(** A row after the coercion of its value cells: every cell but the first
    goes through [pd.to_numeric(..., errors='coerce')] and [fillna(0)]. *)
Definition coerce_row (r : list value) : list value :=
  match r with
  | [] => []
  | label :: vals => label :: map (fun v => VFloat (fillna0 (to_numeric v))) vals
  end.

(** [for c in val_cols: stats_df[c] = pd.to_numeric(stats_df[c],
    errors='coerce').fillna(0)].  A header that occurs twice selects a
    sub-frame instead of a column, on which [to_numeric] raises. *)
Definition coerce_value_columns (df : DataFrame) : result DataFrame :=
  let cols := columns df in
  if existsb (fun c => (1 <? count_occ string_dec cols c)%nat) (tl cols)
  then Raise TypeError
  else Ok (mkFrame cols (map coerce_row (rows df))).

(** [stats_df[val_cols].values]: the cells under the headers after the
    first, [n] being the number of headers of the input table. *)
Definition values (n : nat) (df : DataFrame) : list (list float) :=
  map (fun r => map to_numeric (firstn (n - 1) (tl r))) (rows df).

Definition all_zero (r : list float) : bool :=
  forallb (fun x => Float.eqb x Float.zero) r.

(** [stats_df.iloc[0, stats_df.columns.get_loc(name)] = v] *)
Definition set_first (name : string) (v : value) (df : DataFrame)
  : result DataFrame :=
  match Frame.index_of name (columns df), rows df with
  | Some j, r :: rest => Ok (mkFrame (columns df) (Frame.set_nth j v r :: rest))
  | Some _, [] => Raise IndexError
  | None, _ => Raise KeyError
  end.

(** The body of the [try] block of [process_stats_table]. *)
Definition stats_body (df : DataFrame) : result DataFrame :=
  let n := length (columns df) in
  (stats_df <- coerce_value_columns df ;;
  let totals := map Float.nansum (values n stats_df) in
  let stats_df := Frame.set_column "合计" (map VFloat totals) stats_df in
  let total_sum := Float.nansum totals in
  let ratio t :=
    Float.round2 (Float.mul (Float.div t total_sum) (Fin 100)) in
  let stats_df :=
    Frame.set_column "构成比(%)" (map (fun t => VFloat (ratio t)) totals)
                     stats_df in
  if (2 <=? n - 1)%nat then
    let obs := values n stats_df in
    let obs_clean := filter (fun r => negb (all_zero r)) obs in
    if Float.gtb (Float.sum (concat obs_clean)) Float.zero
       && (1 <? length obs_clean)%nat
    then
      cp <- chi2_contingency obs_clean ;;
      let blank := map (fun _ => VStr "") (rows stats_df) in
      let stats_df := Frame.set_column "χ²值" blank stats_df in
      let stats_df := Frame.set_column "P值" blank stats_df in
      stats_df <- set_first "χ²值" (VStr (format_2f (fst cp))) stats_df ;;
      set_first "P值" (VStr (format_p_value (snd cp))) stats_df
    else Ok stats_df
  else Ok stats_df)%py.

(** [process_stats_table(df, row_name_col)]: the bare [except] returns the
    argument, which the body has only copied. *)
Definition process_stats_table (df : DataFrame) (row_name_col : string)
  : DataFrame :=
  match stats_body df with
  | Ok stats_df => stats_df
  | Raise _ => df
  end.

End Statistics.

(** ** The report generator *)

Definition nl : string := String (ascii_of_nat 10) EmptyString.

(** The headers the report reads. *)
Definition CASES : string := "本期发病数".
Definition MOM : string := "与上期比（%）".
Definition YOY : string := "与去年同期比（%）".
Definition TOTAL_MARK : string := "合计".

(** The session's data map: one slot per role. *)
Inductive role := Summary | Time | Age | Pop | Area.

Record DataMap := mkData {
  summary : option DataFrame;
  time : option DataFrame;
  age : option DataFrame;
  pop : option DataFrame;
  area : option DataFrame
}.

Definition lookup (r : role) (d : DataMap) : option DataFrame :=
  match r with
  | Summary => summary d
  | Time => time d
  | Age => age d
  | Pop => pop d
  | Area => area d
  end.

(** [data[r] = df] *)
Definition store (r : role) (df : DataFrame) (d : DataMap) : DataMap :=
  match r with
  | Summary => mkData (Some df) (time d) (age d) (pop d) (area d)
  | Time => mkData (summary d) (Some df) (age d) (pop d) (area d)
  | Age => mkData (summary d) (time d) (Some df) (pop d) (area d)
  | Pop => mkData (summary d) (time d) (age d) (Some df) (area d)
  | Area => mkData (summary d) (time d) (age d) (pop d) (Some df)
  end.

Definition empty_data : DataMap := mkData None None None None None.

(** [ReportGenerator.fmt_trend] *)
Definition fmt_trend (val : value) : string :=
  match py_float val with
  | Ok v =>
      if Float.gtb v Float.zero then "上升" ++ format_2f v ++ "%"
      else if Float.ltb v Float.zero then "下降" ++ format_2f (Float.abs v) ++ "%"
      else "持平"
  | Raise _ => "持平"
  end.

(** Stable insertion into a list in ascending key order: the new element
    goes after the elements whose key is not greater. *)
Fixpoint insert_asc {A} (key : A -> float) (x : A) (l : list A) : list A :=
  match l with
  | [] => [x]
  | y :: t =>
      if Float.ltb (key x) (key y) then x :: l else y :: insert_asc key x t
  end.

(** The ascending sort behind [sort_values].  The program sorts with the
    default kind, which returns an ascending arrangement of the keys and
    promises nothing about the order among equal keys; the embedding takes
    one such arrangement, that of a sort by insertion.  What is stated about
    the order of a sorted table is stated for every descending arrangement
    of its rows. *)
Definition argsort {A} (key : A -> float) (l : list A) : list A :=
  fold_left (fun acc x => insert_asc key x acc) l [].

(** [pandas.core.sorting.nargsort] with [ascending=False] and missing keys
    last: the rows with a key are reversed, sorted in ascending order and
    reversed again; the rows without a key follow in their input order. *)
Definition nargsort_desc {A} (key : A -> float) (l : list A) : list A :=
  let non_nans := filter (fun x => negb (Float.is_nan (key x))) l in
  let nans := filter (fun x => Float.is_nan (key x)) l in
  rev (argsort key (rev non_nans)) ++ nans.

Section Pipeline.

(** [repr] of a finite float, the shortest decimal numeral that reads back
    as the same float: kept abstract. *)
Variable float_repr : Q -> string.

(** [str(v)], also [astype(str)] on a cell *)
Definition py_str (v : value) : string :=
  match v with
  | VInt z => str_of_Z z
  | VFloat (Fin q) => float_repr q
  | VFloat PInf => "inf"
  | VFloat NInf => "-inf"
  | VFloat NaN => "nan"
  | VStr s => s
  end.

(** [df.iloc[:, 0]] *)
Definition first_column (df : DataFrame) : result (list value) :=
  match columns df with
  | [] => Raise IndexError
  | _ => Ok (Frame.iloc_col 0 df)
  end.

(** [df_sub.sort_values('本期发病数', ascending=False)] *)
Definition sort_values_desc (cols : list string) (rws : list (list value))
  : result (list (list value)) :=
  match Frame.index_of CASES cols with
  | None => Raise KeyError
  | Some i =>
      if forallb (fun r => match number (Frame.cell i r) with
                           | Some _ => true | None => false end) rws
      then Ok (nargsort_desc (fun r => to_numeric (Frame.cell i r)) rws)
      else Raise TypeError
  end.

(** The text of one entry of the ranking: [f"{name}（{cases}例，占比
    {percent:.2f}%，较上月{...}，较去年同期{...}）"] *)
Definition description (cols : list string) (total_cases : float)
  (row : list value) (cases : Z) : string :=
  let name := Frame.cell 0 row in
  let percent :=
    Float.mul (Float.div (Float.of_Z cases) total_cases) (Fin 100) in
  let mom := Frame.get cols row MOM (VInt 0) in
  let yoy := Frame.get cols row YOY (VInt 0) in
  py_str name ++ "（" ++ str_of_Z cases ++ "例，占比" ++
  format_2f percent ++ "%，较上月" ++ fmt_trend mom ++
  "，较去年同期" ++ fmt_trend yoy ++ "）".

(** One pass of the loop of [get_top_diseases_text]: [None] for a row that
    is skipped. *)
Definition describe (cols : list string) (total_cases : float)
  (row : list value) : result (option string) :=
  (c <- Frame.getitem cols row CASES ;;
   skip <- le0 c ;;
   if skip then Ok None
   else
     cases <- py_int c ;;
     Ok (Some (description cols total_cases row cases)))%py.

Definition NO_CASES : string := "无报告病例。".

Fixpoint somes {A} (l : list (option A)) : list A :=
  match l with
  | [] => []
  | Some a :: t => a :: somes t
  | None :: t => somes t
  end.

(** The loop of [get_top_diseases_text] over the rows of the sorted table,
    and the text it returns. *)
Definition top_text (cols : list string) (total_cases : float)
  (sorted : list (list value)) : result string :=
  (descs <- mapM (describe cols total_cases) (firstn 3 sorted) ;;
   match somes descs with
   | [] => Ok NO_CASES
   | top_list => Ok (PyStr.join "、" top_list)
   end)%py.

(** [ReportGenerator.get_top_diseases_text(df_sub, total_cases)] *)
Definition get_top_diseases_text (cols : list string)
  (df_sub : list (list value)) (total_cases : float) : result string :=
  match df_sub with
  | [] => Ok NO_CASES
  | _ =>
      (sorted <- sort_values_desc cols df_sub ;;
       top_text cols total_cases sorted)%py
  end.

Definition PLACEHOLDER : string := "⚠️ 缺失疫情分析报表，无法生成概况。".

Definition section_1 (reported_count : nat) (total_cases : Z)
  (total_mom total_yoy : value) : string :=
  nl ++ "### 一、 近期概况" ++ nl ++
  "**(一) 传染病报告信息管理系统**" ++ nl ++
  "1. **传染病疫情**：本月我区共报告法定传染病 **" ++
  str_of_nat reported_count ++ "** 种 **" ++ str_of_Z total_cases ++
  "** 例。" ++ nl ++
  "   与上月相比" ++ fmt_trend total_mom ++ "；与去年同期相比" ++
  fmt_trend total_yoy ++ "。" ++ nl ++ "        ".

(** The paragraph of one tier: [title] and [lead] are the two pieces of
    fixed text that differ between the second and the third paragraph. *)
Definition tier_section (title lead : string) (count : nat) (cases : Z)
  (text : string) : string :=
  nl ++ title ++ "：本月报告 **" ++ str_of_nat count ++ "** 种，合计 **" ++
  str_of_Z cases ++ "** 例。" ++ nl ++
  "   " ++ lead ++ "：**" ++ text ++ "**。" ++ nl ++ "            ".

Definition tier_none (title : string) : string :=
  nl ++ title ++ "：无报告。" ++ nl.

Definition TITLE_B : string := "2. **乙类传染病**".
Definition LEAD_B : string := "发病数居前几位的病种为".
Definition TITLE_C : string := "3. **丙类传染病**".
Definition LEAD_C : string := "主要流行病种为".

(** The analysis of one tier in [generate_full_report]; [classes] holds the
    new column [Class]. *)
Definition tier_paragraph (t : tier) (title lead : string)
  (cols : list string) (detail : list (list value)) (classes : list tier)
  : result string :=
  let sub :=
    Frame.select (map (fun c => String.eqb (tier_label c) (tier_label t)) classes)
                 detail in
  match sub with
  | [] => Ok (tier_none title)
  | _ =>
      (cs <- mapM (fun r => Frame.getitem cols r CASES) sub ;;
       positive <- mapM gt0 cs ;;
       let cases := Float.nansum (map to_numeric cs) in
       let count := length (filter (fun b => b) positive) in
       text <- (if Float.gtb cases Float.zero
                then get_top_diseases_text cols sub cases
                else Ok "无") ;;
       n <- int_of_float cases ;;
       Ok (tier_section title lead count n text))%py
  end.

(** [ReportGenerator.generate_full_report]: the three paragraphs, or the
    placeholder when no summary table was ingested. *)
Definition report_sections (d : DataMap)
  : result (string + string * string * string) :=
  match summary d with
  | None => Ok (inl PLACEHOLDER)
  | Some df =>
      (names <- first_column df ;;
       let is_total :=
         map (fun v => PyStr.contains TOTAL_MARK (py_str v)) names in
       match Frame.select is_total (rows df) with
       | [] => Raise IndexError
       | total_row :: _ =>
           c <- Frame.getitem (columns df) total_row CASES ;;
           total_cases <- py_int c ;;
           let total_mom := Frame.get (columns df) total_row MOM (VInt 0) in
           let total_yoy := Frame.get (columns df) total_row YOY (VInt 0) in
           let detail := Frame.select (map negb is_total) (rows df) in
           cs <- mapM (fun r => Frame.getitem (columns df) r CASES) detail ;;
           positive <- mapM gt0 cs ;;
           let reported_count := length (filter (fun b => b) positive) in
           let s1 :=
             section_1 reported_count total_cases total_mom total_yoy in
           let classes :=
             map (fun r => get_disease_class (py_str (Frame.cell 0 r)))
                 detail in
           let df_detail :=
             Frame.set_column "Class"
               (map (fun c => VStr (tier_label c)) classes)
               (mkFrame (columns df) detail) in
           s2 <- tier_paragraph TierB TITLE_B LEAD_B (columns df_detail)
                                (rows df_detail) classes ;;
           s3 <- tier_paragraph TierC TITLE_C LEAD_C (columns df_detail)
                                (rows df_detail) classes ;;
           Ok (inr (s1, s2, s3))
       end)%py
  end.

Definition generate_full_report (d : DataMap) : result string :=
  (r <- report_sections d ;;
   match r with
   | inl message => Ok message
   | inr (s1, s2, s3) => Ok (s1 ++ s2 ++ s3)%string
   end)%py.


(** ** The parser: age binning and the ingestion router *)

(** [range(start, stop, step)] for a positive step *)
Definition py_range (start stop step : Z) : list Z :=
  map (fun k => (start + step * Z.of_nat k)%Z)
      (seq 0 (Z.to_nat ((stop - start + step - 1) / step))).

Definition bins : list Z := py_range 0 101 5.

(** [labels = [f"{i}-{i+4}" for i in range(0, 96, 5)] + ["100+"]] followed
    by [labels = labels[:len(bins)-1]] *)
Definition labels : list string :=
  firstn (length bins - 1)
    (map (fun i => (str_of_Z i ++ "-" ++ str_of_Z (i + 4))%string)
         (py_range 0 96 5) ++ ["100+"]).

(** [pd.cut(x, bins=edges, right=False)]: the position of the interval
    [[lo, hi)] that holds [x], none when [x] is missing or outside. *)
Fixpoint cut (edges : list Z) (x : float) : option nat :=
  match edges with
  | lo :: ((hi :: _) as rest) =>
      if Float.leb (Float.of_Z lo) x && Float.ltb x (Float.of_Z hi) then Some O
      else option_map S (cut rest x)
  | _ => None
  end.

Definition same_bin (k : nat) (g : option nat) : bool :=
  match g with
  | Some j => (j =? k)%nat
  | None => false
  end.

(** [df['年龄组'].value_counts().sort_index().reset_index()] with the two
    headers renamed: one row per label, in the order of the labels. *)
Definition count_bins (groups : list (option nat)) : DataFrame :=
  mkFrame ["年龄组"; "发病数"]
    (map (fun k => [VStr (nth k labels "");
                    VInt (Z.of_nat (length (filter (same_bin k) groups)))])
         (seq 0 (length labels))).

Fixpoint insert_by {A} (lt : A -> A -> bool) (x : A) (l : list A) : list A :=
  match l with
  | [] => [x]
  | y :: t => if lt x y then x :: l else y :: insert_by lt x t
  end.

Definition sort_by {A} (lt : A -> A -> bool) (l : list A) : list A :=
  fold_right (insert_by lt) [] l.

Fixpoint dedup {A} (eq : A -> A -> bool) (l : list A) : list A :=
  match l with
  | [] => []
  | x :: t => x :: filter (fun y => negb (eq x y)) (dedup eq t)
  end.

Definition value_eqb (a b : value) : bool :=
  match a, b with
  | VStr s, VStr t => String.eqb s t
  | VStr _, _ | _, VStr _ => false
  | _, _ => Float.eqb (to_numeric a) (to_numeric b)
  end.

Definition value_ltb (a b : value) : bool :=
  match a, b with
  | VStr s, VStr t => String.ltb s t
  | _, _ => Float.ltb (to_numeric a) (to_numeric b)
  end.

Definition is_text (v : value) : bool :=
  match v with VStr _ => true | _ => false end.

Definition is_missing (v : value) : bool :=
  match v with VFloat NaN => true | _ => false end.

(** A column of numbers: it has a cell, and none of its cells is text.  The
    reader gives such a column a numeric type. *)
Definition numeric_column (vals : list value) : bool :=
  match vals with
  | [] => false
  | _ => forallb (fun v => negb (is_text v)) vals
  end.

(** [df.iloc[:, 0] = df.iloc[:, 0].astype(str)] needs a first column, and
    writes the texts into the column in place: pandas refuses to write text
    into a column of numbers. *)
Definition first_column_astype_str (df : DataFrame) : result DataFrame :=
  match columns df with
  | [] => Raise IndexError
  | _ =>
      if numeric_column (Frame.iloc_col 0 df) then Raise TypeError
      else Ok (Frame.map_column 0 (fun v => VStr (py_str v)) df)
  end.

(** [df.groupby(['年龄组', sex_col]).size().unstack(fill_value=0)] followed by
    [reset_index]: the rows that have a bin and a sex are grouped; there is
    one row per label that occurs among them, in the order of the labels,
    and one column per sex that occurs among them, in sorted order.  Keys of
    mixed kinds cannot be ordered, which raises. *)
Definition cross_tabulate (groups : list (option nat)) (sex : list value)
  : result DataFrame :=
  let pairs :=
    filter (fun p => match fst p with
                     | Some _ => negb (is_missing (snd p))
                     | None => false
                     end)
           (combine groups sex) in
  let keys := dedup value_eqb (map snd pairs) in
  if existsb is_text keys && existsb (fun v => negb (is_text v)) keys
  then Raise TypeError
  else
    let keys := sort_by value_ltb keys in
    Ok (mkFrame ("年龄组" :: map py_str keys)
          (map (fun k =>
                  VStr (nth k labels "") ::
                  map (fun s =>
                         VInt (Z.of_nat (length (filter
                           (fun p => same_bin k (fst p) && value_eqb s (snd p))
                           pairs))))
                      keys)
               (filter (fun k => existsb (fun p => same_bin k (fst p)) pairs)
                       (seq 0 (length labels))))).

(** [AdvancedParser.bin_ages]: the table is changed in place before the
    grouping, and an exception inside the [try] block returns it as it is at
    that point.  The headers of the embedding are text: a header that is not
    text makes the test for the sex column raise inside the [try] block, a
    path that is outside the embedding. *)
Definition bin_ages (df : DataFrame) : DataFrame :=
  match find (fun c => PyStr.contains "年龄" c && negb (PyStr.contains "组" c))
             (columns df) with
  | None => df
  | Some age_col =>
      if (1 <? count_occ string_dec (columns df) age_col)%nat then df
      else
        match Frame.index_of age_col (columns df) with
        | None => df
        | Some i =>
            let df := Frame.map_column i (fun v => VFloat (to_numeric v)) df in
            let groups :=
              map (fun r => cut bins (to_numeric (Frame.cell i r))) (rows df) in
            let df :=
              Frame.set_column "年龄组"
                (map (fun g => match g with
                               | Some k => VStr (nth k labels "")
                               | None => Frame.missing
                               end) groups) df in
            match find (PyStr.contains "性") (columns df) with
            | Some sex_col =>
                match Frame.index_of sex_col (columns df) with
                | None => df
                | Some j =>
                    match cross_tabulate groups (Frame.iloc_col j df) with
                    | Ok grouped => grouped
                    | Raise _ => df
                    end
                end
            | None => count_bins groups
            end
        end
  end.

(** The clean-up of a cell of a count or ratio column of the summary table:
    [pd.to_numeric(df[c].astype(str).str.replace(',', '').str.replace('-',
    '0'), errors='coerce').fillna(0)] *)
Definition clean_text (s : string) : string :=
  PyStr.replace "-"%char "0" (PyStr.replace ","%char "" s).

(** The numeric normaliser on the text of a cell. *)
Definition to_number_text (s : string) : float :=
  fillna0 (to_numeric (VStr (clean_text s))).

Definition to_number (v : value) : float := to_number_text (py_str v).

(** The clean-up of a cell of the [Cases] column of the area table: the
    separators go, a dash stays. *)
Definition to_cases (v : value) : float :=
  fillna0 (to_numeric (VStr (PyStr.replace ","%char "" (py_str v)))).

Definition is_numeric_header (c : string) : bool :=
  existsb (fun k => PyStr.contains k c) ["数"; "比"].

(** The loop over the headers in the summary branch.  A header that occurs
    twice selects a sub-frame, which has no [str] accessor. *)
Definition clean_summary (df : DataFrame) : result DataFrame :=
  let cols := columns df in
  if existsb (fun c => is_numeric_header c &&
                       (1 <? count_occ string_dec cols c)%nat) cols
  then Raise AttributeError
  else
    Ok (mkFrame cols
          (map (fun r =>
                  map (fun cv => if is_numeric_header (fst cv)
                                 then VFloat (to_number (snd cv))
                                 else snd cv)
                      (combine cols r))
               (rows df))).

(** The area branch on a table with at least two columns. *)
Definition clean_area (df : DataFrame) : DataFrame :=
  mkFrame ["Name"; "Cases"]
    (map (fun r => [Frame.cell 0 r; VFloat (to_cases (Frame.cell 1 r))])
         (rows df)).

(** The chain of tests of [parse_files] on a table that was read: the role
    and the table to store, nothing for a table that is skipped. *)
Definition route (fname : string) (df : DataFrame)
  : result (option (role * DataFrame)) :=
  let cols := String.concat "" (columns df) in
  let in_name k := PyStr.contains k fname in
  let in_cols k := PyStr.contains k cols in
  if in_name "报表" || (in_cols "病种" && in_cols "本期") then
    (df <- clean_summary df ;; Ok (Some (Summary, df)))%py
  else if in_name "时间" || (in_cols "时间" && in_cols "发病") then
    Ok (Some (Time, df))
  else if in_name "年龄" || in_cols "男" then
    (df <- first_column_astype_str (bin_ages df) ;; Ok (Some (Age, df)))%py
  else if in_name "人群" || in_cols "职业" then
    (df <- first_column_astype_str df ;; Ok (Some (Pop, df)))%py
  else if in_name "地区" || in_cols "乡镇" || in_cols "街道" then
    if (2 <=? length (columns df))%nat then Ok (Some (Area, clean_area df))
    else Ok None
  else Ok None.

(** What a file decodes to; the readers are outside the core. *)
Inductive content :=
| Tabular (df : DataFrame)
| Features (names : list string)
| Unreadable.

Record File := mkFile {
  name : string;
  body : content
}.

(** The state of an [AdvancedParser]. *)
Record Parser := mkParser {
  data : DataMap;
  geojson : option (list string)
}.

Definition new_parser : Parser := mkParser empty_data None.

(** The lines of the ingestion log: a map was loaded, a table was stored
    under a role, a file failed with an exception.  A file that matches no
    rule leaves no line. *)
Inductive log :=
| LogMap (fname : string)
| LogStored (r : role) (fname : string)
| LogError (fname : string) (e : exn).

Definition is_geo (fname : string) : bool :=
  PyStr.endswith fname ".json" || PyStr.endswith fname ".geojson".

(** One turn of the loop of [parse_files]. *)
Definition parse_file (p : Parser) (f : File) : Parser * list log :=
  if is_geo (name f) then
    match body f with
    | Features g => (mkParser (data p) (Some g), [LogMap (name f)])
    | _ => (p, [LogError (name f) ValueError])
    end
  else
    match body f with
    | Tabular df =>
        match route (name f) df with
        | Ok (Some (r, t)) =>
            (mkParser (store r t (data p)) (geojson p), [LogStored r (name f)])
        | Ok None => (p, [])
        | Raise e => (p, [LogError (name f) e])
        end
    | _ => (p, [LogError (name f) ValueError])
    end.

(** What the file [f] puts in the data map: the role and the table the
    router stores for it, nothing for a map, for a file that is skipped and
    for a file that fails. *)
Definition stored (f : File) : option (role * DataFrame) :=
  if is_geo (name f) then None
  else
    match body f with
    | Tabular df =>
        match route (name f) df with
        | Ok (Some rt) => Some rt
        | _ => None
        end
    | _ => None
    end.

(** [AdvancedParser.parse_files]: the parser after the batch, and the log. *)
Fixpoint parse_files (p : Parser) (files : list File) : Parser * list log :=
  match files with
  | [] => (p, [])
  | f :: rest =>
      let '(p1, l1) := parse_file p f in
      let '(p2, l2) := parse_files p1 rest in
      (p2, l1 ++ l2)
  end.

End Pipeline.

(** ** Auxiliary notions used in the statements *)

Module StrAux.
Import PyStr.
Fixpoint has_byte (b : ascii) (s : string) : bool :=
  match s with
  | EmptyString => false
  | String a t => Ascii.eqb a b || has_byte b t
  end.

Definition is_ws_byte (b : ascii) : bool := existsb (has_byte b) whitespace.

Definition first_byte (s : string) : option ascii :=
  match s with EmptyString => None | String a _ => Some a end.

Fixpoint last_byte (s : string) : option ascii :=
  match s with
  | EmptyString => None
  | String a EmptyString => Some a
  | String _ t => last_byte t
  end.

(** A keyword survives stripping when neither its first nor its last byte
    occurs in a whitespace character. *)
Definition strip_safe (pat : string) : bool :=
  match first_byte pat, last_byte pat with
  | Some a, Some z => negb (is_ws_byte a) && negb (is_ws_byte z)
  | _, _ => false
  end.

End StrAux.

(** [asc key a b]: [b] does not come before [a] in ascending order of the
    keys; [desc key a b]: it does not in descending order. *)
Definition asc {A} (key : A -> float) (a b : A) : Prop :=
  Float.ltb (key b) (key a) = false.

Definition desc {A} (key : A -> float) (a b : A) : Prop :=
  Float.ltb (key a) (key b) = false.

(** The sort key of a row of the summary table: the number in its case
    count cell, [i] being the position of the case count column. *)
Definition cases_key (i : nat) (r : list value) : float :=
  to_numeric (Frame.cell i r).

(** A cell that holds a finite number. *)
Definition finite_cell (v : value) : bool :=
  match number v with
  | Some (Fin _) => true
  | _ => false
  end.

(** The integer [int(v)] of a cell that holds a finite number. *)
Definition int_of_cell (v : value) : Z :=
  match py_int v with
  | Ok z => z
  | Raise _ => 0%Z
  end.

(** *** The statistics table in the words of the specification *)

Module StatsAux.

(** The headers of the derived columns. *)
Definition DERIVED : list string := ["合计"; "构成比(%)"; "χ²值"; "P值"].


(** The coercion of a value cell in the statistics engine:
    [pd.to_numeric(cell, errors='coerce')] followed by [fillna(0)]. *)
Definition stats_number (v : value) : float := fillna0 (to_numeric v).

(** The counts of a row: the cells after the label, coerced to numbers. *)
Definition observed_row (r : list value) : list float :=
  map (fun v => fillna0 (to_numeric v)) (tl r).

Definition observations (df : DataFrame) : list (list float) :=
  map observed_row (rows df).

(** The observations without the rows that are zero throughout. *)
Definition cleaned (df : DataFrame) : list (list float) :=
  filter (fun r => negb (all_zero r)) (observations df).

(** At least two value columns, and more than one row with a count left,
    with a positive grand total. *)
Definition testable (df : DataFrame) : bool :=
  (2 <=? length (columns df) - 1)%nat &&
  (Float.gtb (Float.sum (concat (cleaned df))) Float.zero &&
   (1 <? length (cleaned df))%nat).


(** The table with the row totals and the composition ratios. *)
Definition enriched (df : DataFrame) : DataFrame :=
  let total_sum := Float.nansum (map Float.nansum (observations df)) in
  mkFrame (columns df ++ ["合计"; "构成比(%)"])
    (map (fun r =>
            let total := Float.nansum (observed_row r) in
            coerce_row r ++
            [VFloat total;
             VFloat (Float.round2
                       (Float.mul (Float.div total total_sum) (Fin 100)))])
         (rows df)).

(** The two test columns: the figures in the first row, empty text in the
    others. *)
Definition with_test (chi p : string) (e : DataFrame) : DataFrame :=
  mkFrame (columns e ++ ["χ²值"; "P值"])
    (match rows e with
     | [] => []
     | r0 :: rest =>
         (r0 ++ [VStr chi; VStr p]) ::
         map (fun r => r ++ [VStr ""; VStr ""]) rest
     end).

(** A table as the statistics engine receives it: distinct headers, none of
    them the header of a derived column, and one cell per header in every
    row. *)
Definition well_formed (df : DataFrame) : Prop :=
  NoDup (columns df) /\
  (forall c, In c DERIVED -> ~ In c (columns df)) /\
  (forall r, In r (rows df) -> length r = length (columns df)).

End StatsAux.

(** A rendering of finite floats for the worked examples: fixed notation,
    the digits after the point cut at seventeen places.  It is what [repr]
    prints for the floats with few digits; the properties below hold for any
    rendering. *)
Fixpoint frac_digits (fuel : nat) (num den : Z) : string :=
  match fuel with
  | O => EmptyString
  | S k =>
      if (num =? 0)%Z then EmptyString
      else (str_of_Z (10 * num / den) ++ frac_digits k ((10 * num) mod den) den)%string
  end.

Definition repr_fixed (q : Q) : string :=
  let n := Z.abs (Qnum q) in
  let d := Z.pos (Qden q) in
  let frac := frac_digits 17 (n mod d) d in
  ((if Float.Qltb q 0 then "-" else "") ++ str_of_Z (n / d) ++ "." ++
   (if String.eqb frac "" then "0" else frac))%string.

(** The p-value used in the worked examples: 0.504, which is the survival
    function at the statistic of the two-by-two table of counts 10, 20, 30
    and 40, to three places. *)
Definition sf_example : float -> Z -> float := fun _ _ => Fin (504 # 1000).

(** ** Tables of the worked examples *)

Module Examples.

(** A summary file with a negative percentage written as text and one
    written as an integer. *)
Definition signed_summary : DataFrame :=
  mkFrame ["病种"; CASES; MOM; YOY]
    [[VStr "合计"; VInt 100; VInt 5; VInt (-2)];
     [VStr "病毒性肝炎"; VStr "60"; VStr "-"; VStr "-3"]].

(** The summary table of the end-to-end scenario: the total row and two
    diseases of the second tier. *)
Definition e2e_summary : DataFrame :=
  mkFrame ["病种"; CASES; MOM; YOY]
    [[VStr "合计"; VInt 100; VInt 5; VInt (-2)];
     [VStr "肺结核"; VInt 40; VInt 0; VInt 3];
     [VStr "病毒性肝炎"; VInt 60; VInt 10; VInt (-5)]].

Definition e2e_file : File := mkFile "疫情分析报表.xlsx" (Tabular e2e_summary).

(** Four ages and no sex column. *)
Definition ages : DataFrame :=
  mkFrame ["年龄"] [[VInt 3]; [VInt 7]; [VInt 22]; [VInt 101]].


(** The two-by-two table of counts 10, 20, 30 and 40. *)
Definition two_by_two : DataFrame :=
  mkFrame ["年龄组"; "男"; "女"]
    [[VStr "0-4"; VInt 10; VInt 20]; [VStr "5-9"; VInt 30; VInt 40]].

(** Two value columns, the second one empty. *)
Definition empty_column : DataFrame :=
  mkFrame ["年龄组"; "男"; "女"]
    [[VStr "0-4"; VInt 10; VInt 0]; [VStr "5-9"; VInt 30; VInt 0]].




(** Two area files. *)
Definition area_1 : File :=
  mkFile "地区分布1.csv"
    (Tabular (mkFrame ["乡镇"; "病例"] [[VStr "甲镇"; VStr "1,200"]])).

Definition area_2 : File :=
  mkFile "地区分布2.csv"
    (Tabular (mkFrame ["乡镇"; "病例"; "备注"]
                [[VStr "乙镇"; VInt 7; VStr "x"]; [VStr "丙镇"; VStr "-"; VStr "y"]])).

End Examples.

(** ** Further notions used in the statements *)

Module ExtraAux.



(** The row holds the total marker in its first cell. *)
Definition is_total_row (float_repr : Q -> string) (r : list value) : bool :=
  PyStr.contains TOTAL_MARK (py_str float_repr (Frame.cell 0 r)).

(** The tier of the disease named in the first cell of a row. *)
Definition tier_of_row (float_repr : Q -> string) (r : list value) : tier :=
  get_disease_class (py_str float_repr (Frame.cell 0 r)).

(** The edge of position [n] in [range(0, 101, 5)]. *)
Definition edge (n : nat) : Z := (0 + 5 * Z.of_nat n)%Z.

(** The order in which the router tests the roles. *)
Definition rank (r : role) : nat :=
  match r with
  | Summary => 0 | Time => 1 | Age => 2 | Pop => 3 | Area => 4
  end.

(** The test of the router for a role: a token in the name of the file, or
    tokens in the headers put end to end. *)
Definition rule (r : role) (fname : string) (df : DataFrame) : bool :=
  let cols := String.concat "" (columns df) in
  let in_name k := PyStr.contains k fname in
  let in_cols k := PyStr.contains k cols in
  match r with
  | Summary => in_name "报表" || (in_cols "病种" && in_cols "本期")
  | Time => in_name "时间" || (in_cols "时间" && in_cols "发病")
  | Age => in_name "年龄" || in_cols "男"
  | Pop => in_name "人群" || in_cols "职业"
  | Area => in_name "地区" || in_cols "乡镇" || in_cols "街道"
  end.

(** The file is stored under the role [r]. *)
Definition stores (float_repr : Q -> string) (r : role) (f : File) : bool :=
  match stored float_repr f with
  | Some (r', _) => (rank r' =? rank r)%nat
  | None => false
  end.

(** The first byte of the word for a fall in a trend phrase. *)
Definition FALL_BYTE : ascii := ascii_of_nat 228.

(** A batch with a file that cannot be read between two area files. *)
Definition broken_batch : list File :=
  [Examples.area_1; mkFile "坏文件.csv" Unreadable; Examples.area_2].

End ExtraAux.

(** * Properties *)

(** ** Substrings under replacement and stripping *)

Module PyStrFacts.
Import PyStr StrAux.

Lemma prefix_cons a p b s :
  prefix (String a p) (String b s) = true <-> a = b /\ prefix p s = true.
Proof.
  simpl. destruct (ascii_dec a b); intuition congruence.
Qed.

Lemma prefix_nil s : prefix EmptyString s = true.
Proof. destruct s; reflexivity. Qed.

Lemma contains_cons pat a s :
  contains pat s = true -> contains pat (String a s) = true.
Proof. intros H. cbn [contains]. rewrite H. apply orb_true_r. Qed.

Lemma contains_app_r pat l s :
  contains pat s = true -> contains pat (l ++ s)%string = true.
Proof. induction l; simpl; auto. intros H. rewrite IHl by assumption. apply orb_true_r. Qed.

Lemma contains_of_prefix pat s : prefix pat s = true -> contains pat s = true.
Proof. destruct s; cbn [contains]; intros ->; reflexivity. Qed.

Lemma prefix_has_byte b p s :
  prefix p s = true -> has_byte b p = true -> has_byte b s = true.
Proof.
  revert s; induction p as [|a p IH]; intros s Hp Hb; [discriminate|].
  destruct s as [|c s]; [discriminate|].
  apply prefix_cons in Hp as [-> Hp]. simpl in *.
  destruct (Ascii.eqb c b); simpl in *; auto.
Qed.

Lemma contains_has_first pat a s :
  first_byte pat = Some a -> contains pat s = true -> has_byte a s = true.
Proof.
  intros Hf. induction s as [|c s IH]; cbn [contains]; intros H.
  - destruct pat; simpl in *; discriminate.
  - apply orb_true_iff in H as [H|H].
    + apply (prefix_has_byte a pat); auto.
      destruct pat; simpl in *; [discriminate|]. injection Hf as ->.
      now rewrite Ascii.eqb_refl.
    + simpl. rewrite (IH H). apply orb_true_r.
Qed.

Lemma last_byte_has z p : last_byte p = Some z -> has_byte z p = true.
Proof.
  induction p as [|a p IH]; [discriminate|].
  simpl. destruct p.
  - intros [= ->]. now rewrite Ascii.eqb_refl.
  - intros H. rewrite (IH H). apply orb_true_r.
Qed.

(** *** Replacement *)

Lemma prefix_replace c new pat s :
  has_byte c pat = false -> prefix pat s = true ->
  prefix pat (replace c new s) = true.
Proof.
  revert s; induction pat as [|a p IH]; intros s Hc Hp; [apply prefix_nil|].
  destruct s as [|b s]; [discriminate|].
  apply prefix_cons in Hp as [<- Hp].
  simpl in Hc. apply orb_false_iff in Hc as [Hac Hc].
  cbn [replace]. rewrite Hac. apply prefix_cons. auto.
Qed.

Lemma contains_replace c new pat s :
  has_byte c pat = false -> contains pat s = true ->
  contains pat (replace c new s) = true.
Proof.
  intros Hc. induction s as [|a s IH]; cbn [contains]; intros H.
  - destruct pat; [reflexivity|discriminate].
  - apply orb_true_iff in H as [H|H].
    + apply contains_of_prefix. now apply prefix_replace.
    + cbn [replace]. destruct (Ascii.eqb a c).
      * apply contains_app_r; auto.
      * apply contains_cons; auto.
Qed.

(** *** Stripping on the left *)

Lemma ws_prefix_some s w :
  ws_prefix s = Some w ->
  In w whitespace /\ prefix w s = true.
Proof. intros H. apply find_some in H. exact H. Qed.

Lemma ws_bytes w b :
  In w whitespace -> has_byte b w = true -> is_ws_byte b = true.
Proof. intros Hin Hb. apply existsb_exists. eauto. Qed.

Lemma drop_prefix_contains w : forall s pat a,
  first_byte pat = Some a ->
  (forall b, has_byte b w = true -> is_ws_byte b = true) ->
  is_ws_byte a = false ->
  prefix w s = true -> contains pat s = true ->
  contains pat (drop (String.length w) s) = true.
Proof.
  induction w as [|b w IH]; intros s pat a Hf Hw Ha Hp Hc; [exact Hc|].
  destruct s as [|c s]; [discriminate|].
  apply prefix_cons in Hp as [<- Hp].
  cbn [String.length drop]. apply (IH s pat a); auto.
  - intros b' Hb'. apply Hw. simpl. rewrite Hb'. apply orb_true_r.
  - cbn [contains] in Hc. apply orb_true_iff in Hc as [Hc|Hc]; [|exact Hc].
    destruct pat as [|a' p]; [discriminate|]. injection Hf as ->.
    apply prefix_cons in Hc as [-> _].
    rewrite Hw in Ha; [discriminate|]. simpl. now rewrite Ascii.eqb_refl.
Qed.

Lemma contains_lstrip_fuel pat a : forall fuel s,
  first_byte pat = Some a -> is_ws_byte a = false ->
  contains pat s = true -> contains pat (lstrip_fuel fuel s) = true.
Proof.
  induction fuel as [|k IH]; intros s Hf Ha Hc; [exact Hc|].
  cbn [lstrip_fuel]. destruct (ws_prefix s) as [w|] eqn:E; [|exact Hc].
  apply ws_prefix_some in E as [Hin Hp].
  apply IH; auto. apply (drop_prefix_contains w s pat a); auto.
  intros b. now apply ws_bytes.
Qed.

(** *** Stripping on the right *)

Lemma prefix_split w : forall s,
  prefix w s = true -> s = (w ++ drop (String.length w) s)%string.
Proof.
  induction w as [|b w IH]; intros s Hp; [reflexivity|].
  destruct s as [|c s]; [discriminate|].
  apply prefix_cons in Hp as [<- Hp]. simpl. f_equal. now apply IH.
Qed.

Lemma has_byte_app b l r :
  has_byte b (l ++ r)%string = has_byte b l || has_byte b r.
Proof. induction l; simpl; auto. rewrite IHl. now rewrite orb_assoc. Qed.

Lemma all_ws_fuel_bytes : forall fuel s b,
  all_ws_fuel fuel s = true -> has_byte b s = true -> is_ws_byte b = true.
Proof.
  induction fuel as [|k IH]; intros s b H Hb.
  - destruct s; simpl in *; discriminate.
  - destruct s as [|c s]; [discriminate|].
    cbn [all_ws_fuel] in H.
    destruct (ws_prefix (String c s)) as [w|] eqn:E; [|discriminate].
    apply ws_prefix_some in E as [Hin Hp].
    rewrite (prefix_split _ _ Hp), has_byte_app in Hb.
    apply orb_true_iff in Hb as [Hb|Hb].
    + now apply (ws_bytes w).
    + now apply (IH _ _ H).
Qed.

Lemma prefix_rstrip : forall s p z,
  last_byte p = Some z -> is_ws_byte z = false ->
  prefix p s = true -> prefix p (rstrip s) = true.
Proof.
  induction s as [|c s IH]; intros p z Hl Hz Hp.
  - destruct p; [discriminate Hl|discriminate Hp].
  - cbn [rstrip]. destruct (all_ws (String c s)) eqn:E.
    + exfalso. unfold all_ws in E.
      pose proof (all_ws_fuel_bytes _ _ z E) as W.
      rewrite W in Hz; [discriminate|].
      apply (prefix_has_byte z p); auto. now apply last_byte_has.
    + destruct p as [|a p]; [discriminate Hl|].
      apply prefix_cons in Hp as [-> Hp]. apply prefix_cons. split; auto.
      destruct p as [|a' p]; [apply prefix_nil|].
      apply (IH _ z); auto.
Qed.

Lemma contains_rstrip pat a z : forall s,
  first_byte pat = Some a -> is_ws_byte a = false ->
  last_byte pat = Some z -> is_ws_byte z = false ->
  contains pat s = true -> contains pat (rstrip s) = true.
Proof.
  intros s Hf Ha Hl Hz. induction s as [|c s IH]; intros Hc.
  - destruct pat; [discriminate Hf|discriminate Hc].
  - cbn [rstrip]. destruct (all_ws (String c s)) eqn:E.
    + exfalso. unfold all_ws in E.
      pose proof (all_ws_fuel_bytes _ _ a E (contains_has_first _ _ _ Hf Hc)) as W.
      congruence.
    + cbn [contains] in Hc. apply orb_true_iff in Hc as [Hc|Hc].
      * apply contains_of_prefix.
        destruct pat as [|a' p]; [discriminate Hf|].
        apply prefix_cons in Hc as [-> Hc]. apply prefix_cons. split; auto.
        destruct p as [|a'' p]; [apply prefix_nil|].
        apply (prefix_rstrip _ _ z); auto.
      * apply contains_cons; auto.
Qed.

Lemma contains_strip pat s :
  strip_safe pat = true ->
  contains pat s = true -> contains pat (strip s) = true.
Proof.
  unfold strip_safe, strip, lstrip. intros Hs Hc.
  destruct (first_byte pat) as [a|] eqn:Hf; [|discriminate].
  destruct (last_byte pat) as [z|] eqn:Hl; [|discriminate].
  apply andb_true_iff in Hs as [Ha Hz].
  apply negb_true_iff in Ha, Hz.
  apply (contains_rstrip pat a z); auto.
  apply (contains_lstrip_fuel pat a); auto.
Qed.

End PyStrFacts.

(** ** The classifier *)

Module ClassifyFacts.
Import PyStr StrAux PyStrFacts DISEASE_CLASS.

Lemma mem_In s l : mem s l = true <-> In s l.
Proof.
  unfold mem. rewrite existsb_exists. split.
  - intros [x [Hin He]]. apply String.eqb_eq in He. now subst.
  - intros Hin. exists s. split; auto. apply String.eqb_refl.
Qed.

(** A keyword found in the raw name is found in the normalised name. *)
Lemma keyword_survives k name :
  In k (keywordsB ++ keywordsC) ->
  contains k name = true -> contains k (normalize name) = true.
Proof.
  intros Hin Hc. unfold normalize.
  assert (has_byte " "%char k = false /\ strip_safe k = true) as [Hs Hk].
  { simpl in Hin.
    repeat (destruct Hin as [<- | Hin]; [split; vm_compute; reflexivity|]).
    contradiction. }
  apply contains_strip; auto. apply contains_replace; auto.
Qed.

Lemma rule_of_keyword k name (kws : list string) :
  In k kws -> contains k (normalize name) = true ->
  existsb (fun x => contains x (normalize name)) kws = true.
Proof. intros Hin Hc. apply existsb_exists. eauto. Qed.

(** The names of the three lists are already in normal form. *)
Lemma listed_normal n :
  In n (tierA ++ tierB ++ tierC) -> normalize n = n.
Proof.
  intros Hin. simpl in Hin.
  repeat (destruct Hin as [<- | Hin]; [vm_compute; reflexivity|]).
  contradiction.
Qed.

End ClassifyFacts.

(** C5.  The classifier is a total function of the name, and it tests the
    normalised name in a fixed order: membership in the first list; then
    membership in the second list or one of its keywords; then membership in
    the third list or one of its keywords; otherwise the name is
    unclassified.  Hence every name of the first list is in the first tier,
    every name of the second list and every name holding one of its keywords
    (and not in the first list) is in the second tier, and likewise for the
    third tier. *)
Theorem get_disease_class_order :
  (forall name,
     let n := normalize name in
     let ruleB :=
       PyStr.mem n DISEASE_CLASS.tierB
       || existsb (fun x => PyStr.contains x n) DISEASE_CLASS.keywordsB in
     let ruleC :=
       PyStr.mem n DISEASE_CLASS.tierC
       || existsb (fun x => PyStr.contains x n) DISEASE_CLASS.keywordsC in
     (PyStr.mem n DISEASE_CLASS.tierA = true ->
      get_disease_class name = TierA) /\
     (PyStr.mem n DISEASE_CLASS.tierA = false -> ruleB = true ->
      get_disease_class name = TierB) /\
     (PyStr.mem n DISEASE_CLASS.tierA = false -> ruleB = false ->
      ruleC = true -> get_disease_class name = TierC) /\
     (PyStr.mem n DISEASE_CLASS.tierA = false -> ruleB = false ->
      ruleC = false -> get_disease_class name = Unclassified)) /\
  (forall name, In name DISEASE_CLASS.tierA -> get_disease_class name = TierA) /\
  (forall name, In name DISEASE_CLASS.tierB -> get_disease_class name = TierB) /\
  (forall name, In name DISEASE_CLASS.tierC -> get_disease_class name = TierC) /\
  (forall name k,
     In k DISEASE_CLASS.keywordsB -> PyStr.contains k name = true ->
     ~ In (normalize name) DISEASE_CLASS.tierA ->
     get_disease_class name = TierB) /\
  (forall name k,
     In k DISEASE_CLASS.keywordsC -> PyStr.contains k name = true ->
     ~ In (normalize name) DISEASE_CLASS.tierA ->
     ~ In (normalize name) DISEASE_CLASS.tierB ->
     (forall b, In b DISEASE_CLASS.keywordsB ->
                PyStr.contains b (normalize name) = false) ->
     get_disease_class name = TierC).
Proof.
  split; [|repeat split].
  - intros name n ruleB ruleC. unfold get_disease_class. fold n.
    fold ruleB. fold ruleC.
    repeat split; intros HA; rewrite HA; try reflexivity;
      intros HB; rewrite HB; try reflexivity;
      intros HC; rewrite HC; reflexivity.
  - intros name Hin. simpl in Hin.
    repeat (destruct Hin as [<- | Hin]; [vm_compute; reflexivity|]).
    contradiction.
  - intros name Hin. simpl in Hin.
    repeat (destruct Hin as [<- | Hin]; [vm_compute; reflexivity|]).
    contradiction.
  - intros name Hin. simpl in Hin.
    repeat (destruct Hin as [<- | Hin]; [vm_compute; reflexivity|]).
    contradiction.
  - intros name k Hk Hc HA. unfold get_disease_class.
    destruct (PyStr.mem (normalize name) DISEASE_CLASS.tierA) eqn:E.
    + apply ClassifyFacts.mem_In in E. contradiction.
    + rewrite (ClassifyFacts.rule_of_keyword k name DISEASE_CLASS.keywordsB Hk).
      * now rewrite orb_true_r.
      * apply ClassifyFacts.keyword_survives; auto. apply in_or_app. auto.
  - intros name k Hk Hc HA HB HkB. unfold get_disease_class.
    destruct (PyStr.mem (normalize name) DISEASE_CLASS.tierA) eqn:EA.
    { apply ClassifyFacts.mem_In in EA. contradiction. }
    destruct (PyStr.mem (normalize name) DISEASE_CLASS.tierB) eqn:EB.
    { apply ClassifyFacts.mem_In in EB. contradiction. }
    destruct (existsb (fun x => PyStr.contains x (normalize name))
                      DISEASE_CLASS.keywordsB) eqn:EK.
    { apply existsb_exists in EK as [b [Hb Hcb]].
      rewrite (HkB b Hb) in Hcb. discriminate. }
    cbn [orb].
    rewrite (ClassifyFacts.rule_of_keyword k name DISEASE_CLASS.keywordsC Hk).
    + now rewrite orb_true_r.
    + apply ClassifyFacts.keyword_survives; auto. apply in_or_app. auto.
Qed.

(** The rule for a keyword of the second tier applies to a name written
    with blanks around and inside it. *)
Lemma get_disease_class_order_witness :
  get_disease_class " 乙型 肝炎 " = TierB.
Proof.
  apply (proj1 (proj2 (proj2 (proj2 (proj2 get_disease_class_order))))
           " 乙型 肝炎 " "肝炎").
  - simpl. auto.
  - vm_compute. reflexivity.
  - vm_compute. intros H. repeat (destruct H as [H | H]; [discriminate H|]).
    exact H.
Defined.

(** ** The numeric normaliser *)

Module NumberFacts.
Import PyStr StrAux PyStrFacts Parse.

Lemma has_byte_replace c new s :
  has_byte c new = false -> has_byte c (replace c new s) = false.
Proof.
  intros Hn. induction s as [|a s IH]; [reflexivity|].
  cbn [replace]. destruct (Ascii.eqb a c) eqn:E.
  - rewrite has_byte_app, Hn, IH. reflexivity.
  - cbn [has_byte]. rewrite E, IH. reflexivity.
Qed.

Lemma clean_text_no_dash s : has_byte "-"%char (clean_text s) = false.
Proof. unfold clean_text. now apply has_byte_replace. Qed.

Lemma has_byte_replace_other c d new s :
  has_byte c new = false -> has_byte c s = false ->
  has_byte c (replace d new s) = false.
Proof.
  intros Hn. induction s as [|a s IH]; [reflexivity|].
  cbn [replace has_byte]. intros H. apply orb_false_iff in H as [Ha Hs].
  destruct (Ascii.eqb a d).
  - rewrite has_byte_app, Hn, IH; auto.
  - cbn [has_byte]. rewrite Ha, IH; auto.
Qed.

Lemma clean_text_no_comma s : has_byte ","%char (clean_text s) = false.
Proof.
  unfold clean_text. apply has_byte_replace_other; [reflexivity|].
  now apply has_byte_replace.
Qed.

Lemma skip_spaces_has_byte c s :
  has_byte c (skip_spaces s) = true -> has_byte c s = true.
Proof.
  induction s as [|a s IH]; [auto|].
  cbn [skip_spaces]. destruct (is_space a); auto.
  intros H. cbn [has_byte]. rewrite (IH H). apply orb_true_r.
Qed.

Lemma sign_no_dash s :
  has_byte "-"%char s = false -> fst (sign s) = false.
Proof.
  destruct s as [|a s]; [reflexivity|].
  cbn [has_byte]. intros H. apply orb_false_iff in H as [Ha _].
  unfold sign.
  destruct a as [[] [] [] [] [] [] [] []]; try reflexivity; discriminate Ha.
Qed.

Lemma digits_nonneg : forall s acc n,
  (0 <= acc)%Z -> (0 <= fst (fst (digits s acc n)))%Z.
Proof.
  induction s as [|a s IH]; intros acc n Hacc; [exact Hacc|].
  cbn [digits]. destruct (is_digit a); [|exact Hacc].
  apply IH. unfold digit. lia.
Qed.

Lemma pow10_pos e : 0 < pow10 e.
Proof.
  unfold pow10. destruct (0 <=? e)%Z eqn:E.
  - apply Z.leb_le in E.
    unfold Qlt. simpl. rewrite Z.mul_1_r.
    apply Z.pow_pos_nonneg; lia.
  - apply Z.leb_gt in E.
    assert (0 < inject_Z (10 ^ (- e))) as Hp.
    { unfold Qlt. simpl. rewrite Z.mul_1_r. apply Z.pow_pos_nonneg; lia. }
    unfold Qdiv. rewrite Qmult_1_l. now apply Qinv_lt_0_compat.
Qed.

Lemma Some_inj {A} (x y : A) : Some x = Some y -> x = y.
Proof. congruence. Qed.

Lemma Qred_nonneg q : 0 <= q -> 0 <= Qred q.
Proof.
  intros H. apply (Qle_trans _ q); [exact H|].
  apply Qle_lteq. right. symmetry. apply Qred_correct.
Qed.

(** A numeral without a minus sign reads as a number that is not negative. *)
Lemma xstrtod_nonneg s q :
  has_byte "-"%char s = false -> xstrtod s = Some q -> 0 <= q.
Proof.
  intros Hd. unfold xstrtod.
  assert (fst (sign (skip_spaces s)) = false) as Hneg.
  { apply sign_no_dash.
    destruct (has_byte "-"%char (skip_spaces s)) eqn:E; [|reflexivity].
    apply skip_spaces_has_byte in E. congruence. }
  destruct (sign (skip_spaces s)) as [neg p]. simpl in Hneg. subst neg.
  pose proof (digits_nonneg p 0%Z 0%nat (Z.le_refl 0)) as H1.
  destruct (digits p 0%Z 0%nat) as [[n1 k1] p1]. simpl in H1.
  assert (forall n2 k2 p2,
            (0 <= n2)%Z ->
            (if (k1 + k2 =? 0)%nat then None
             else let '(e, p) := exponent p2 in
                  match skip_spaces p with
                  | EmptyString =>
                      Some (Qred (inject_Z n2 * pow10 (e - Z.of_nat k2)))
                  | _ => None
                  end) = Some q -> 0 <= q) as K.
  { intros n2 k2 p2 Hn2. destruct (k1 + k2 =? 0)%nat; [discriminate|].
    destruct (exponent p2) as [e p3].
    destruct (skip_spaces p3); [|discriminate].
    intros H. apply Some_inj in H. rewrite <- H. apply Qred_nonneg.
    apply Qmult_le_0_compat.
    - unfold Qle. simpl. lia.
    - apply Qlt_le_weak, pow10_pos. }
  destruct p1 as [|c p1]; [apply K; exact H1|].
  destruct (Ascii.eqb c "."%char) eqn:Ec.
  - apply Ascii.eqb_eq in Ec. subst c.
    pose proof (digits_nonneg p1 n1 0%nat H1) as H2.
    destruct (digits p1 n1 0%nat) as [[n2 k2] p2]. simpl in H2.
    apply K; exact H2.
  - assert (match c with
            | "."%char => digits p1 n1 0%nat
            | _ => (n1, 0%nat, String c p1)
            end = (n1, 0%nat, String c p1)) as ->.
    { destruct c as [[] [] [] [] [] [] [] []]; try reflexivity; discriminate Ec. }
    apply K; exact H1.
Qed.

Lemma lower_dash a : Ascii.eqb (lower a) "-"%char = Ascii.eqb a "-"%char.
Proof. destruct a as [[] [] [] [] [] [] [] []]; reflexivity. Qed.

Lemma lowercase_has_dash s :
  has_byte "-"%char (lowercase s) = has_byte "-"%char s.
Proof.
  induction s as [|a s IH]; [reflexivity|].
  cbn [lowercase has_byte]. now rewrite lower_dash, IH.
Qed.

Lemma special_no_dash s :
  has_byte "-"%char s = false -> special s <> Some NInf.
Proof.
  intros Hd. unfold special.
  destruct (String.eqb (lowercase s) "nan"); [discriminate|].
  destruct (mem (lowercase s) ["inf"; "+inf"; "infinity"; "+infinity"]);
    [discriminate|].
  destruct (mem (lowercase s) ["-inf"; "-infinity"]) eqn:E; [|discriminate].
  exfalso. rewrite <- lowercase_has_dash in Hd.
  unfold mem in E. simpl in E.
  repeat (apply orb_true_iff in E as [E|E];
          [apply String.eqb_eq in E; rewrite E in Hd; discriminate Hd|]).
  discriminate.
Qed.

Lemma special_values s f :
  special s = Some f ->
  f = NaN \/
  (f = PInf /\
   mem (lowercase s) ["inf"; "+inf"; "infinity"; "+infinity"] = true) \/
  f = NInf.
Proof.
  unfold special.
  destruct (String.eqb (lowercase s) "nan"); [intros [= <-]; auto|].
  destruct (mem (lowercase s) ["inf"; "+inf"; "infinity"; "+infinity"]);
    [intros [= <-]; auto|].
  destruct (mem (lowercase s) ["-inf"; "-infinity"]); [intros [= <-]; auto|].
  discriminate.
Qed.

Lemma Qltb_nonneg q : 0 <= q -> Float.Qltb q 0 = false.
Proof.
  intros H. unfold Float.Qltb. apply negb_false_iff.
  now apply Qle_bool_iff.
Qed.

(** The normaliser never returns a negative number. *)
Lemma to_number_text_nonneg s :
  Float.ltb (to_number_text s) Float.zero = false.
Proof.
  unfold to_number_text, to_numeric, float_of_string.
  pose proof (clean_text_no_dash s) as Hd.
  destruct (xstrtod (clean_text s)) as [q|] eqn:E.
  - apply xstrtod_nonneg in E; auto. unfold fillna0. simpl.
    now apply Qltb_nonneg.
  - destruct (special (clean_text s)) as [f|] eqn:Es; [|reflexivity].
    pose proof (special_no_dash _ Hd) as Hn.
    destruct (special_values _ _ Es) as [-> | [[-> _] | ->]];
      try reflexivity; congruence.
Qed.

Lemma to_number_text_finite_or_inf s :
  Float.is_finite (to_number_text s) = true \/
  (to_number_text s = PInf /\
   mem (lowercase (clean_text s)) ["inf"; "+inf"; "infinity"; "+infinity"]
   = true).
Proof.
  unfold to_number_text, to_numeric, float_of_string.
  destruct (xstrtod (clean_text s)) as [q|]; [left; reflexivity|].
  destruct (special (clean_text s)) as [f|] eqn:Es; [|left; reflexivity].
  pose proof (special_no_dash _ (clean_text_no_dash s)) as Hn.
  destruct (special_values _ _ Es) as [-> | [[-> Hm] | ->]].
  - left; reflexivity.
  - right. split; [reflexivity|exact Hm].
  - congruence.
Qed.

Lemma lower_i a : lower a = "i"%char -> a = "i"%char \/ a = "I"%char.
Proof.
  destruct a as [[] [] [] [] [] [] [] []]; vm_compute; intros H;
    try discriminate H; auto.
Qed.

Lemma lower_plus a : lower a = "+"%char -> a = "+"%char.
Proof.
  destruct a as [[] [] [] [] [] [] [] []]; vm_compute; intros H;
    try discriminate H; auto.
Qed.

Lemma xstrtod_letter_i a t :
  lower a = "i"%char ->
  xstrtod (String a t) = None /\ xstrtod (String "+"%char (String a t)) = None.
Proof.
  intros H. destruct (lower_i a H) as [-> | ->]; split; reflexivity.
Qed.

(** A text that spells infinity is read as positive infinity. *)
Lemma spells_infinity t :
  mem (lowercase t) ["inf"; "+inf"; "infinity"; "+infinity"] = true ->
  float_of_string t = Some PInf.
Proof.
  intros H. unfold float_of_string.
  assert (special t = Some PInf) as Hs.
  { unfold special. rewrite H.
    destruct (String.eqb (lowercase t) "nan") eqn:E; [|reflexivity].
    apply String.eqb_eq in E. rewrite E in H. discriminate H. }
  assert (xstrtod t = None) as ->; [|exact Hs].
  apply ClassifyFacts.mem_In in H. simpl in H.
  destruct t as [|a t]; [intuition discriminate|].
  destruct H as [H | [H | [H | [H | []]]]]; cbn [lowercase] in H.
  - injection H as Ha _. apply (xstrtod_letter_i a t (eq_sym Ha)).
  - destruct t as [|b t]; [discriminate H|]. cbn [lowercase] in H.
    injection H as Ha Hb _. symmetry in Ha. apply lower_plus in Ha. subst a.
    apply (xstrtod_letter_i b t (eq_sym Hb)).
  - injection H as Ha _. apply (xstrtod_letter_i a t (eq_sym Ha)).
  - destruct t as [|b t]; [discriminate H|]. cbn [lowercase] in H.
    injection H as Ha Hb _. symmetry in Ha. apply lower_plus in Ha. subst a.
    apply (xstrtod_letter_i b t (eq_sym Hb)).
Qed.

End NumberFacts.

(** C6 as the specification words it fails on the text [inf]: the
    normaliser returns positive infinity for it. *)
Lemma to_number_text_inf_not_finite :
  to_number_text "inf" = PInf /\
  Float.is_finite (to_number_text "inf") = false.
Proof. split; vm_compute; reflexivity. Qed.

(** C6, amended.  The numeric normaliser of the router is a total function
    of the text of a cell: it removes every thousands separator (and takes
    every dash for a zero digit) before it reads the number, it maps a bare
    dash to zero, and it returns a float that is never NaN and never
    negative: a finite number or positive infinity.  It is not always
    finite: for every text that spells infinity it returns positive
    infinity.  It returns 0.0 when the text cannot be read as a number.  The
    coercion inside the statistics engine is total and never returns NaN
    either, but it removes no separator: a numeral with separators counts as
    unreadable and becomes 0.0, as does a bare dash. *)
Theorem to_number_text_total (s : string) :
  StrAux.has_byte ","%char (clean_text s) = false /\
  to_number_text s <> NaN /\
  (Float.is_finite (to_number_text s) = true \/ to_number_text s = PInf) /\
  Float.ltb (to_number_text s) Float.zero = false /\
  (PyStr.mem (Parse.lowercase (clean_text s))
             ["inf"; "+inf"; "infinity"; "+infinity"] = true ->
   to_number_text s = PInf) /\
  (Parse.float_of_string (clean_text s) = None ->
   to_number_text s = Fin 0) /\
  to_number_text "" = Fin 0 /\
  to_number_text "1,234" = Fin 1234 /\
  to_number_text "-" = Fin 0 /\
  to_number_text "abc" = Fin 0 /\
  (forall label v,
     coerce_row [label; v] = [label; VFloat (StatsAux.stats_number v)]) /\
  StatsAux.stats_number (VStr s) <> NaN /\
  (Parse.float_of_string s = None -> StatsAux.stats_number (VStr s) = Fin 0) /\
  StatsAux.stats_number (VStr "1,234") = Fin 0 /\
  StatsAux.stats_number (VStr "-") = Fin 0.
Proof.
  split; [apply NumberFacts.clean_text_no_comma|].
  split.
  { unfold to_number_text, fillna0.
    destruct (to_numeric (VStr (clean_text s))); simpl; discriminate. }
  split.
  { destruct (NumberFacts.to_number_text_finite_or_inf s) as [H | [H _]];
      [left|right]; exact H. }
  split; [apply NumberFacts.to_number_text_nonneg|].
  split.
  { intros H. unfold to_number_text, to_numeric.
    now rewrite (NumberFacts.spells_infinity _ H). }
  split.
  { intros H. unfold to_number_text, to_numeric. now rewrite H. }
  do 4 (split; [vm_compute; reflexivity|]).
  split; [reflexivity|].
  split.
  { unfold StatsAux.stats_number, fillna0.
    destruct (to_numeric (VStr s)); simpl; discriminate. }
  split.
  { intros H. unfold StatsAux.stats_number, to_numeric. now rewrite H. }
  split; vm_compute; reflexivity.
Qed.

Lemma to_number_text_total_witness :
  Parse.float_of_string (clean_text "n/a") = None /\
  to_number_text "n/a" = Fin 0.
Proof.
  split; [vm_compute; reflexivity|].
  apply (proj1 (proj2 (proj2 (proj2 (proj2 (proj2
           (to_number_text_total "n/a"))))))).
  vm_compute. reflexivity.
Defined.

(** ** The summary branch of the router *)

Module RouteFacts.

Lemma bind_ok {A B} (r : result A) (k : A -> result B) b :
  bind r k = Ok b -> exists a, r = Ok a /\ k a = Ok b.
Proof. destruct r; simpl; [eauto|discriminate]. Qed.

(** Only the first test of the router stores a table as the summary. *)
Lemma route_summary repr fname df t :
  route repr fname df = Ok (Some (Summary, t)) ->
  clean_summary repr df = Ok t.
Proof.
  unfold route.
  repeat match goal with
         | |- context [if ?b then _ else _] => destruct b
         end; intros H;
    try (apply bind_ok in H as [a [Ha Hb]]);
    try discriminate; try congruence.
Qed.

Lemma nth_error_combine {A B} (l : list A) (m : list B) i a b :
  nth_error l i = Some a -> nth_error m i = Some b ->
  nth_error (combine l m) i = Some (a, b).
Proof.
  revert m i; induction l as [|x l IH]; intros m i Ha Hb.
  - destruct i; discriminate.
  - destruct m as [|y m]; [destruct i; discriminate|].
    destruct i; simpl in *; [congruence|auto].
Qed.

Lemma nth_error_combine_inv {A B} (l : list A) (m : list B) i p :
  nth_error (combine l m) i = Some p ->
  nth_error l i = Some (fst p) /\ nth_error m i = Some (snd p).
Proof.
  revert m i; induction l as [|x l IH]; intros m i H.
  - destruct i; discriminate.
  - destruct m as [|y m]; [destruct i; discriminate|].
    destruct i; simpl in *; [injection H as <-; auto|auto].
Qed.

End RouteFacts.

(** C10.  When a table is stored as the summary, every cell under a header
    that holds the count or the ratio character is replaced by the number
    read from its text after every dash of the text has become the digit
    zero; the other cells are kept.  A numeral written with a minus sign
    therefore loses the sign (the text -3 is ingested as 3.0, the text -2 as
    2.0), and no cell of such a column, the two percentage columns among
    them, is negative after ingestion. *)
Theorem summary_columns_lose_sign (float_repr : Q -> string)
  (fname : string) (df t : DataFrame) :
  route float_repr fname df = Ok (Some (Summary, t)) ->
  columns t = columns df /\
  (forall j r', nth_error (rows t) j = Some r' ->
     exists r, nth_error (rows df) j = Some r /\
       forall i c y, nth_error (columns df) i = Some c ->
         nth_error r' i = Some y ->
         exists v, nth_error r i = Some v /\
           y = if is_numeric_header c
               then VFloat (to_number float_repr v) else v) /\
  (forall v,
     to_number float_repr v =
       fillna0 (to_numeric (VStr (PyStr.replace "-"%char "0"
                 (PyStr.replace ","%char "" (py_str float_repr v))))) /\
     StrAux.has_byte "-"%char
       (PyStr.replace "-"%char "0"
          (PyStr.replace ","%char "" (py_str float_repr v))) = false /\
     Float.ltb (to_number float_repr v) Float.zero = false) /\
  to_number float_repr (VStr "-3") = Fin 3 /\
  to_number float_repr (VStr "-2") = Fin 2 /\
  to_number float_repr (VInt (-2)) = Fin 2 /\
  is_numeric_header CASES = true /\
  is_numeric_header MOM = true /\
  is_numeric_header YOY = true.
Proof.
  intros H. apply RouteFacts.route_summary in H.
  unfold clean_summary in H.
  destruct (existsb _ (columns df)); [discriminate|].
  injection H as <-. cbn [columns rows].
  split; [reflexivity|]. split.
  { intros j r' Hr'. rewrite nth_error_map in Hr'.
    destruct (nth_error (rows df) j) as [r|]; [|discriminate].
    cbn in Hr'. injection Hr' as <-.
    exists r. split; [reflexivity|].
    intros i c y Hc Hy. rewrite nth_error_map in Hy.
    destruct (nth_error (combine (columns df) r) i) as [p|] eqn:E;
      [|discriminate].
    cbn in Hy. injection Hy as <-.
    apply RouteFacts.nth_error_combine_inv in E as [E1 E2].
    exists (snd p). split; [exact E2|].
    rewrite Hc in E1. injection E1 as ->. reflexivity. }
  split.
  { intros v. split; [reflexivity|]. split.
    - apply (NumberFacts.clean_text_no_dash (py_str float_repr v)).
    - apply NumberFacts.to_number_text_nonneg. }
  repeat split; vm_compute; reflexivity.
Qed.

Lemma summary_columns_lose_sign_witness :
  exists t,
    route repr_fixed "疫情分析报表.xlsx" Examples.signed_summary = Ok (Some (Summary, t)) /\
    nth_error (rows t) 1 =
      Some [VStr "病毒性肝炎"; VFloat (Fin 60); VFloat (Fin 0); VFloat (Fin 3)] /\
    columns t = columns Examples.signed_summary.
Proof.
  eexists. split; [vm_compute; reflexivity|].
  split; [reflexivity|].
  refine (proj1 (summary_columns_lose_sign repr_fixed "疫情分析报表.xlsx"
                   Examples.signed_summary _ _)).
  vm_compute. reflexivity.
Defined.

(** ** The end-to-end scenario *)

(** C1.  The report for the end-to-end table, ingested through the router:
    the first paragraph holds the total 100 and the rise of 5.00%, but the
    year-over-year figure of -2 is reported as a rise of 2.00% and the
    phrase for a fall of 2.00% is absent, because ingestion has turned the
    minus sign into a zero digit.  The second paragraph lists the two
    diseases of the second tier by falling case count. *)
Theorem e2e_report_loses_decrease (float_repr : Q -> string) :
  let p := fst (parse_files float_repr new_parser [Examples.e2e_file]) in
  exists s1 s2 s3,
    report_sections float_repr (data p) = Ok (inr (s1, s2, s3)) /\
    PyStr.contains "**100** 例" s1 = true /\
    PyStr.contains "与上月相比上升5.00%" s1 = true /\
    PyStr.contains "下降2.00%" s1 = false /\
    PyStr.contains "与去年同期相比上升2.00%" s1 = true /\
    PyStr.contains
      "病毒性肝炎（60例，占比60.00%，较上月上升10.00%，较去年同期上升5.00%）、肺结核（40例，占比40.00%，较上月持平，较去年同期上升3.00%）"
      s2 = true.
Proof.
  cbv zeta. do 3 eexists.
  split; [vm_compute; reflexivity|].
  repeat split; vm_compute; reflexivity.
Qed.

(** ** Age binning *)

Module BinFacts.

Lemma cut_none edges q :
  Forall (fun e => inject_Z e <= q) edges -> cut edges (Fin q) = None.
Proof.
  induction edges as [|lo rest IH]; intros H; [reflexivity|].
  destruct rest as [|hi rest']; [reflexivity|].
  inversion H as [|? ? Hlo Hrest]; subst.
  change (cut (lo :: hi :: rest') (Fin q))
    with (if Float.leb (Float.of_Z lo) (Fin q)
             && Float.ltb (Fin q) (Float.of_Z hi)
          then Some O else option_map S (cut (hi :: rest') (Fin q))).
  assert (Float.ltb (Fin q) (Float.of_Z hi) = false) as ->.
  { inversion Hrest; subst. unfold Float.ltb, Float.of_Z, Float.Qltb.
    apply negb_false_iff. now apply Qle_bool_iff. }
  rewrite andb_false_r, IH; auto.
Qed.

End BinFacts.

(** C2.  The list of labels ends at 95-99: the label of the overflow bin is
    cut off, and an age of 100 or more falls in no bin.  On the ages 3, 7, 22
    and 101 the result has the twenty bins from 0-4 to 95-99, with one case
    each in 0-4, 5-9 and 20-24; the age 101 is counted nowhere. *)
Theorem bin_ages_drops_overflow (float_repr : Q -> string) :
  ~ In "100+" labels /\
  (forall q, 100 <= q -> cut bins (Fin q) = None) /\
  columns (bin_ages float_repr Examples.ages) = ["年龄组"; "发病数"] /\
  Frame.iloc_col 0 (bin_ages float_repr Examples.ages) = map VStr labels /\
  Frame.iloc_col 1 (bin_ages float_repr Examples.ages) =
    map VInt [1; 1; 0; 0; 1; 0; 0; 0; 0; 0; 0; 0; 0; 0; 0; 0; 0; 0; 0; 0]%Z /\
  labels =
    ["0-4"; "5-9"; "10-14"; "15-19"; "20-24"; "25-29"; "30-34"; "35-39";
     "40-44"; "45-49"; "50-54"; "55-59"; "60-64"; "65-69"; "70-74"; "75-79";
     "80-84"; "85-89"; "90-94"; "95-99"].
Proof.
  split.
  { vm_compute. intros H.
    repeat (destruct H as [H | H]; [discriminate H|]). exact H. }
  split.
  { intros q Hq. apply BinFacts.cut_none.
    assert (forall e, (e <= 100)%Z -> inject_Z e <= q) as K.
    { intros e He. apply (Qle_trans _ 100); [|exact Hq].
      unfold Qle. simpl. lia. }
    unfold bins. vm_compute py_range.
    repeat constructor; apply K; lia. }
  repeat split; vm_compute; reflexivity.
Qed.

Lemma bin_ages_drops_overflow_witness :
  100 <= 101 /\ cut bins (Fin 101) = None.
Proof.
  split; [unfold Qle; simpl; lia|].
  apply (proj1 (proj2 (bin_ages_drops_overflow repr_fixed)) 101).
  unfold Qle; simpl; lia.
Defined.

(** ** The statistics engine: the failure policy *)

(** C8.  Whenever the body of the statistics computation raises, whatever
    the exception, the function returns the table it was given, without any
    derived column; no exception leaves it. *)
Theorem process_stats_table_degrades (chi2_sf : float -> Z -> float)
  (df : DataFrame) (row_name_col : string) (e : exn) :
  stats_body chi2_sf df = Raise e ->
  process_stats_table chi2_sf df row_name_col = df.
Proof. intros H. unfold process_stats_table. now rewrite H. Qed.

(** The chi-square test raises on a table with an empty value column, and
    the table comes back as it was. *)
Lemma process_stats_table_degrades_witness :
  stats_body sf_example Examples.empty_column = Raise ValueError /\
  process_stats_table sf_example Examples.empty_column "年龄"
  = Examples.empty_column.
Proof.
  split; [vm_compute; reflexivity|].
  apply (process_stats_table_degrades sf_example Examples.empty_column
           "年龄" ValueError).
  vm_compute. reflexivity.
Defined.

(** ** The data map *)

Module DataFacts.

Lemma lookup_store_same r t d : lookup r (store r t d) = Some t.
Proof. destruct r; reflexivity. Qed.

Lemma lookup_store_other r r' t d :
  r <> r' -> lookup r (store r' t d) = lookup r d.
Proof. destruct r, r'; intros H; try reflexivity; congruence. Qed.

Section Batch.

Variable float_repr : Q -> string.

Lemma parse_file_data p f :
  data (fst (parse_file float_repr p f)) =
  match stored float_repr f with
  | Some (r, t) => store r t (data p)
  | None => data p
  end.
Proof.
  unfold parse_file, stored.
  destruct (is_geo (name f)).
  - destruct (body f); reflexivity.
  - destruct (body f) as [df| |]; try reflexivity.
    destruct (route float_repr (name f) df) as [[[r t]|]|]; reflexivity.
Qed.

Lemma parse_files_cons p f l :
  fst (parse_files float_repr p (f :: l)) =
  fst (parse_files float_repr (fst (parse_file float_repr p f)) l).
Proof.
  cbn [parse_files]. destruct (parse_file float_repr p f) as [p1 l1].
  cbn [fst]. destruct (parse_files float_repr p1 l) as [p2 l2]. reflexivity.
Qed.

Lemma parse_files_app l1 : forall p l2,
  fst (parse_files float_repr p (l1 ++ l2)) =
  fst (parse_files float_repr (fst (parse_files float_repr p l1)) l2).
Proof.
  induction l1 as [|f l1 IH]; intros p l2; [reflexivity|].
  rewrite <- app_comm_cons, !parse_files_cons. apply IH.
Qed.

(** A batch without a file for the role [r] leaves the slot of [r] alone. *)
Lemma parse_files_untouched r l : forall p,
  (forall g, In g l -> forall t, stored float_repr g <> Some (r, t)) ->
  lookup r (data (fst (parse_files float_repr p l))) = lookup r (data p).
Proof.
  induction l as [|f l IH]; intros p H; [reflexivity|].
  rewrite parse_files_cons, IH.
  - rewrite parse_file_data.
    destruct (stored float_repr f) as [[r' t]|] eqn:E; [|reflexivity].
    apply lookup_store_other. intros ->.
    apply (H f (or_introl eq_refl) t). exact E.
  - intros g Hg. apply H. now right.
Qed.

(** The slot of a role holds the table of the last file stored under it. *)
Lemma parse_files_last r t f pre post p :
  stored float_repr f = Some (r, t) ->
  (forall g, In g post -> forall t', stored float_repr g <> Some (r, t')) ->
  lookup r (data (fst (parse_files float_repr p (pre ++ f :: post)))) = Some t.
Proof.
  intros Hf Hpost.
  rewrite parse_files_app, parse_files_cons, parse_files_untouched by exact Hpost.
  rewrite parse_file_data, Hf. apply lookup_store_same.
Qed.

End Batch.

End DataFacts.

(** C9.  The data map has one slot per role, and a slot holds at most one
    table.  When two files of a batch are stored under the same role, and no
    later file of the batch is, the slot of the role holds after the batch
    exactly the table the router made of the second file: the table of the
    first file is overwritten, not merged. *)
Theorem last_write_wins (float_repr : Q -> string) (p : Parser)
  (l0 l1 l2 : list File) (f1 f2 : File) (r : role) (t1 t2 : DataFrame) :
  stored float_repr f1 = Some (r, t1) ->
  stored float_repr f2 = Some (r, t2) ->
  (forall g, In g l2 -> forall t, stored float_repr g <> Some (r, t)) ->
  lookup r (data (fst (parse_files float_repr p
                         (l0 ++ f1 :: l1 ++ f2 :: l2)))) = Some t2.
Proof.
  intros _ H2 Hl2.
  change (l0 ++ f1 :: l1 ++ f2 :: l2) with (l0 ++ (f1 :: l1) ++ f2 :: l2).
  rewrite app_assoc. now apply DataFacts.parse_files_last.
Qed.

Lemma last_write_wins_witness :
  lookup Area
    (data (fst (parse_files repr_fixed new_parser
                  [Examples.area_1; Examples.area_2])))
  = Some (mkFrame ["Name"; "Cases"]
            [[VStr "乙镇"; VFloat (Fin 7)]; [VStr "丙镇"; VFloat (Fin 0)]]).
Proof.
  apply (last_write_wins repr_fixed new_parser [] [] [] Examples.area_1
           Examples.area_2 Area
           (mkFrame ["Name"; "Cases"] [[VStr "甲镇"; VFloat (Fin 1200)]])).
  - vm_compute. reflexivity.
  - vm_compute. reflexivity.
  - intros g [].
Defined.

(** ** The order of the floats *)

Module FloatFacts.
Import Float.

Lemma Qltb_lt a b : Qltb a b = true <-> a < b.
Proof.
  unfold Qltb. rewrite negb_true_iff. split.
  - intros H. apply Qnot_le_lt. intros Hle.
    apply Qle_bool_iff in Hle. congruence.
  - intros H. destruct (Qle_bool b a) eqn:E; [|reflexivity].
    apply Qle_bool_iff in E. exfalso. now apply (Qlt_not_le a b).
Qed.

Lemma Qltb_ge a b : Qltb a b = false <-> b <= a.
Proof.
  unfold Qltb. rewrite negb_false_iff. apply Qle_bool_iff.
Qed.

Lemma ltb_irrefl x : ltb x x = false.
Proof.
  destruct x; try reflexivity. simpl. apply Qltb_ge. apply Qle_refl.
Qed.

Lemma ltb_trans x y z : ltb x y = true -> ltb y z = true -> ltb x z = true.
Proof.
  destruct x, y, z; simpl; try discriminate; try reflexivity.
  rewrite !Qltb_lt. apply Qlt_trans.
Qed.

Lemma eqb_sym x y : eqb x y = eqb y x.
Proof.
  destruct x, y; try reflexivity. simpl.
  destruct (Qeq_bool q q0) eqn:E1, (Qeq_bool q0 q) eqn:E2; try reflexivity.
  - apply Qeq_bool_iff in E1. symmetry in E1. apply Qeq_bool_iff in E1. congruence.
  - apply Qeq_bool_iff in E2. symmetry in E2. apply Qeq_bool_iff in E2. congruence.
Qed.

(** Equal keys compare alike with any third key. *)
Lemma ltb_compat_l x z k y :
  eqb x k = true -> eqb z k = true -> ltb x y = ltb z y.
Proof.
  destruct x, z, k; simpl; try discriminate; try reflexivity.
  intros H1 H2. apply Qeq_bool_iff in H1, H2.
  destruct y; try reflexivity. simpl.
  assert (q == q0) as E by (rewrite H1, H2; reflexivity).
  destruct (Qltb q q2) eqn:A, (Qltb q0 q2) eqn:B; try reflexivity.
  - apply Qltb_lt in A. apply Qltb_ge in B. rewrite E in A.
    exfalso. now apply (Qlt_not_le q0 q2).
  - apply Qltb_ge in A. apply Qltb_lt in B. rewrite E in A.
    exfalso. now apply (Qlt_not_le q0 q2).
Qed.

Lemma eqb_not_nan x k : eqb x k = true -> is_nan x = false.
Proof. destruct x, k; simpl; try discriminate; reflexivity. Qed.

Lemma ltb_nan_r x y : is_nan y = true -> ltb x y = false.
Proof. destruct x, y; simpl; try discriminate; reflexivity. Qed.

Lemma ltb_nan_l x y : is_nan x = true -> ltb x y = false.
Proof. destruct x, y; simpl; try discriminate; reflexivity. Qed.

(** On finite numbers, [x <= 0] is the negation of [x > 0]. *)
Lemma leb_zero_fin q : leb (Fin q) zero = negb (gtb (Fin q) zero).
Proof.
  unfold leb, gtb, zero. simpl.
  destruct (Qltb 0 q) eqn:A.
  - apply Qltb_lt in A. simpl.
    assert (Qltb q 0 = false) as -> by (apply Qltb_ge; now apply Qlt_le_weak).
    destruct (Qeq_bool q 0) eqn:E; [|reflexivity].
    apply Qeq_bool_iff in E. rewrite E in A. exfalso. now apply (Qlt_irrefl 0).
  - apply Qltb_ge in A. simpl.
    destruct (Qltb q 0) eqn:B; [reflexivity|].
    apply Qltb_ge in B. simpl. apply Qeq_bool_iff. now apply Qle_antisym.
Qed.

Lemma add_fin a b : add (Fin a) (Fin b) = Fin (Qred (a + b)).
Proof. reflexivity. Qed.

End FloatFacts.

(** ** The sort of the ranking *)

Module SortFacts.
Import FloatFacts.

Section Sort.

Context {A : Type}.
Variable key : A -> float.


Lemma insert_asc_in x l y :
  In y (insert_asc key x l) -> y = x \/ In y l.
Proof.
  induction l as [|z l IH]; simpl.
  - intros [<- | []]. now left.
  - destruct (Float.ltb (key x) (key z)); simpl.
    + intros [<- | H]; auto.
    + intros [<- | H]; auto. destruct (IH H); auto.
Qed.

Lemma insert_asc_perm x l : Permutation (insert_asc key x l) (x :: l).
Proof.
  induction l as [|z l IH]; simpl; [reflexivity|].
  destruct (Float.ltb (key x) (key z)); [reflexivity|].
  rewrite IH. apply perm_swap.
Qed.

Lemma insert_asc_sorted x l :
  StronglySorted (asc key) l -> StronglySorted (asc key) (insert_asc key x l).
Proof.
  induction 1 as [|z l Hs IH Hz]; simpl.
  - constructor; constructor.
  - destruct (Float.ltb (key x) (key z)) eqn:E.
    + constructor; [constructor; assumption|].
      constructor.
      * unfold asc. destruct (Float.ltb (key z) (key x)) eqn:F; [|reflexivity].
        pose proof (ltb_trans _ _ _ E F) as T. now rewrite ltb_irrefl in T.
      * rewrite Forall_forall in *. intros w Hw. unfold asc.
        destruct (Float.ltb (key w) (key x)) eqn:F; [|reflexivity].
        pose proof (ltb_trans _ _ _ F E) as T.
        specialize (Hz w Hw). unfold asc in Hz. congruence.
    + constructor; [exact IH|].
      rewrite Forall_forall in *. intros w Hw.
      apply insert_asc_in in Hw as [-> | Hw]; [exact E|now apply Hz].
Qed.

(** Insertion puts the new element after the elements with the same key. *)
Lemma insert_asc_stable k x l :
  StronglySorted (asc key) l ->
  filter (fun r => Float.eqb (key r) k) (insert_asc key x l) =
  filter (fun r => Float.eqb (key r) k) l ++
  (if Float.eqb (key x) k then [x] else []).
Proof.
  induction 1 as [|z l Hs IH Hz]; [simpl; now destruct (Float.eqb (key x) k)|].
  cbn [insert_asc]. destruct (Float.ltb (key x) (key z)) eqn:E.
  - cbn [filter]. destruct (Float.eqb (key x) k) eqn:Ex;
      [|now rewrite app_nil_r].
    assert (forall w, In w (z :: l) -> Float.eqb (key w) k = false) as Hw.
    { intros w Hin. destruct (Float.eqb (key w) k) eqn:Ew; [|reflexivity].
      rewrite (ltb_compat_l _ _ _ (key z) Ex Ew) in E.
      destruct Hin as [<- | Hin].
      - now rewrite ltb_irrefl in E.
      - rewrite Forall_forall in Hz. specialize (Hz w Hin).
        unfold asc in Hz. congruence. }
    assert (filter (fun r => Float.eqb (key r) k) (z :: l) = []) as Hnil.
    { apply (proj2 (Forall_forall _ _)) in Hw.
      clear - Hw. induction Hw as [|w t Hw _ IHt]; [reflexivity|].
      cbn [filter]. now rewrite Hw. }
    cbn [filter] in Hnil. now rewrite Hnil.
  - cbn [filter]. rewrite IH.
    destruct (Float.eqb (key z) k); reflexivity.
Qed.

Lemma argsort_spec l : forall acc,
  StronglySorted (asc key) acc ->
  StronglySorted (asc key) (fold_left (fun a x => insert_asc key x a) l acc) /\
  Permutation (fold_left (fun a x => insert_asc key x a) l acc) (acc ++ l) /\
  forall k,
    filter (fun r => Float.eqb (key r) k)
           (fold_left (fun a x => insert_asc key x a) l acc) =
    filter (fun r => Float.eqb (key r) k) (acc ++ l).
Proof.
  induction l as [|x l IH]; intros acc Hacc.
  - simpl. rewrite app_nil_r. auto.
  - cbn [fold_left].
    destruct (IH (insert_asc key x acc) (insert_asc_sorted x acc Hacc))
      as [S [P F]].
    split; [exact S|]. split.
    + rewrite P, insert_asc_perm. apply Permutation_middle.
    + intros k. rewrite F, !filter_app, insert_asc_stable by exact Hacc.
      cbn [filter]. rewrite <- app_assoc.
      now destruct (Float.eqb (key x) k).
Qed.

Lemma StronglySorted_snoc (R : A -> A -> Prop) l x :
  StronglySorted R l -> Forall (fun y => R y x) l ->
  StronglySorted R (l ++ [x]).
Proof.
  induction 1 as [|z l Hs IH Hz]; intros Hx; simpl.
  - constructor; constructor.
  - inversion Hx; subst. constructor; [now apply IH|].
    apply Forall_app. split; [exact Hz|]. constructor; [assumption|constructor].
Qed.

Lemma StronglySorted_rev (R : A -> A -> Prop) l :
  StronglySorted R l -> StronglySorted (fun a b => R b a) (rev l).
Proof.
  induction 1 as [|z l Hs IH Hz]; simpl; [constructor|].
  apply StronglySorted_snoc; [exact IH|].
  apply Forall_rev. exact Hz.
Qed.

Lemma StronglySorted_app (R : A -> A -> Prop) l m :
  StronglySorted R l -> StronglySorted R m ->
  (forall a b, In a l -> In b m -> R a b) ->
  StronglySorted R (l ++ m).
Proof.
  induction 1 as [|z l Hs IH Hz]; intros Hm H; simpl; [exact Hm|].
  constructor.
  - apply IH; auto. intros a b Ha Hb. apply H; [now right|exact Hb].
  - apply Forall_app. split; [exact Hz|].
    apply Forall_forall. intros b Hb. apply H; [now left|exact Hb].
Qed.

Lemma filter_partition (f : A -> bool) l :
  Permutation (filter (fun x => negb (f x)) l ++ filter f l) l.
Proof.
  induction l as [|x l IH]; [reflexivity|].
  cbn [filter]. destruct (f x); cbn [negb].
  - rewrite <- Permutation_middle. now constructor.
  - simpl. now constructor.
Qed.

Lemma filter_filter_imp (f g : A -> bool) l :
  (forall x, f x = true -> g x = true) ->
  filter f (filter g l) = filter f l.
Proof.
  intros H. induction l as [|x l IH]; [reflexivity|].
  cbn [filter]. destruct (g x) eqn:G.
  - cbn [filter]. now rewrite IH.
  - destruct (f x) eqn:F; [|exact IH]. apply H in F. congruence.
Qed.

Lemma filter_none (f : A -> bool) l :
  (forall x, In x l -> f x = false) -> filter f l = [].
Proof.
  induction l as [|x l IH]; intros H; [reflexivity|].
  cbn [filter]. rewrite (H x (or_introl eq_refl)).
  apply IH. intros y Hy. apply H. now right.
Qed.

(** The descending sort returns a permutation of its argument, in
    descending order of the keys, which keeps the rows with equal keys in
    their input order. *)
Lemma nargsort_desc_spec l :
  Permutation (nargsort_desc key l) l /\
  StronglySorted (desc key) (nargsort_desc key l) /\
  forall k,
    filter (fun r => Float.eqb (key r) k) (nargsort_desc key l) =
    filter (fun r => Float.eqb (key r) k) l.
Proof.
  unfold nargsort_desc, argsort.
  set (nn := filter (fun x => negb (Float.is_nan (key x))) l).
  set (nans := filter (fun x => Float.is_nan (key x)) l).
  destruct (argsort_spec (rev nn) [] (SSorted_nil _)) as [S [P F]].
  cbn [app] in P, F.
  split; [|split].
  - rewrite <- Permutation_rev, P, <- Permutation_rev.
    apply filter_partition.
  - apply StronglySorted_app.
    + apply (StronglySorted_rev (asc key)). exact S.
    + assert (Forall (fun x => Float.is_nan (key x) = true) nans) as Hn.
      { apply Forall_forall. intros x Hx. now apply filter_In in Hx. }
      clear - Hn. induction Hn as [|x t Hx Ht IH]; constructor; [exact IH|].
      apply Forall_forall. intros b _. unfold desc. now apply ltb_nan_l.
    + intros a b _ Hb. apply filter_In in Hb as [_ Hb].
      unfold desc. now apply ltb_nan_r.
  - intros k. rewrite filter_app, filter_rev, F, filter_rev, rev_involutive.
    rewrite (filter_none _ nans), app_nil_r.
    + apply filter_filter_imp. intros x Hx.
      now rewrite (eqb_not_nan _ _ Hx).
    + intros x Hx. apply filter_In in Hx as [_ Hx].
      destruct (key x); simpl in *; try discriminate. reflexivity.
Qed.

End Sort.

End SortFacts.

(** ** The ranking of the diseases of a tier *)

Module RankFacts.

Lemma mapM_ok_map {A B} (f : A -> result B) (g : A -> B) l :
  (forall a, In a l -> f a = Ok (g a)) -> mapM f l = Ok (map g l).
Proof.
  induction l as [|a l IH]; intros H; [reflexivity|].
  cbn [mapM map]. rewrite (H a (or_introl eq_refl)). cbn [bind].
  rewrite IH; [reflexivity|]. intros b Hb. apply H. now right.
Qed.

Lemma somes_map_filter {A B} (skip : A -> bool) (h : A -> B) l :
  somes (map (fun r => if skip r then None else Some (h r)) l) =
  map h (filter (fun r => negb (skip r)) l).
Proof.
  induction l as [|a l IH]; [reflexivity|].
  cbn [map filter]. destruct (skip a); cbn [somes negb map]; now rewrite IH.
Qed.

Lemma firstn_incl {A} n (l : list A) x : In x (firstn n l) -> In x l.
Proof.
  revert l; induction n as [|n IH]; intros l H; [destruct H|].
  destruct l as [|a l]; [destruct H|].
  destruct H as [<- | H]; [now left|right; auto].
Qed.

Lemma finite_cell_number v :
  finite_cell v = true -> exists q, number v = Some (Fin q).
Proof.
  unfold finite_cell. destruct (number v) as [[q| | |]|]; try discriminate.
  eauto.
Qed.

Lemma finite_cell_to_numeric v q :
  number v = Some (Fin q) -> to_numeric v = Fin q.
Proof. destruct v; simpl; congruence. Qed.

Lemma finite_cell_py_int v :
  finite_cell v = true -> py_int v = Ok (int_of_cell v).
Proof.
  unfold finite_cell, int_of_cell.
  destruct v as [z|[q| | |]|s]; simpl; try discriminate; reflexivity.
Qed.



Section Rank.

Variable float_repr : Q -> string.
Variable cols : list string.
Variable i : nat.
Hypothesis Hi : Frame.index_of CASES cols = Some i.

(** One pass of the loop on a row with a finite count. *)
Lemma describe_finite total r :
  finite_cell (Frame.cell i r) = true ->
  describe float_repr cols total r =
  Ok (if negb (Float.gtb (cases_key i r) Float.zero) then None
      else Some (description float_repr cols total r
                   (int_of_cell (Frame.cell i r)))).
Proof.
  intros Hf. unfold describe, Frame.getitem. rewrite Hi. cbn [bind].
  destruct (finite_cell_number _ Hf) as [q Hq].
  unfold le0. rewrite Hq. cbn [bind].
  unfold cases_key. rewrite (finite_cell_to_numeric _ _ Hq).
  rewrite FloatFacts.leb_zero_fin.
  destruct (negb (Float.gtb (Fin q) Float.zero)); [reflexivity|].
  rewrite (finite_cell_py_int _ Hf). reflexivity.
Qed.

Lemma sort_values_desc_finite rws :
  (forall r, In r rws -> finite_cell (Frame.cell i r) = true) ->
  sort_values_desc cols rws = Ok (nargsort_desc (cases_key i) rws).
Proof.
  intros H. unfold sort_values_desc. rewrite Hi.
  assert (forallb (fun r => match number (Frame.cell i r) with
                            | Some _ => true | None => false end) rws = true)
    as ->; [|reflexivity].
  apply forallb_forall. intros r Hr.
  destruct (finite_cell_number _ (H r Hr)) as [q ->]. reflexivity.
Qed.

(** The loop over a sorted table with finite counts. *)
Lemma top_text_finite sorted total :
  (forall r, In r sorted -> finite_cell (Frame.cell i r) = true) ->
  top_text float_repr cols total sorted =
  Ok (match filter (fun r => Float.gtb (cases_key i r) Float.zero)
                   (firstn 3 sorted) with
      | [] => NO_CASES
      | kept =>
          PyStr.join "、"
            (map (fun r => description float_repr cols total r
                             (int_of_cell (Frame.cell i r))) kept)
      end).
Proof.
  intros H. unfold top_text.
  rewrite (mapM_ok_map _
             (fun r => if negb (Float.gtb (cases_key i r) Float.zero) then None
                       else Some (description float_repr cols total r
                                    (int_of_cell (Frame.cell i r))))).
  - cbn [bind]. rewrite somes_map_filter.
    assert (filter (fun r => negb (negb (Float.gtb (cases_key i r) Float.zero)))
                   (firstn 3 sorted) =
            filter (fun r => Float.gtb (cases_key i r) Float.zero) (firstn 3 sorted))
      as ->.
    { apply filter_ext. intros r. apply negb_involutive. }
    destruct (filter _ (firstn 3 sorted)); reflexivity.
  - intros r Hr. apply describe_finite. apply H.
    now apply firstn_incl in Hr.
Qed.

Lemma get_top_diseases_text_sorted rws total :
  (forall r, In r rws -> finite_cell (Frame.cell i r) = true) ->
  get_top_diseases_text float_repr cols rws total =
  top_text float_repr cols total (nargsort_desc (cases_key i) rws).
Proof.
  intros H. unfold get_top_diseases_text.
  destruct rws as [|r0 rws]; [reflexivity|].
  now rewrite (sort_values_desc_finite _ H).
Qed.

Lemma get_top_diseases_text_finite rws total :
  (forall r, In r rws -> finite_cell (Frame.cell i r) = true) ->
  get_top_diseases_text float_repr cols rws total =
  Ok (match filter (fun r => Float.gtb (cases_key i r) Float.zero)
                   (firstn 3 (nargsort_desc (cases_key i) rws)) with
      | [] => NO_CASES
      | kept =>
          PyStr.join "、"
            (map (fun r => description float_repr cols total r
                             (int_of_cell (Frame.cell i r))) kept)
      end).
Proof.
  intros H. rewrite (get_top_diseases_text_sorted _ _ H).
  apply top_text_finite. intros r Hr. apply H.
  destruct (SortFacts.nargsort_desc_spec (cases_key i) rws) as [P _].
  apply (Permutation_in _ P). exact Hr.
Qed.


End Rank.

End RankFacts.




(** ** The report generator *)

Module ReportFacts.
Import RankFacts.

Lemma select_map_filter {A} (f : A -> bool) (l : list A) :
  Frame.select (map f l) l = filter f l.
Proof.
  induction l as [|a l IH]; [reflexivity|].
  cbn [map Frame.select filter]. destruct (f a); now rewrite IH.
Qed.

Lemma select_incl {A} (mask : list bool) : forall (l : list A) x,
  In x (Frame.select mask l) -> In x l.
Proof.
  induction mask as [|b mask IH]; intros l x H; [destruct H|].
  destruct l as [|a l]; [destruct b; destruct H|].
  destruct b; cbn [Frame.select] in H.
  - destruct H as [<- | H]; [now left|right; auto].
  - right; auto.
Qed.

Lemma index_of_nth name : forall cols i,
  Frame.index_of name cols = Some i -> nth_error cols i = Some name.
Proof.
  induction cols as [|c cols IH]; intros i H; [discriminate|].
  cbn [Frame.index_of] in H. destruct (String.eqb c name) eqn:E.
  - injection H as <-. apply String.eqb_eq in E. now subst.
  - destruct (Frame.index_of name cols) as [k|]; [|discriminate].
    injection H as <-. now apply IH.
Qed.

Lemma index_of_app_l name cols more i :
  Frame.index_of name cols = Some i ->
  Frame.index_of name (cols ++ more) = Some i.
Proof.
  revert i; induction cols as [|c cols IH]; intros i H; [discriminate|].
  cbn [Frame.index_of app] in *. destruct (String.eqb c name); [exact H|].
  destruct (Frame.index_of name cols) as [k|]; [|discriminate].
  now rewrite (IH k eq_refl).
Qed.

Lemma cell_set_nth_other v r : forall i j,
  i <> j -> Frame.cell i (Frame.set_nth j v r) = Frame.cell i r.
Proof.
  unfold Frame.cell.
  induction r as [|a r IH]; intros i j H; [now destruct j|].
  destruct j, i; cbn [Frame.set_nth nth]; try reflexivity; try congruence.
  apply IH. congruence.
Qed.

Lemma cell_app_finite i r more :
  finite_cell (Frame.cell i r) = true ->
  Frame.cell i (r ++ more) = Frame.cell i r.
Proof.
  unfold Frame.cell. intros H.
  destruct (Nat.lt_ge_cases i (length r)) as [Hlt | Hge].
  - now apply app_nth1.
  - rewrite (nth_overflow r _ Hge) in H. discriminate H.
Qed.

(** The new column [Class] leaves the case counts where they are. *)
Lemma set_column_class_cases cols detail vals i :
  Frame.index_of CASES cols = Some i ->
  (forall r, In r detail -> finite_cell (Frame.cell i r) = true) ->
  let df := Frame.set_column "Class" vals (mkFrame cols detail) in
  Frame.index_of CASES (columns df) = Some i /\
  forall r, In r (rows df) -> finite_cell (Frame.cell i r) = true.
Proof.
  intros Hi Hf. unfold Frame.set_column. cbn [columns rows].
  destruct (Frame.index_of "Class" cols) as [j|] eqn:Ej; cbn [columns rows].
  - split; [exact Hi|]. intros r Hr.
    apply in_map_iff in Hr as [[r0 v] [<- Hin]]. cbn [fst snd].
    apply in_combine_l in Hin.
    rewrite cell_set_nth_other; [now apply Hf|].
    intros ->. apply index_of_nth in Hi, Ej.
    rewrite Hi in Ej. discriminate Ej.
  - split; [now apply index_of_app_l|]. intros r Hr.
    apply in_map_iff in Hr as [[r0 v] [<- Hin]]. cbn [fst snd].
    apply in_combine_l in Hin.
    rewrite cell_app_finite; now apply Hf.
Qed.

Lemma sum_finite l : forall q,
  (forall x, In x l -> Float.is_finite x = true) ->
  exists q', fold_left Float.add l (Fin q) = Fin q'.
Proof.
  induction l as [|x l IH]; intros q H; [now exists q|].
  cbn [fold_left]. pose proof (H x (or_introl eq_refl)) as Hx.
  destruct x as [a| | |]; try discriminate Hx.
  rewrite FloatFacts.add_fin. apply IH. intros y Hy. apply H. now right.
Qed.

Lemma nansum_finite l :
  (forall x, In x l -> Float.is_finite x = true) ->
  exists q, Float.nansum l = Fin q.
Proof.
  intros H. unfold Float.nansum, Float.sum. apply sum_finite.
  intros x Hx. apply filter_In in Hx as [Hx _]. now apply H.
Qed.

Section Paragraph.

Variable float_repr : Q -> string.
Variable cols : list string.
Variable i : nat.
Hypothesis Hi : Frame.index_of CASES cols = Some i.

Lemma getitem_cases (l : list (list value)) :
  mapM (fun r => Frame.getitem cols r CASES) l = Ok (map (Frame.cell i) l).
Proof.
  apply mapM_ok_map. intros r _. unfold Frame.getitem. now rewrite Hi.
Qed.

Lemma gt0_cases (l : list (list value)) :
  (forall r, In r l -> finite_cell (Frame.cell i r) = true) ->
  mapM gt0 (map (Frame.cell i) l) =
  Ok (map (fun v => Float.gtb (to_numeric v) Float.zero)
          (map (Frame.cell i) l)).
Proof.
  intros H. apply mapM_ok_map. intros v Hv.
  apply in_map_iff in Hv as [r [<- Hr]].
  destruct (finite_cell_number _ (H r Hr)) as [q Hq].
  unfold gt0. rewrite Hq. now rewrite (finite_cell_to_numeric _ _ Hq).
Qed.

(** The paragraph of a tier is produced whenever the counts are finite. *)
Lemma tier_paragraph_ok t title lead rws classes :
  (forall r, In r rws -> finite_cell (Frame.cell i r) = true) ->
  exists s, tier_paragraph float_repr t title lead cols rws classes = Ok s.
Proof.
  intros H. unfold tier_paragraph.
  set (sub := Frame.select _ rws).
  assert (forall r, In r sub -> finite_cell (Frame.cell i r) = true) as Hsub.
  { intros r Hr. apply H. now apply (select_incl _ _ _ Hr). }
  destruct sub as [|r0 sub'] eqn:E; [eauto|]. rewrite <- E in *. clear E.
  rewrite getitem_cases. cbn [bind].
  rewrite (gt0_cases _ Hsub). cbn [bind].
  destruct (nansum_finite (map to_numeric (map (Frame.cell i) sub)))
    as [q Hq].
  { intros x Hx. apply in_map_iff in Hx as [v [<- Hv]].
    apply in_map_iff in Hv as [r [<- Hr]].
    destruct (finite_cell_number _ (Hsub r Hr)) as [a Ha].
    now rewrite (finite_cell_to_numeric _ _ Ha). }
  rewrite Hq.
  destruct (Float.gtb (Fin q) Float.zero).
  - rewrite (get_top_diseases_text_finite float_repr cols i Hi _ _ Hsub).
    cbn [bind int_of_float]. eauto.
  - cbn [bind int_of_float]. eauto.
Qed.

End Paragraph.

End ReportFacts.




(** ** The statistics engine: the shape of the result *)

Module StatsFacts.
Import StatsAux ReportFacts.

Lemma index_of_none name cols :
  Frame.index_of name cols = None <-> ~ In name cols.
Proof.
  induction cols as [|c cols IH]; [simpl; tauto|].
  cbn [Frame.index_of In]. destruct (String.eqb c name) eqn:E.
  - apply String.eqb_eq in E. split; [discriminate|]. intros H. elim H. now left.
  - apply String.eqb_neq in E.
    destruct (Frame.index_of name cols) as [k|]; cbn [option_map].
    + split; [discriminate|]. intros H. exfalso. apply H. right.
      destruct (in_dec string_dec name cols) as [Hin|Hout]; [exact Hin|].
      apply IH in Hout. discriminate Hout.
    + split; [|reflexivity]. intros _ [H|H]; [congruence|].
      now apply (proj1 IH).
Qed.

Lemma index_of_app_r name cols more :
  ~ In name cols ->
  Frame.index_of name (cols ++ more) =
  option_map (fun k => length cols + k)%nat (Frame.index_of name more).
Proof.
  induction cols as [|c cols IH]; intros H.
  - simpl. destruct (Frame.index_of name more); reflexivity.
  - cbn [app Frame.index_of]. destruct (String.eqb c name) eqn:E.
    + apply String.eqb_eq in E. elim H. now left.
    + rewrite IH by (intros Hin; apply H; now right).
      destruct (Frame.index_of name more); reflexivity.
Qed.

Lemma combine_map_map {A B C} (g : A -> B) (h : A -> C) l :
  combine (map g l) (map h l) = map (fun x => (g x, h x)) l.
Proof. induction l as [|a l IH]; [reflexivity|]. simpl. now rewrite IH. Qed.

(** A new header appends a column. *)
Lemma set_column_new {A} name cols (g : A -> list value) (h : A -> value) l :
  ~ In name cols ->
  Frame.set_column name (map h l) (mkFrame cols (map g l)) =
  mkFrame (cols ++ [name]) (map (fun x => g x ++ [h x]) l).
Proof.
  intros H. unfold Frame.set_column. cbn [columns rows].
  rewrite (proj2 (index_of_none name cols) H).
  now rewrite combine_map_map, map_map.
Qed.

Lemma set_nth_app {A} (l : list A) x v m :
  Frame.set_nth (length l) v (l ++ x :: m) = l ++ v :: m.
Proof. induction l as [|a l IH]; [reflexivity|]. simpl. now rewrite IH. Qed.

Lemma set_nth_app_r {A} (l : list A) k v m :
  Frame.set_nth (length l + k) v (l ++ m) = l ++ Frame.set_nth k v m.
Proof. induction l as [|a l IH]; [reflexivity|]. simpl. now rewrite IH. Qed.

Lemma coerce_row_length r : length (coerce_row r) = length r.
Proof. destruct r; simpl; [reflexivity|]. now rewrite length_map. Qed.

Lemma coerce_ok df :
  NoDup (columns df) ->
  coerce_value_columns df = Ok (mkFrame (columns df) (map coerce_row (rows df))).
Proof.
  intros H. unfold coerce_value_columns.
  assert (existsb (fun c => (1 <? count_occ string_dec (columns df) c)%nat)
                  (tl (columns df)) = false) as ->; [|reflexivity].
  apply not_true_is_false. intros E.
  apply existsb_exists in E as [c [_ Hc]]. apply Nat.ltb_lt in Hc.
  pose proof (proj1 (NoDup_count_occ string_dec (columns df)) H c). lia.
Qed.

(** The observations read back from a row that has been coerced, with
    derived cells behind it. *)
Lemma observed_of_coerced n r more :
  length r = n ->
  map to_numeric (firstn (n - 1) (tl (coerce_row r ++ more))) = observed_row r
  \/ n = 0%nat.
Proof.
  intros Hl. destruct r as [|l vs]; [right; simpl in Hl; congruence|left].
  cbn [coerce_row app tl]. cbn [length] in Hl.
  assert (n - 1 = length (map (fun v => VFloat (fillna0 (to_numeric v))) vs))%nat
    as -> by (rewrite length_map; lia).
  rewrite firstn_app, Nat.sub_diag, firstn_all, firstn_O, app_nil_r.
  unfold observed_row. cbn [tl]. now rewrite map_map.
Qed.

Lemma values_coerced n df cs (tail : list value -> list value) :
  (forall r, In r (rows df) -> length r = n) ->
  values n (mkFrame cs
              (map (fun r => coerce_row r ++ tail r) (rows df)))
  = observations df
  \/ n = 0%nat.
Proof.
  intros H. destruct n as [|n]; [now right|left].
  unfold values, observations. cbn [rows]. rewrite map_map.
  apply map_ext_in. intros r Hr.
  destruct (observed_of_coerced (S n) r (tail r) (H r Hr)) as [E|E];
    [exact E|discriminate E].
Qed.

(** With no header, every row is empty and so is every observation. *)
Lemma values_no_columns df cs (tail : list value -> list value) :
  (forall r, In r (rows df) -> length r = 0%nat) ->
  values 0 (mkFrame cs
              (map (fun r => coerce_row r ++ tail r) (rows df)))
  = observations df.
Proof.
  intros H. unfold values, observations. cbn [rows]. rewrite map_map.
  apply map_ext_in. intros r Hr. specialize (H r Hr).
  destruct r; [reflexivity|discriminate H].
Qed.

Lemma values_eq n df cs (tail : list value -> list value) :
  (forall r, In r (rows df) -> length r = n) ->
  values n (mkFrame cs
              (map (fun r => coerce_row r ++ tail r) (rows df)))
  = observations df.
Proof.
  intros H. destruct (values_coerced n df cs tail H) as [E|E]; [exact E|].
  subst n. now apply values_no_columns.
Qed.

Lemma set_column_new_rows name cols (h : list value -> value) l :
  ~ In name cols ->
  Frame.set_column name (map h l) (mkFrame cols l) =
  mkFrame (cols ++ [name]) (map (fun x => x ++ [h x]) l).
Proof.
  intros H.
  rewrite <- (map_id l) at 2.
  now rewrite (set_column_new name cols (fun x => x) h l H).
Qed.

(** The two test columns are appended, and the figures go to the first
    row. *)
Lemma attach_test e chi p r0 rest :
  ~ In "χ²值" (columns e) ->
  ~ In "P值" (columns e ++ ["χ²值"]) ->
  rows e = r0 :: rest ->
  length r0 = length (columns e) ->
  bind (set_first "χ²值" (VStr chi)
          (Frame.set_column "P值" (map (fun _ => VStr "") (rows e))
             (Frame.set_column "χ²值" (map (fun _ => VStr "") (rows e)) e)))
       (set_first "P值" (VStr p))
  = Ok (with_test chi p e).
Proof.
  destruct e as [cols rws]. cbn [columns rows]. intros Hc Hp -> Hl.
  rewrite (set_column_new_rows "χ²值" cols (fun _ => VStr "") _ Hc).
  rewrite (set_column_new "P值" (cols ++ ["χ²值"])
             (fun x : list value => x ++ [VStr ""]) (fun _ => VStr "")
             (r0 :: rest) Hp).
  unfold set_first. cbn [columns rows map].
  assert (~ In "P值" cols) as Hp'
    by (intros H; apply Hp; apply in_or_app; now left).
  rewrite <- (app_assoc cols).
  rewrite (index_of_app_r "χ²值" cols _ Hc). cbn [Frame.index_of app].
  cbn [String.eqb Ascii.eqb Bool.eqb option_map bind].
  rewrite <- app_assoc. cbn [app].
  rewrite Nat.add_0_r, <- Hl, set_nth_app. cbn [columns rows].
  rewrite (index_of_app_r "P值" cols _ Hp'). cbn [Frame.index_of].
  cbn [String.eqb Ascii.eqb Bool.eqb option_map].
  replace (length cols + 1)%nat with (length (r0 ++ [VStr chi])).
  2:{ rewrite length_app, Hl. reflexivity. }
  change (r0 ++ [VStr chi; VStr ""]) with (r0 ++ [VStr chi] ++ [VStr ""]).
  rewrite app_assoc, set_nth_app.
  unfold with_test. cbn [columns rows]. f_equal. f_equal. f_equal.
  - now rewrite <- app_assoc.
  - apply map_ext. intros r. now rewrite <- app_assoc.
Qed.

Lemma derived_fresh df c :
  well_formed df -> In c DERIVED -> ~ In c (columns df).
Proof. intros [_ [H _]]. apply H. Qed.

Section Shape.

Variable chi2_sf : float -> Z -> float.
Variable df : DataFrame.
Hypothesis WF : well_formed df.

Lemma fresh_total : ~ In "合计" (columns df).
Proof. apply derived_fresh; [exact WF|]. simpl. auto. Qed.

Lemma fresh_ratio : ~ In "构成比(%)" (columns df ++ ["合计"]).
Proof.
  intros H. apply in_app_or in H as [H|[H|[]]]; [|discriminate H].
  revert H. apply derived_fresh; [exact WF|]. simpl. auto.
Qed.

Lemma fresh_chi : ~ In "χ²值" ((columns df ++ ["合计"]) ++ ["构成比(%)"]).
Proof.
  intros H. apply in_app_or in H as [H|[H|[]]]; [|discriminate H].
  apply in_app_or in H as [H|[H|[]]]; [|discriminate H].
  revert H. apply derived_fresh; [exact WF|]. simpl. auto.
Qed.

Lemma fresh_p :
  ~ In "P值" (((columns df ++ ["合计"]) ++ ["构成比(%)"]) ++ ["χ²值"]).
Proof.
  intros H. apply in_app_or in H as [H|[H|[]]]; [|discriminate H].
  apply in_app_or in H as [H|[H|[]]]; [|discriminate H].
  apply in_app_or in H as [H|[H|[]]]; [|discriminate H].
  revert H. apply derived_fresh; [exact WF|]. simpl. auto.
Qed.

Lemma set_total :
  Frame.set_column "合计" (map VFloat (map Float.nansum (observations df)))
    (mkFrame (columns df) (map coerce_row (rows df)))
  = mkFrame (columns df ++ ["合计"])
      (map (fun r => coerce_row r ++ [VFloat (Float.nansum (observed_row r))])
           (rows df)).
Proof.
  unfold observations. rewrite !map_map.
  apply (set_column_new "合计" (columns df) coerce_row
           (fun r => VFloat (Float.nansum (observed_row r))) (rows df)
           fresh_total).
Qed.

Lemma set_ratio :
  Frame.set_column "构成比(%)"
    (map (fun t => VFloat (Float.round2
            (Float.mul (Float.div t (Float.nansum
                                       (map Float.nansum (observations df))))
                       (Fin 100))))
         (map Float.nansum (observations df)))
    (mkFrame (columns df ++ ["合计"])
       (map (fun r => coerce_row r ++ [VFloat (Float.nansum (observed_row r))])
            (rows df)))
  = enriched df.
Proof.
  set (total_sum := Float.nansum (map Float.nansum (observations df))).
  unfold observations. rewrite !map_map.
  rewrite (set_column_new "构成比(%)" (columns df ++ ["合计"])
             (fun r => coerce_row r ++ [VFloat (Float.nansum (observed_row r))])
             (fun r => VFloat (Float.round2
                        (Float.mul (Float.div (Float.nansum (observed_row r))
                                              total_sum) (Fin 100))))
             (rows df) fresh_ratio).
  unfold enriched. fold total_sum.
  rewrite <- app_assoc. f_equal. apply map_ext. intros r.
  now rewrite <- app_assoc.
Qed.

(** The body of the engine, step by step, against the table described in
    the words of the specification. *)
Lemma stats_body_shape :
  stats_body chi2_sf df =
  if testable df then
    match chi2_contingency chi2_sf (cleaned df) with
    | Ok cp =>
        Ok (with_test (format_2f (fst cp)) (format_p_value (snd cp))
                      (enriched df))
    | Raise e => Raise e
    end
  else Ok (enriched df).
Proof.
  destruct WF as [ND [_ Hlen]].
  unfold stats_body. rewrite (coerce_ok df ND). cbn [bind].
  assert (values (length (columns df)) (mkFrame (columns df) (map coerce_row (rows df)))
          = observations df) as V1.
  { rewrite <- (values_eq (length (columns df)) df (columns df) (fun _ => []) Hlen).
    f_equal. f_equal. apply map_ext. intros r. now rewrite app_nil_r. }
  rewrite V1, set_total, set_ratio.
  assert (values (length (columns df)) (enriched df) = observations df) as V3.
  { unfold enriched. apply (values_eq (length (columns df)) df _ _ Hlen). }
  unfold testable.
  destruct (2 <=? length (columns df) - 1)%nat; cbn [andb]; [|reflexivity].
  rewrite V3. fold (cleaned df).
  destruct (Float.gtb (Float.sum (concat (cleaned df))) Float.zero
            && (1 <? length (cleaned df))%nat) eqn:Ec; [|reflexivity].
  destruct (chi2_contingency chi2_sf (cleaned df)) as [[chi p]|e];
    [|reflexivity].
  cbn [bind fst snd].
  apply andb_true_iff in Ec as [_ Ec]. apply Nat.ltb_lt in Ec.
  assert (rows df <> []) as Hne.
  { intros Hnil. unfold cleaned, observations in Ec. rewrite Hnil in Ec.
    simpl in Ec. lia. }
  destruct (rows df) as [|r0 rest] eqn:Er; [congruence|].
  apply (attach_test (enriched df) _ _
           (coerce_row r0 ++
            [VFloat (Float.nansum (observed_row r0));
             VFloat (Float.round2
               (Float.mul (Float.div (Float.nansum (observed_row r0))
                  (Float.nansum (map Float.nansum (observations df))))
                  (Fin 100)))])
           (map (fun r =>
                   coerce_row r ++
                   [VFloat (Float.nansum (observed_row r));
                    VFloat (Float.round2
                      (Float.mul (Float.div (Float.nansum (observed_row r))
                         (Float.nansum (map Float.nansum (observations df))))
                         (Fin 100)))]) rest)).
  - unfold enriched. cbn [columns].
    change ["合计"; "构成比(%)"] with (["合计"] ++ ["构成比(%)"]).
    rewrite app_assoc. exact fresh_chi.
  - unfold enriched. cbn [columns].
    change ["合计"; "构成比(%)"] with (["合计"] ++ ["构成比(%)"]).
    rewrite app_assoc. exact fresh_p.
  - unfold enriched. cbn [rows]. rewrite Er. reflexivity.
  - unfold enriched. cbn [columns].
    rewrite !length_app, coerce_row_length. cbn [length].
    now rewrite (Hlen r0 (or_introl eq_refl)).
Qed.


End Shape.
End StatsFacts.

Module TestFacts.
Import StatsAux StatsFacts.










End TestFacts.




(** ** Further worked examples *)

(** The trend phrases for a rise, a fall, no change and a value that is not
    a number. *)
Example fmt_trend_phrases :
  fmt_trend (VFloat (Fin (11 # 2))) = "上升5.50%" /\
  fmt_trend (VInt (-3)) = "下降3.00%" /\
  fmt_trend (VInt 0) = "持平" /\
  fmt_trend (VStr "abc") = "持平".
Proof. repeat split; vm_compute; reflexivity. Qed.

(** A file named after the report is stored as the summary, whatever its
    headers; a file with the headers of the two tokens is too, whatever its
    name. *)
Example route_by_name_or_headers (float_repr : Q -> string) :
  (exists t, route float_repr "疫情分析报表.xlsx"
               (mkFrame ["病种"; "本期发病数"] [[VStr "合计"; VStr "1,200"]])
             = Ok (Some (Summary, t)) /\
             rows t = [[VStr "合计"; VFloat (Fin 1200)]]) /\
  (exists t, route float_repr "data.csv"
               (mkFrame ["病种名称"; "本期发病数"] [])
             = Ok (Some (Summary, t))).
Proof. split; eexists; [split|]; vm_compute; reflexivity. Qed.

(** An age inside the range falls in the bin of its multiple of five. *)
Example cut_inside :
  cut bins (Fin 0) = Some 0%nat /\
  cut bins (Fin (49 # 10)) = Some 0%nat /\
  cut bins (Fin 5) = Some 1%nat /\
  cut bins (Fin (999 # 10)) = Some 19%nat /\
  cut bins (Fin 100) = None /\
  cut bins (Fin (-1)) = None /\
  cut bins NaN = None.
Proof. repeat split; vm_compute; reflexivity. Qed.

(** * Further properties of the program *)

(** ** The batch loop *)

Module BatchFacts.
Import DataFacts.

Section Loop.

Variable float_repr : Q -> string.

(** The data map after a batch depends on the data map before it only. *)
Lemma parse_files_data_ext l : forall p p',
  data p = data p' ->
  data (fst (parse_files float_repr p l)) =
  data (fst (parse_files float_repr p' l)).
Proof.
  induction l as [|f l IH]; intros p p' H; [exact H|].
  rewrite !parse_files_cons. apply IH.
  rewrite !parse_file_data, H. reflexivity.
Qed.

Lemma stored_none_cases f :
  (is_geo (name f) = true \/
   (forall df, body f <> Tabular df) \/
   (exists df, body f = Tabular df /\
      (route float_repr (name f) df = Ok None \/
       exists e, route float_repr (name f) df = Raise e))) ->
  stored float_repr f = None.
Proof.
  unfold stored. intros [H | [H | [df [Hb H]]]].
  - now rewrite H.
  - destruct (is_geo (name f)); [reflexivity|].
    destruct (body f) as [df| |]; try reflexivity. now elim (H df).
  - destruct (is_geo (name f)); [reflexivity|]. rewrite Hb.
    destruct H as [-> | [e ->]]; reflexivity.
Qed.

End Loop.

End BatchFacts.

(** X1.  A file that is a map, cannot be read, matches no rule or raises
    while it is routed leaves the data map alone and does not stop the
    batch: the data map after the batch is the one the batch gives without
    that file. *)
Theorem parse_files_skips_failures (float_repr : Q -> string) (p : Parser)
  (pre post : list File) (f : File) :
  (is_geo (name f) = true \/
   (forall df, body f <> Tabular df) \/
   (exists df, body f = Tabular df /\
      (route float_repr (name f) df = Ok None \/
       exists e, route float_repr (name f) df = Raise e))) ->
  data (fst (parse_files float_repr p (pre ++ f :: post))) =
  data (fst (parse_files float_repr p (pre ++ post))).
Proof.
  intros H. apply BatchFacts.stored_none_cases in H.
  rewrite !DataFacts.parse_files_app, DataFacts.parse_files_cons.
  apply BatchFacts.parse_files_data_ext.
  now rewrite DataFacts.parse_file_data, H.
Qed.

Lemma parse_files_skips_failures_witness :
  data (fst (parse_files repr_fixed new_parser ExtraAux.broken_batch)) =
  data (fst (parse_files repr_fixed new_parser
               [Examples.area_1; Examples.area_2])).
Proof.
  apply (parse_files_skips_failures repr_fixed new_parser [Examples.area_1]
           [Examples.area_2] (mkFile "坏文件.csv" Unreadable)).
  right. left. intros df. discriminate.
Defined.

(** X2.  A slot of the data map is never emptied: a role that holds a table
    before a batch holds one after it, whatever the files. *)
Theorem parse_files_keeps_slots (float_repr : Q -> string)
  (files : list File) (p : Parser) (r : role) (t : DataFrame) :
  lookup r (data p) = Some t ->
  exists t', lookup r (data (fst (parse_files float_repr p files))) = Some t'.
Proof.
  revert p t. induction files as [|f files IH]; intros p t H; [eauto|].
  rewrite DataFacts.parse_files_cons.
  assert (exists t1, lookup r (data (fst (parse_file float_repr p f)))
                     = Some t1) as [t1 H1].
  { rewrite DataFacts.parse_file_data.
    destruct (stored float_repr f) as [[r' t']|]; [|eauto].
    destruct r, r'; simpl in *; eauto. }
  apply (IH _ t1 H1).
Qed.

Lemma parse_files_keeps_slots_witness :
  exists t',
    lookup Area
      (data (fst (parse_files repr_fixed
                    (fst (parse_files repr_fixed new_parser [Examples.area_1]))
                    [Examples.e2e_file; mkFile "坏文件.csv" Unreadable])))
    = Some t'.
Proof.
  apply (parse_files_keeps_slots repr_fixed _ _ Area
           (mkFrame ["Name"; "Cases"] [[VStr "甲镇"; VFloat (Fin 1200)]])).
  vm_compute. reflexivity.
Defined.

(** ** The area branch and the two clean-ups *)

Module AreaFacts.
Import PyStr StrAux PyStrFacts.

Lemma str_app_assoc (a b c : string) :
  ((a ++ b) ++ c)%string = (a ++ b ++ c)%string.
Proof. induction a as [|x a IH]; [reflexivity|]. cbn [append]. now rewrite IH. Qed.

Lemma replace_app c new l r :
  replace c new (l ++ r)%string = (replace c new l ++ replace c new r)%string.
Proof.
  induction l as [|a l IH]; [reflexivity|].
  cbn [append replace]. destruct (Ascii.eqb a c).
  - now rewrite IH, str_app_assoc.
  - cbn [append]. now rewrite IH.
Qed.

Lemma replace_absent c new s :
  has_byte c s = false -> replace c new s = s.
Proof.
  induction s as [|a s IH]; [reflexivity|].
  cbn [has_byte replace]. intros H. apply orb_false_iff in H as [Ha Hs].
  rewrite Ha. now rewrite IH.
Qed.

(** Only the last test of the router stores a table as the area table. *)
Lemma route_area float_repr fname df t :
  route float_repr fname df = Ok (Some (Area, t)) ->
  t = clean_area float_repr df /\ (2 <= length (columns df))%nat.
Proof.
  unfold route.
  repeat match goal with
         | |- context [if ?b then _ else _] =>
             let E := fresh "E" in destruct b eqn:E
         end; intros H;
    try (apply RouteFacts.bind_ok in H as [a [Ha Hb]]);
    try discriminate; try congruence.
  injection H as <-. split; [reflexivity|].
  match goal with
  | E : (2 <=? _)%nat = true |- _ => now apply Nat.leb_le in E
  end.
Qed.

Lemma fillna0_not_nan x : fillna0 x <> NaN.
Proof. unfold fillna0. destruct x; simpl; discriminate. Qed.

End AreaFacts.

(** X3.  A table stored as the area table had at least two columns; what is
    stored has exactly the headers Name and Cases and the same number of
    rows, each row keeping its first cell as it was and holding in the second
    the number read from the text of the second cell, zero when the text is
    no number and never NaN.  The further columns are dropped.  Unlike the
    summary clean-up, the area clean-up leaves a dash alone, so that the two
    agree on a text without a dash and differ on a numeral with a minus sign,
    which keeps its sign here. *)
Theorem route_area_table (float_repr : Q -> string) (fname : string)
  (df t : DataFrame) :
  route float_repr fname df = Ok (Some (Area, t)) ->
  (2 <= length (columns df))%nat /\
  columns t = ["Name"; "Cases"] /\
  length (rows t) = length (rows df) /\
  (forall j r, nth_error (rows df) j = Some r ->
     exists x,
       nth_error (rows t) j = Some [Frame.cell 0 r; VFloat x] /\
       x = to_cases float_repr (Frame.cell 1 r) /\ x <> NaN) /\
  (forall s, StrAux.has_byte "-"%char s = false ->
     to_cases float_repr (VStr s) = to_number float_repr (VStr s)) /\
  to_cases float_repr (VStr "-3") = Fin (-3) /\
  to_number float_repr (VStr "-3") = Fin 3 /\
  to_cases float_repr (VStr "-") = Fin 0.
Proof.
  intros H. apply AreaFacts.route_area in H as [-> Hn].
  split; [exact Hn|]. split; [reflexivity|].
  split; [unfold clean_area; cbn [rows]; apply length_map|].
  split.
  { intros j r Hr. eexists. split; [|split; [reflexivity|]].
    - unfold clean_area. cbn [rows]. rewrite nth_error_map, Hr. reflexivity.
    - apply AreaFacts.fillna0_not_nan. }
  split.
  { intros s Hs. unfold to_cases, to_number, to_number_text, clean_text.
    cbn [py_str].
    rewrite (AreaFacts.replace_absent "-"%char "0"
               (PyStr.replace ","%char "" s)); [reflexivity|].
    apply NumberFacts.has_byte_replace_other; [reflexivity|exact Hs]. }
  repeat split; vm_compute; reflexivity.
Qed.

Lemma route_area_table_witness :
  exists t,
    route repr_fixed "地区分布2.csv"
      (mkFrame ["乡镇"; "病例"; "备注"]
         [[VStr "乙镇"; VInt 7; VStr "x"]; [VStr "丙镇"; VStr "-"; VStr "y"]])
    = Ok (Some (Area, t)) /\
    columns t = ["Name"; "Cases"].
Proof.
  eexists. split; [vm_compute; reflexivity|].
  refine (proj1 (proj2 (route_area_table repr_fixed "地区分布2.csv"
                          (mkFrame ["乡镇"; "病例"; "备注"]
                             [[VStr "乙镇"; VInt 7; VStr "x"];
                              [VStr "丙镇"; VStr "-"; VStr "y"]]) _ _))).
  vm_compute. reflexivity.
Defined.

(** X4.  In the summary clean-up a thousands separator counts for nothing
    and a dash counts for the digit zero, wherever they stand in the text of
    a cell; in the area clean-up a separator counts for nothing wherever it
    stands. *)
Theorem clean_up_ignores_separators (float_repr : Q -> string)
  (l r : string) :
  to_number_text (l ++ "," ++ r) = to_number_text (l ++ r) /\
  to_number_text (l ++ "-" ++ r) = to_number_text (l ++ "0" ++ r) /\
  to_cases float_repr (VStr (l ++ "," ++ r)) = to_cases float_repr (VStr (l ++ r)).
Proof.
  unfold to_number_text, to_cases, clean_text. cbn [py_str].
  rewrite !AreaFacts.replace_app. cbn [PyStr.replace Ascii.eqb Bool.eqb].
  repeat split; reflexivity.
Qed.

(** ** Blanks in a disease name, and the sign of a trend *)

Module TextFacts.
Import PyStr StrAux PyStrFacts.

Lemma uint_no_dash d : has_byte "-"%char (NilEmpty.string_of_uint d) = false.
Proof. induction d; cbn [NilEmpty.string_of_uint has_byte]; auto. Qed.

Lemma nilzero_no_dash d : has_byte "-"%char (NilZero.string_of_uint d) = false.
Proof. destruct d; [reflexivity|..]; apply uint_no_dash. Qed.

Lemma str_of_Z_no_dash z : (0 <= z)%Z -> has_byte "-"%char (str_of_Z z) = false.
Proof.
  intros Hz. unfold str_of_Z. destruct z as [|p|p]; [reflexivity| |lia].
  cbn [Z.to_int NilZero.string_of_int]. apply nilzero_no_dash.
Qed.

Lemma format_2f_no_dash q :
  Float.Qltb q 0 = false -> has_byte "-"%char (format_2f (Fin q)) = false.
Proof.
  intros H. unfold format_2f. rewrite H.
  set (a := Z.abs (Float.round_half_even (q * 100))).
  assert (0 <= a)%Z as Ha by apply Z.abs_nonneg.
  rewrite !has_byte_app.
  rewrite (str_of_Z_no_dash (a / 100)) by (apply Z.div_pos; lia).
  rewrite (str_of_Z_no_dash (a mod 100)) by (apply Z.mod_pos_bound; lia).
  destruct (a mod 100 <? 10)%Z; reflexivity.
Qed.

Lemma format_2f_abs_no_dash v :
  has_byte "-"%char (format_2f (Float.abs v)) = false.
Proof.
  destruct v as [q| | |]; try reflexivity.
  apply format_2f_no_dash. apply NumberFacts.Qltb_nonneg.
  apply NumberFacts.Qred_nonneg. apply Qabs_nonneg.
Qed.

Lemma format_2f_pos_no_dash v :
  Float.gtb v Float.zero = true -> has_byte "-"%char (format_2f v) = false.
Proof.
  destruct v as [q| | |]; try reflexivity; try discriminate.
  intros H. apply format_2f_no_dash. apply FloatFacts.Qltb_ge.
  apply FloatFacts.Qltb_lt in H. now apply Qlt_le_weak.
Qed.

End TextFacts.

(** X5.  The classifier does not see the blanks of a name: a blank put
    anywhere in a name, at its ends or inside it, leaves the tier
    unchanged. *)
Theorem get_disease_class_ignores_blanks (l r : string) :
  get_disease_class (l ++ " " ++ r) = get_disease_class (l ++ r).
Proof.
  unfold get_disease_class, normalize.
  rewrite !AreaFacts.replace_app. reflexivity.
Qed.

(** X6.  The phrase for a trend never holds a minus sign, whatever the
    value: the direction is told by the word, and the figure that follows it
    is the absolute value. *)
Theorem fmt_trend_unsigned (val : value) :
  StrAux.has_byte "-"%char (fmt_trend val) = false.
Proof.
  unfold fmt_trend. destruct (py_float val) as [v|e]; [|reflexivity].
  destruct (Float.gtb v Float.zero) eqn:Eg.
  - rewrite !PyStrFacts.has_byte_app.
    now rewrite (TextFacts.format_2f_pos_no_dash v Eg).
  - destruct (Float.ltb v Float.zero); [|reflexivity].
    rewrite !PyStrFacts.has_byte_app.
    now rewrite TextFacts.format_2f_abs_no_dash.
Qed.

(** ** The bins of the ages *)

Module CutFacts.
Import FloatFacts ExtraAux.

Lemma leb_fin a b : Float.leb (Fin a) (Fin b) = true <-> a <= b.
Proof.
  unfold Float.leb, Float.ltb, Float.eqb. rewrite orb_true_iff.
  rewrite Qltb_lt, Qeq_bool_iff. split.
  - intros [H | H]; [now apply Qlt_le_weak | rewrite H; apply Qle_refl].
  - intros H. apply Qle_lteq in H. exact H.
Qed.

Lemma ltb_fin a b : Float.ltb (Fin a) (Fin b) = true <-> a < b.
Proof. apply Qltb_lt. Qed.

Lemma cut_cons lo hi rest x :
  cut (lo :: hi :: rest) x =
  if Float.leb (Float.of_Z lo) x && Float.ltb x (Float.of_Z hi) then Some O
  else option_map S (cut (hi :: rest) x).
Proof. reflexivity. Qed.

(** Only a finite number falls in a bin. *)
Lemma cut_finite edges : forall x k,
  cut edges x = Some k -> exists q, x = Fin q.
Proof.
  induction edges as [|lo rest IH]; intros x k H; [discriminate|].
  destruct rest as [|hi rest']; [discriminate|].
  rewrite cut_cons in H.
  destruct (Float.leb (Float.of_Z lo) x && Float.ltb x (Float.of_Z hi)) eqn:E.
  - destruct x as [q| | |]; eauto; discriminate.
  - destruct (cut (hi :: rest') x) as [j|] eqn:Ej; [|discriminate].
    apply (IH _ _ Ej).
Qed.

Lemma cut_seq_complete m : forall n k q,
  (k < m)%nat ->
  inject_Z (edge (n + k)) <= q -> q < inject_Z (edge (S (n + k))) ->
  cut (map edge (seq n (S m))) (Fin q) = Some k.
Proof.
  induction m as [|m IH]; intros n k q Hk Hlo Hhi; [lia|].
  change (map edge (seq n (S (S m))))
    with (edge n :: edge (S n) :: map edge (seq (S (S n)) m)).
  rewrite cut_cons. destruct k as [|k].
  - rewrite Nat.add_0_r in *.
    assert (Float.leb (Float.of_Z (edge n)) (Fin q) = true) as ->
      by now apply leb_fin.
    assert (Float.ltb (Fin q) (Float.of_Z (edge (S n))) = true) as ->
      by now apply ltb_fin.
    reflexivity.
  - assert (Float.ltb (Fin q) (Float.of_Z (edge (S n))) = false) as ->.
    { apply Qltb_ge. apply (Qle_trans _ (inject_Z (edge (n + S k)))); [|exact Hlo].
      rewrite <- Zle_Qle. unfold edge. lia. }
    rewrite andb_false_r.
    change (edge (S n) :: map edge (seq (S (S n)) m))
      with (map edge (seq (S n) (S m))).
    rewrite (IH (S n) k q); [reflexivity|lia| |].
    + now replace (S n + k)%nat with (n + S k)%nat by lia.
    + now replace (S n + k)%nat with (n + S k)%nat by lia.
Qed.

Lemma cut_seq_sound m : forall n k q,
  cut (map edge (seq n (S m))) (Fin q) = Some k ->
  (k < m)%nat /\
  inject_Z (edge (n + k)) <= q /\ q < inject_Z (edge (S (n + k))).
Proof.
  induction m as [|m IH]; intros n k q H; [discriminate|].
  change (map edge (seq n (S (S m))))
    with (edge n :: map edge (seq (S n) (S m))) in H.
  change (map edge (seq (S n) (S m)))
    with (edge (S n) :: map edge (seq (S (S n)) m)) in H.
  rewrite cut_cons in H.
  destruct (Float.leb (Float.of_Z (edge n)) (Fin q)
            && Float.ltb (Fin q) (Float.of_Z (edge (S n)))) eqn:E.
  - injection H as <-. apply andb_true_iff in E as [E1 E2].
    apply leb_fin in E1. apply ltb_fin in E2.
    rewrite Nat.add_0_r. split; [lia|]. split; assumption.
  - change (edge (S n) :: map edge (seq (S (S n)) m))
      with (map edge (seq (S n) (S m))) in H.
    destruct (cut (map edge (seq (S n) (S m))) (Fin q)) as [j|] eqn:Ej;
      [|discriminate].
    injection H as <-. apply IH in Ej as [Hj [Hlo Hhi]].
    replace (n + S j)%nat with (S n + j)%nat by lia.
    split; [lia|]. split; assumption.
Qed.

Lemma bins_edges : bins = map edge (seq 0 21).
Proof. reflexivity. Qed.

End CutFacts.

Module CountFacts.
Import ExtraAux.








End CountFacts.

(** X7.  An age falls in the bin of position [k] exactly when it is a
    finite number from [5k] up to, and not including, [5k + 5], for one of
    the twenty positions; the bin is labelled with its lowest and its highest
    whole age.  A missing value, an infinity, a negative age and an age of
    100 or more fall in no bin. *)
Theorem cut_bins_spec (x : float) (k : nat) :
  (cut bins x = Some k <->
   exists q, x = Fin q /\ (k < 20)%nat /\
             inject_Z (5 * Z.of_nat k) <= q /\ q < inject_Z (5 * Z.of_nat k + 5)) /\
  ((k < 20)%nat ->
   nth k labels "" =
   (str_of_Z (5 * Z.of_nat k) ++ "-" ++ str_of_Z (5 * Z.of_nat k + 4))%string).
Proof.
  split.
  - rewrite CutFacts.bins_edges. split.
    + intros H. destruct (CutFacts.cut_finite _ _ _ H) as [q ->].
      apply CutFacts.cut_seq_sound in H as [Hk [Hlo Hhi]].
      exists q. split; [reflexivity|]. split; [exact Hk|].
      cbn [Nat.add] in Hlo, Hhi. unfold ExtraAux.edge in Hlo, Hhi.
      split.
      * now replace (5 * Z.of_nat k)%Z with (0 + 5 * Z.of_nat k)%Z by lia.
      * now replace (5 * Z.of_nat k + 5)%Z
          with (0 + 5 * Z.of_nat (S k))%Z by lia.
    + intros [q [-> [Hk [Hlo Hhi]]]].
      apply CutFacts.cut_seq_complete; [exact Hk| |]; cbn [Nat.add];
        unfold ExtraAux.edge.
      * now replace (0 + 5 * Z.of_nat k)%Z with (5 * Z.of_nat k)%Z by lia.
      * now replace (0 + 5 * Z.of_nat (S k))%Z
          with (5 * Z.of_nat k + 5)%Z by lia.
  - intros Hk.
    do 20 (destruct k as [|k]; [vm_compute; reflexivity|]). lia.
Qed.

Lemma cut_bins_spec_witness :
  cut bins (Fin (999 # 10)) = Some 19%nat /\
  nth 19 labels "" = "95-99".
Proof.
  destruct (cut_bins_spec (Fin (999 # 10)) 19) as [[_ H] L]. split.
  - apply H. exists (999 # 10). split; [reflexivity|]. split; [lia|].
    split; unfold Qle, Qlt; simpl; lia.
  - rewrite L by lia. vm_compute. reflexivity.
Defined.


(** ** The statistics engine: what it keeps, and the table without counts *)

Module ShapeFacts.
Import StatsAux StatsFacts.

(** A number that compares equal to zero. *)
Lemma eqb_zero x : Float.eqb x Float.zero = true -> exists q, x = Fin q /\ q == 0.
Proof.
  destruct x as [q| | |]; try discriminate. intros H.
  apply Qeq_bool_iff in H. eauto.
Qed.

Lemma add_zero q : q == 0 -> Float.add (Fin 0) (Fin q) = Fin 0.
Proof.
  intros H. unfold Float.add.
  rewrite (Qred_complete (0 + q) 0); [reflexivity|].
  rewrite H. reflexivity.
Qed.

Lemma sum_zeros l :
  (forall x, In x l -> Float.eqb x Float.zero = true) ->
  Float.sum l = Fin 0.
Proof.
  unfold Float.sum, Float.zero.
  induction l as [|x l IH]; intros H; [reflexivity|].
  destruct (eqb_zero x (H x (or_introl eq_refl))) as [q [-> Hq]].
  cbn [fold_left]. rewrite (add_zero q Hq). apply IH.
  intros y Hy. apply H. now right.
Qed.

Lemma nansum_zeros l :
  (forall x, In x l -> Float.eqb x Float.zero = true) ->
  Float.nansum l = Fin 0.
Proof.
  intros H. unfold Float.nansum. apply sum_zeros.
  intros x Hx. apply filter_In in Hx as [Hx _]. auto.
Qed.

Lemma filter_all_false {A} (f : A -> bool) l :
  (forall a, In a l -> f a = false) -> filter f l = [].
Proof.
  induction l as [|a l IH]; intros H; [reflexivity|].
  cbn [filter]. rewrite (H a (or_introl eq_refl)). apply IH.
  intros b Hb. apply H. now right.
Qed.

Lemma nth_error_with_test chi p e j :
  nth_error (rows (with_test chi p e)) j =
  option_map
    (fun r => r ++ (if (j =? 0)%nat then [VStr chi; VStr p]
                    else [VStr ""; VStr ""]))
    (nth_error (rows e) j).
Proof.
  unfold with_test. cbn [rows]. destruct (rows e) as [|r0 rest].
  - now destruct j.
  - destruct j as [|j]; [reflexivity|].
    cbn [nth_error Nat.eqb]. now rewrite nth_error_map.
Qed.

Lemma hd_error_coerce_row r more v :
  hd_error r = Some v -> hd_error (coerce_row r ++ more) = Some v.
Proof. destruct r; [discriminate|]. intros H. exact H. Qed.

Lemma hd_error_app {A} (l more : list A) v :
  hd_error l = Some v -> hd_error (l ++ more) = Some v.
Proof. destruct l; [discriminate|]. intros H. exact H. Qed.

End ShapeFacts.

(** X9.  On a table with distinct headers, the statistics engine neither
    drops, adds nor reorders rows, whether it succeeds or falls back on its
    input: the result has the rows of the input in their order, each with
    its label in the first cell and with cells added on the right only, and
    its headers are those of the input followed by the derived ones. *)
Theorem process_stats_table_keeps_rows (chi2_sf : float -> Z -> float)
  (df : DataFrame) (row_name_col : string) :
  StatsAux.well_formed df ->
  let out := process_stats_table chi2_sf df row_name_col in
  length (rows out) = length (rows df) /\
  (exists more, columns out = columns df ++ more /\
                forall c, In c more -> In c StatsAux.DERIVED) /\
  (forall j r, nth_error (rows df) j = Some r ->
     exists r',
       nth_error (rows out) j = Some r' /\
       (forall v, hd_error r = Some v -> hd_error r' = Some v) /\
       (length r <= length r')%nat).
Proof.
  intros WF out.
  assert (forall j r, nth_error (rows df) j = Some r ->
            exists r',
              nth_error (rows (StatsAux.enriched df)) j = Some r' /\
              (forall v, hd_error r = Some v -> hd_error r' = Some v) /\
              (length r <= length r')%nat) as Hen.
  { intros j r Hr. unfold StatsAux.enriched. cbn [rows].
    rewrite nth_error_map, Hr. cbn [option_map]. eexists.
    split; [reflexivity|]. split.
    - intros v. apply ShapeFacts.hd_error_coerce_row.
    - rewrite length_app, StatsFacts.coerce_row_length. lia. }
  unfold out, process_stats_table.
  rewrite (StatsFacts.stats_body_shape chi2_sf df WF).
  destruct (StatsAux.testable df).
  - destruct (chi2_contingency chi2_sf (StatsAux.cleaned df)) as [cp|e].
    + split; [|split].
      * unfold StatsAux.with_test, StatsAux.enriched. cbn [rows].
        destruct (rows df) as [|r0 rest]; [reflexivity|].
        cbn [map length]. now rewrite !length_map.
      * exists ["合计"; "构成比(%)"; "χ²值"; "P值"]. split.
        -- unfold StatsAux.with_test, StatsAux.enriched. cbn [columns].
           now rewrite <- app_assoc.
        -- intros c Hc. exact Hc.
      * intros j r Hr. destruct (Hen j r Hr) as [r' [H1 [H2 H3]]].
        rewrite ShapeFacts.nth_error_with_test, H1. cbn [option_map].
        eexists. split; [reflexivity|]. split.
        -- intros v Hv. apply ShapeFacts.hd_error_app. auto.
        -- rewrite length_app. lia.
    + split; [reflexivity|]. split.
      * exists []. split; [now rewrite app_nil_r|]. intros c [].
      * intros j r Hr. exists r. auto.
  - split; [|split].
    + unfold StatsAux.enriched. cbn [rows]. apply length_map.
    + exists ["合计"; "构成比(%)"]. split; [reflexivity|].
      intros c Hc. simpl in Hc |- *. tauto.
    + exact Hen.
Qed.

Lemma process_stats_table_keeps_rows_witness :
  length (rows (process_stats_table sf_example Examples.two_by_two "年龄"))
  = 2%nat.
Proof.
  refine (proj1 (process_stats_table_keeps_rows sf_example Examples.two_by_two
                   "年龄" _)).
  split; [|split].
  - repeat constructor; simpl; intuition discriminate.
  - intros c Hc Hin. simpl in Hc, Hin.
    repeat (destruct Hc as [<- | Hc];
            [repeat (destruct Hin as [Hin | Hin]; [discriminate Hin|]);
             exact Hin|]).
    exact Hc.
  - intros r Hr. simpl in Hr.
    repeat (destruct Hr as [<- | Hr]; [reflexivity|]). destruct Hr.
Defined.

(** X10.  A table in which no value cell holds a count (every one reads as
    zero: a zero, an empty or unreadable text, a missing value), and so also
    a table without rows, does not make the engine fail on the division by
    the grand total of zero: the totals are zero, every composition ratio is
    NaN, and no test is run. *)
Theorem process_stats_table_without_counts (chi2_sf : float -> Z -> float)
  (df : DataFrame) (row_name_col : string) :
  StatsAux.well_formed df ->
  (forall r v, In r (rows df) -> In v (tl r) ->
     Float.eqb (StatsAux.stats_number v) Float.zero = true) ->
  process_stats_table chi2_sf df row_name_col =
  mkFrame (columns df ++ ["合计"; "构成比(%)"])
    (map (fun r => coerce_row r ++ [VFloat (Fin 0); VFloat NaN]) (rows df)).
Proof.
  intros WF Hz.
  assert (forall r, In r (rows df) ->
            forall x, In x (StatsAux.observed_row r) ->
                      Float.eqb x Float.zero = true) as Hrow.
  { intros r Hr x Hx. unfold StatsAux.observed_row in Hx.
    apply in_map_iff in Hx as [v [<- Hv]]. apply (Hz r v Hr Hv). }
  assert (forall r, In r (rows df) ->
            Float.nansum (StatsAux.observed_row r) = Fin 0) as Htot.
  { intros r Hr. apply ShapeFacts.nansum_zeros. now apply Hrow. }
  assert (StatsAux.cleaned df = []) as Hclean.
  { unfold StatsAux.cleaned. apply ShapeFacts.filter_all_false.
    intros m Hm. unfold StatsAux.observations in Hm.
    apply in_map_iff in Hm as [r [<- Hr]]. apply negb_false_iff.
    unfold all_zero. apply forallb_forall. now apply Hrow. }
  assert (Float.nansum (map Float.nansum (StatsAux.observations df)) = Fin 0)
    as Hsum.
  { apply ShapeFacts.nansum_zeros. intros x Hx.
    apply in_map_iff in Hx as [m [<- Hm]]. unfold StatsAux.observations in Hm.
    apply in_map_iff in Hm as [r [<- Hr]]. now rewrite (Htot r Hr). }
  unfold process_stats_table.
  rewrite (StatsFacts.stats_body_shape chi2_sf df WF).
  unfold StatsAux.testable. rewrite Hclean.
  cbn [concat length Nat.ltb Nat.leb andb].
  rewrite andb_false_r. cbn [andb].
  unfold StatsAux.enriched. rewrite Hsum. f_equal.
  apply map_ext_in. intros r Hr. now rewrite (Htot r Hr).
Qed.

Lemma process_stats_table_without_counts_witness :
  process_stats_table sf_example
    (mkFrame ["人群"; "男"; "女"]
       [[VStr "农民"; VStr "-"; VInt 0]; [VStr "学生"; VStr "n/a"; VFloat NaN]])
    "人群"
  = mkFrame ["人群"; "男"; "女"; "合计"; "构成比(%)"]
      [[VStr "农民"; VFloat (Fin 0); VFloat (Fin 0); VFloat (Fin 0); VFloat NaN];
       [VStr "学生"; VFloat (Fin 0); VFloat (Fin 0); VFloat (Fin 0); VFloat NaN]].
Proof.
  rewrite (process_stats_table_without_counts sf_example
             (mkFrame ["人群"; "男"; "女"]
                [[VStr "农民"; VStr "-"; VInt 0];
                 [VStr "学生"; VStr "n/a"; VFloat NaN]]) "人群").
  - reflexivity.
  - split; [|split].
    + repeat constructor; simpl; intuition discriminate.
    + intros c Hc Hin. simpl in Hc, Hin.
      repeat (destruct Hc as [<- | Hc];
              [repeat (destruct Hin as [Hin | Hin]; [discriminate Hin|]);
               exact Hin|]).
      exact Hc.
    + intros r Hr. simpl in Hr.
      repeat (destruct Hr as [<- | Hr]; [reflexivity|]). destruct Hr.
  - intros r v Hr Hv. simpl in Hr.
    repeat (destruct Hr as [<- | Hr];
            [simpl in Hv;
             repeat (destruct Hv as [<- | Hv]; [vm_compute; reflexivity|]);
             destruct Hv|]).
    destruct Hr.
Defined.

(** ** The report generator: the figures it reads and the ways it fails *)

Module ParagraphFacts.
Import ExtraAux.




Section Report.

Variable float_repr : Q -> string.
Variable d : DataMap.
Variable df : DataFrame.
Hypothesis Hs : summary d = Some df.

(** The rows that hold the total marker, as the generator selects them. *)
Lemma total_rows :
  columns df <> [] ->
  report_sections float_repr d =
  match filter (is_total_row float_repr) (rows df) with
  | [] => Raise IndexError
  | total_row :: _ =>
      (c <- Frame.getitem (columns df) total_row CASES ;;
       total_cases <- py_int c ;;
       let detail :=
         filter (fun r => negb (is_total_row float_repr r)) (rows df) in
       cs <- mapM (fun r => Frame.getitem (columns df) r CASES) detail ;;
       positive <- mapM gt0 cs ;;
       let classes := map (tier_of_row float_repr) detail in
       let df_detail :=
         Frame.set_column "Class"
           (map (fun c => VStr (tier_label c)) classes)
           (mkFrame (columns df) detail) in
       s2 <- tier_paragraph float_repr TierB TITLE_B LEAD_B
               (columns df_detail) (rows df_detail) classes ;;
       s3 <- tier_paragraph float_repr TierC TITLE_C LEAD_C
               (columns df_detail) (rows df_detail) classes ;;
       Ok (inr (section_1 (length (filter (fun b => b) positive)) total_cases
                  (Frame.get (columns df) total_row MOM (VInt 0))
                  (Frame.get (columns df) total_row YOY (VInt 0)),
                s2, s3)))%py
  end.
Proof.
  intros Hc. unfold report_sections. rewrite Hs. unfold first_column.
  destruct (columns df) as [|c0 cs] eqn:Ec; [congruence|].
  rewrite <- Ec. cbn [bind]. unfold Frame.iloc_col. rewrite !map_map.
  change (map (fun x => PyStr.contains TOTAL_MARK
                          (py_str float_repr (Frame.cell 0 x))) (rows df))
    with (map (is_total_row float_repr) (rows df)).
  change (map (fun x => negb (PyStr.contains TOTAL_MARK
                                (py_str float_repr (Frame.cell 0 x))))
              (rows df))
    with (map (fun r => negb (is_total_row float_repr r)) (rows df)).
  rewrite !ReportFacts.select_map_filter. reflexivity.
Qed.

(** The three paragraphs on a table with finite case counts. *)
Lemma sections_finite i total others :
  Frame.index_of CASES (columns df) = Some i ->
  (forall r, In r (rows df) -> finite_cell (Frame.cell i r) = true) ->
  filter (is_total_row float_repr) (rows df) = total :: others ->
  let detail :=
    filter (fun r => negb (is_total_row float_repr r)) (rows df) in
  let classes := map (tier_of_row float_repr) detail in
  let df_detail :=
    Frame.set_column "Class" (map (fun c => VStr (tier_label c)) classes)
      (mkFrame (columns df) detail) in
  exists s2 s3,
    tier_paragraph float_repr TierB TITLE_B LEAD_B
      (columns df_detail) (rows df_detail) classes = Ok s2 /\
    tier_paragraph float_repr TierC TITLE_C LEAD_C
      (columns df_detail) (rows df_detail) classes = Ok s3 /\
    report_sections float_repr d =
    Ok (inr (section_1
               (length (filter (fun b => b)
                  (map (fun v => Float.gtb (to_numeric v) Float.zero)
                       (map (Frame.cell i) detail))))
               (int_of_cell (Frame.cell i total))
               (Frame.get (columns df) total MOM (VInt 0))
               (Frame.get (columns df) total YOY (VInt 0)),
             s2, s3)).
Proof.
  intros Hi Hf Ht detail classes df_detail.
  rewrite total_rows, Ht
    by (intros Hc; rewrite Hc in Hi; discriminate).
  assert (In total (rows df)) as Htot.
  { assert (In total (filter (is_total_row float_repr) (rows df)))
      as Hin by (rewrite Ht; now left).
    now apply filter_In in Hin. }
  unfold Frame.getitem at 1. rewrite Hi. cbn [bind].
  rewrite (RankFacts.finite_cell_py_int _ (Hf _ Htot)). cbn [bind].
  cbv zeta. fold detail. fold classes. fold df_detail.
  assert (forall r, In r detail -> finite_cell (Frame.cell i r) = true)
    as Hdet.
  { intros r Hr. apply filter_In in Hr as [Hr _]. now apply Hf. }
  rewrite (ReportFacts.getitem_cases _ i Hi). cbn [bind].
  rewrite (ReportFacts.gt0_cases i _ Hdet). cbn [bind].
  destruct (ReportFacts.set_column_class_cases (columns df) detail
              (map (fun c => VStr (tier_label c)) classes) i Hi Hdet)
    as [Hi' Hf'].
  fold df_detail in Hi', Hf'.
  destruct (ReportFacts.tier_paragraph_ok float_repr _ i Hi'
              TierB TITLE_B LEAD_B _ classes Hf') as [s2 E2].
  destruct (ReportFacts.tier_paragraph_ok float_repr _ i Hi'
              TierC TITLE_C LEAD_C _ classes Hf') as [s3 E3].
  exists s2, s3. rewrite E2, E3. cbn [bind]. auto.
Qed.

End Report.

End ParagraphFacts.





(** ** The ingestion log, the map slot, and the placeholder *)

Module LogFacts.
Import DataFacts.

Section Log.

Variable float_repr : Q -> string.

(** The line a file leaves in the log does not depend on the parser. *)
Lemma parse_file_log p p' f :
  snd (parse_file float_repr p f) = snd (parse_file float_repr p' f).
Proof.
  unfold parse_file. destruct (is_geo (name f)).
  - destruct (body f); reflexivity.
  - destruct (body f) as [df| |]; try reflexivity.
    destruct (route float_repr (name f) df) as [[[r t]|]|]; reflexivity.
Qed.

Lemma parse_files_snd_cons p f l :
  snd (parse_files float_repr p (f :: l)) =
  snd (parse_file float_repr p f) ++
  snd (parse_files float_repr (fst (parse_file float_repr p f)) l).
Proof.
  cbn [parse_files]. destruct (parse_file float_repr p f) as [p1 l1].
  cbn [fst snd]. destruct (parse_files float_repr p1 l) as [p2 l2].
  reflexivity.
Qed.

Lemma parse_file_log_length p f :
  (length (snd (parse_file float_repr p f)) <= 1)%nat.
Proof.
  unfold parse_file. destruct (is_geo (name f)).
  - destruct (body f); cbn [snd length]; lia.
  - destruct (body f) as [df| |]; cbn [snd length]; try lia.
    destruct (route float_repr (name f) df) as [[[r t]|]|];
      cbn [snd length]; lia.
Qed.

(** A line for a stored table is left by the files that are stored, and by
    no other. *)
Lemma parse_file_log_stored p f r n :
  In (LogStored r n) (snd (parse_file float_repr p f)) <->
  n = name f /\ exists t, stored float_repr f = Some (r, t).
Proof.
  unfold parse_file, stored. destruct (is_geo (name f)).
  - split.
    + destruct (body f); cbn [snd]; intros [H | []]; discriminate.
    + intros [_ [t H]]. discriminate.
  - destruct (body f) as [df| |].
    + destruct (route float_repr (name f) df) as [[[r' t']|]|]; cbn [snd].
      * split.
        -- intros [H | []]. injection H as <- <-. eauto.
        -- intros [-> [t H]]. injection H as <- _. now left.
      * split; [intros [] | intros [_ [t H]]; discriminate].
      * split; [intros [H | []]; discriminate
               | intros [_ [t H]]; discriminate].
    + split; [intros [H | []]; discriminate | intros [_ [t H]]; discriminate].
    + split; [intros [H | []]; discriminate | intros [_ [t H]]; discriminate].
Qed.

Lemma parse_file_geojson p f :
  (is_geo (name f) = false \/ forall g, body f <> Features g) ->
  geojson (fst (parse_file float_repr p f)) = geojson p.
Proof.
  unfold parse_file. intros [H | H].
  - rewrite H. destruct (body f) as [df| |]; try reflexivity.
    destruct (route float_repr (name f) df) as [[[r t]|]|]; reflexivity.
  - destruct (is_geo (name f)).
    + destruct (body f) as [df|g|]; try reflexivity. now elim (H g).
    + destruct (body f) as [df| |]; try reflexivity.
      destruct (route float_repr (name f) df) as [[[r t]|]|]; reflexivity.
Qed.

Lemma parse_files_geojson l : forall p,
  (forall f, In f l ->
     is_geo (name f) = false \/ forall g, body f <> Features g) ->
  geojson (fst (parse_files float_repr p l)) = geojson p.
Proof.
  induction l as [|f l IH]; intros p H; [reflexivity|].
  rewrite parse_files_cons, IH by (intros g Hg; apply H; now right).
  apply parse_file_geojson. apply H. now left.
Qed.

(** A slot that holds a table holds one after any batch. *)
Lemma slot_kept r l : forall p,
  lookup r (data p) <> None ->
  lookup r (data (fst (parse_files float_repr p l))) <> None.
Proof.
  induction l as [|f l IH]; intros p H; [exact H|].
  rewrite parse_files_cons. apply IH. rewrite parse_file_data.
  destruct (stored float_repr f) as [[r' t']|]; [|exact H].
  destruct r, r'; simpl in *; congruence.
Qed.

End Log.

(** What the generator returns on a data map with a summary table, when it
    returns: three paragraphs, the first of which starts with a line
    break. *)
Lemma report_sections_some float_repr d df r :
  summary d = Some df ->
  report_sections float_repr d = Ok r ->
  exists n z m y s2 s3, r = inr (section_1 n z m y, s2, s3).
Proof.
  intros Hs. unfold report_sections. rewrite Hs. intros H.
  apply RouteFacts.bind_ok in H as [names [_ H]].
  destruct (Frame.select _ (rows df)) as [|total_row rest]; [discriminate|].
  apply RouteFacts.bind_ok in H as [c [_ H]].
  apply RouteFacts.bind_ok in H as [total_cases [_ H]].
  apply RouteFacts.bind_ok in H as [cs [_ H]].
  apply RouteFacts.bind_ok in H as [positive [_ H]].
  apply RouteFacts.bind_ok in H as [s2 [_ H]].
  apply RouteFacts.bind_ok in H as [s3 [_ H]].
  injection H as <-. do 6 eexists. reflexivity.
Qed.

Lemma placeholder_iff float_repr d :
  generate_full_report float_repr d = Ok PLACEHOLDER <-> summary d = None.
Proof.
  split.
  - intros H. destruct (summary d) as [df|] eqn:Hs; [exfalso|reflexivity].
    unfold generate_full_report in H.
    apply RouteFacts.bind_ok in H as [r [Hr H]].
    destruct (report_sections_some float_repr d df r Hs Hr)
      as [n [z [m [y [s2 [s3 ->]]]]]].
    unfold section_1, nl, PLACEHOLDER in H. cbn [append] in H.
    discriminate H.
  - intros H. unfold generate_full_report, report_sections. now rewrite H.
Qed.

End LogFacts.

(** X13.  The log of a batch is the lines of its files in the order of the
    files, each file leaving at most one line, which does not depend on what
    the parser held before; a line for a table stored under a role is there
    exactly for the files that the router stores under that role.  A file
    that matches no rule, and an area file with one column, leave no line. *)
Theorem parse_files_log (float_repr : Q -> string) (p : Parser)
  (files : list File) :
  snd (parse_files float_repr p files) =
    flat_map (fun f => snd (parse_file float_repr new_parser f)) files /\
  (length (snd (parse_files float_repr p files)) <= length files)%nat /\
  (forall r n,
     In (LogStored r n) (snd (parse_files float_repr p files)) <->
     exists f t, In f files /\ name f = n /\
                 stored float_repr f = Some (r, t)) /\
  (forall f df,
     In f files -> is_geo (name f) = false -> body f = Tabular df ->
     route float_repr (name f) df = Ok None ->
     snd (parse_file float_repr new_parser f) = []).
Proof.
  assert (forall l q,
            snd (parse_files float_repr q l) =
            flat_map (fun f => snd (parse_file float_repr new_parser f)) l)
    as Hflat.
  { induction l as [|f l IH]; intros q; [reflexivity|].
    rewrite LogFacts.parse_files_snd_cons, IH. cbn [flat_map].
    now rewrite (LogFacts.parse_file_log float_repr q new_parser f). }
  split; [apply Hflat|]. split; [|split].
  - rewrite Hflat. induction files as [|f l IH]; [apply Nat.le_refl|].
    cbn [flat_map length]. rewrite length_app.
    pose proof (LogFacts.parse_file_log_length float_repr new_parser f). lia.
  - intros r n. rewrite Hflat, in_flat_map. split.
    + intros [f [Hf Hin]].
      apply LogFacts.parse_file_log_stored in Hin as [-> [t Ht]]. eauto.
    + intros [f [t [Hf [<- Ht]]]]. exists f. split; [exact Hf|].
      apply LogFacts.parse_file_log_stored. eauto.
  - intros f df _ Hg Hb Hr. unfold parse_file. now rewrite Hg, Hb, Hr.
Qed.

Lemma parse_files_log_witness :
  snd (parse_file repr_fixed new_parser
         (mkFile "其他.csv" (Tabular (mkFrame ["甲"; "乙"] [])))) = [].
Proof.
  apply (proj2 (proj2 (proj2 (parse_files_log repr_fixed new_parser
           [mkFile "其他.csv" (Tabular (mkFrame ["甲"; "乙"] []))])))
           _ (mkFrame ["甲"; "乙"] [])).
  - now left.
  - reflexivity.
  - reflexivity.
  - vm_compute. reflexivity.
Defined.

(** X14.  The map slot of the parser is changed by a map file that loads
    and by nothing else: a batch of table files and of map files that fail
    to load leaves it as it was, and after a batch it holds the features of
    the last map file that loaded. *)
Theorem parse_files_map_slot (float_repr : Q -> string) (p : Parser)
  (pre post : list File) (f : File) (g : list string) :
  (forall f', In f' post ->
     is_geo (name f') = false \/ forall g', body f' <> Features g') ->
  (geojson (fst (parse_files float_repr p post)) = geojson p) /\
  (is_geo (name f) = true -> body f = Features g ->
   geojson (fst (parse_files float_repr p (pre ++ f :: post))) = Some g).
Proof.
  intros Hpost. split; [now apply LogFacts.parse_files_geojson|].
  intros Hg Hb.
  rewrite DataFacts.parse_files_app, DataFacts.parse_files_cons.
  rewrite LogFacts.parse_files_geojson by exact Hpost.
  unfold parse_file. now rewrite Hg, Hb.
Qed.

Lemma parse_files_map_slot_witness :
  geojson (fst (parse_files repr_fixed new_parser
                  [mkFile "a.json" (Features ["东"]);
                   mkFile "b.geojson" (Features ["西"]);
                   mkFile "c.json" Unreadable; Examples.area_1]))
  = Some ["西"].
Proof.
  apply (proj2 (parse_files_map_slot repr_fixed new_parser
                  [mkFile "a.json" (Features ["东"])]
                  [mkFile "c.json" Unreadable; Examples.area_1]
                  (mkFile "b.geojson" (Features ["西"])) ["西"]
                  ltac:(intros f' Hf'; simpl in Hf';
                        destruct Hf' as [<- | [<- | []]];
                        [right; intros g'; discriminate
                        |left; reflexivity]))).
  - reflexivity.
  - reflexivity.
Defined.

(** X15.  The report on what a batch has ingested is the placeholder
    exactly when the parser held no summary table before the batch and no
    file of the batch is stored as the summary; with a summary table the
    generator returns its paragraphs or raises, never the placeholder. *)
Theorem report_placeholder_iff (float_repr : Q -> string) (p : Parser)
  (files : list File) :
  generate_full_report float_repr
    (data (fst (parse_files float_repr p files))) = Ok PLACEHOLDER <->
  summary (data p) = None /\
  forall f, In f files -> forall t, stored float_repr f <> Some (Summary, t).
Proof.
  rewrite LogFacts.placeholder_iff. split.
  - intros H. split.
    + destruct (summary (data p)) eqn:E; [exfalso|reflexivity].
      apply (LogFacts.slot_kept float_repr Summary files p); [|exact H].
      cbn [lookup]. now rewrite E.
    + intros f Hf t Ht. apply in_split in Hf as [pre [post ->]].
      rewrite DataFacts.parse_files_app, DataFacts.parse_files_cons in H.
      apply (LogFacts.slot_kept float_repr Summary post
               (fst (parse_file float_repr
                       (fst (parse_files float_repr p pre)) f))); [|exact H].
      rewrite DataFacts.parse_file_data, Ht.
      rewrite DataFacts.lookup_store_same. discriminate.
  - intros [Hp Hno].
    apply (DataFacts.parse_files_untouched float_repr Summary files p) in Hno.
    cbn [lookup] in Hno. now rewrite Hno.
Qed.

Lemma report_placeholder_iff_witness :
  generate_full_report repr_fixed
    (data (fst (parse_files repr_fixed new_parser
                  [Examples.area_1; Examples.area_2]))) = Ok PLACEHOLDER.
Proof.
  apply (proj2 (report_placeholder_iff repr_fixed new_parser
                  [Examples.area_1; Examples.area_2])).
  split; [reflexivity|].
  intros f Hf t. simpl in Hf.
  destruct Hf as [<- | [<- | []]]; vm_compute; discriminate.
Defined.

(** ** Integer cells through the two clean-ups *)

Module IntFacts.
Import PyStr StrAux Parse.

Lemma uint_no_comma d : has_byte ","%char (NilEmpty.string_of_uint d) = false.
Proof. induction d; cbn [NilEmpty.string_of_uint has_byte]; auto. Qed.

(** The scanner reads back the digits of a numeral. *)
Lemma digits_uint d : forall acc n,
  digits (NilEmpty.string_of_uint d) acc n =
  ((acc * 10 ^ Z.of_N (DecimalPos.Unsigned.usize d) +
    Z.of_N (DecimalPos.Unsigned.of_lu (Decimal.rev d)))%Z,
   (n + Decimal.nb_digits d)%nat, EmptyString).
Proof.
  induction d; intros acc n.
  1:{ cbn. rewrite Nat.add_0_r.
      apply f_equal2; [apply f_equal2|reflexivity]; [lia|reflexivity]. }
  all: cbn [NilEmpty.string_of_uint digits];
    match goal with
    | |- context [is_digit ?a] => change (is_digit a) with true
    end;
    match goal with
    | |- context [digit ?a] =>
        let v := eval vm_compute in (digit a) in change (digit a) with v
    end;
    cbv iota; rewrite IHd;
    unfold Decimal.rev at 2; cbn [Decimal.revapp];
    rewrite DecimalPos.Unsigned.of_lu_revapp;
    cbn [DecimalPos.Unsigned.usize Decimal.nb_digits];
    rewrite N2Z.inj_succ, Z.pow_succ_r by apply N2Z.is_nonneg;
    rewrite N2Z.inj_add, N2Z.inj_mul, N2Z.inj_pow;
    match goal with
    | |- context [Z.of_N (DecimalPos.Unsigned.of_lu (?c Decimal.Nil))] =>
        let v := eval vm_compute in
                   (Z.of_N (DecimalPos.Unsigned.of_lu (c Decimal.Nil))) in
        change (Z.of_N (DecimalPos.Unsigned.of_lu (c Decimal.Nil))) with v
    end;
    change (Z.of_N 10) with 10%Z;
    (apply f_equal2; [apply f_equal2|reflexivity]); [ring | lia].
Qed.

Lemma value_uint p :
  Z.of_N (DecimalPos.Unsigned.of_lu (Decimal.rev (Pos.to_uint p))) = Z.pos p.
Proof.
  rewrite <- DecimalPos.Unsigned.of_uint_alt, DecimalPos.Unsigned.of_to.
  reflexivity.
Qed.

Lemma nb_digits_pos d : d <> Decimal.Nil -> (Decimal.nb_digits d <> 0)%nat.
Proof. destruct d; [congruence|..]; discriminate. Qed.

Lemma Qred_inject_Z z : Qred (inject_Z z) = inject_Z z.
Proof.
  unfold Qred, inject_Z.
  pose proof (Z.ggcd_gcd z 1) as G.
  pose proof (Z.ggcd_correct_divisors z 1) as D.
  destruct (Z.ggcd z 1) as [g [aa bb]]. cbn [fst snd] in *.
  rewrite Z.gcd_1_r in G. subst g. destruct D as [D1 D2].
  rewrite Z.mul_1_l in D1, D2. subst. reflexivity.
Qed.

Lemma Qred_scale0 z : Qred (inject_Z z * pow10 (0 - Z.of_nat 0)) = inject_Z z.
Proof.
  rewrite (Qred_complete _ (inject_Z z)); [apply Qred_inject_Z|].
  change (pow10 (0 - Z.of_nat 0)) with 1%Q. apply Qmult_1_r.
Qed.

(** What the scanner makes of a numeral without a sign. *)
Lemma xstrtod_numeral s v k :
  (exists a t, s = String a t /\ is_digit a = true) ->
  digits s 0%Z 0%nat = (v, k, EmptyString) -> k <> 0%nat ->
  xstrtod s = Some (inject_Z v) /\
  xstrtod (String "-"%char s) = Some (inject_Z (- v)).
Proof.
  intros [a [t [-> Ha]]] Hd Hk.
  assert (is_space a = false) as Hsp.
  { destruct a as [[] [] [] [] [] [] [] []]; try discriminate Ha; reflexivity. }
  assert (sign (String a t) = (false, String a t)) as Hsg.
  { destruct a as [[] [] [] [] [] [] [] []]; try discriminate Ha; reflexivity. }
  split.
  - unfold xstrtod. cbn [skip_spaces]. rewrite Hsp, Hsg, Hd.
    rewrite Nat.add_0_r. destruct k as [|k]; [congruence|].
    cbn [Nat.eqb exponent skip_spaces]. now rewrite Qred_scale0.
  - unfold xstrtod. cbn [skip_spaces].
    change (is_space "-"%char) with false. cbv iota.
    change (sign (String "-"%char (String a t))) with (true, String a t).
    cbv iota beta. rewrite Hd.
    rewrite Nat.add_0_r. destruct k as [|k]; [congruence|].
    cbn [Nat.eqb exponent skip_spaces]. now rewrite Qred_scale0.
Qed.

Lemma uint_head d :
  d <> Decimal.Nil ->
  exists a t, NilEmpty.string_of_uint d = String a t /\ is_digit a = true.
Proof.
  destruct d; [congruence|..]; intros _;
    cbn [NilEmpty.string_of_uint]; eauto.
Qed.

Lemma xstrtod_pos p :
  let s := NilEmpty.string_of_uint (Pos.to_uint p) in
  xstrtod s = Some (inject_Z (Z.pos p)) /\
  xstrtod (String "-"%char s) = Some (inject_Z (Z.neg p)) /\
  xstrtod (String "0"%char s) = Some (inject_Z (Z.pos p)).
Proof.
  intros s. pose proof (DecimalPos.Unsigned.to_uint_nonnil p) as Hn.
  destruct (xstrtod_numeral s (Z.pos p) (Decimal.nb_digits (Pos.to_uint p)))
    as [H1 H2].
  - now apply uint_head.
  - unfold s. rewrite digits_uint, value_uint. reflexivity.
  - now apply nb_digits_pos.
  - split; [exact H1|]. split; [exact H2|].
    destruct (xstrtod_numeral (String "0"%char s) (Z.pos p)
                (S (Decimal.nb_digits (Pos.to_uint p)))) as [H3 _].
    + exists "0"%char, s. split; reflexivity.
    + cbn [digits]. change (is_digit "0"%char) with true. cbv iota.
      unfold s. rewrite digits_uint, value_uint. reflexivity.
    + discriminate.
    + exact H3.
Qed.

Lemma str_of_Z_pos p :
  str_of_Z (Z.pos p) = NilEmpty.string_of_uint (Pos.to_uint p).
Proof.
  unfold str_of_Z. cbn [Z.to_int NilZero.string_of_int].
  pose proof (DecimalPos.Unsigned.to_uint_nonnil p) as Hn.
  unfold NilZero.string_of_uint. destruct (Pos.to_uint p); congruence.
Qed.

Lemma str_of_Z_neg p :
  str_of_Z (Z.neg p) = String "-"%char (NilEmpty.string_of_uint (Pos.to_uint p)).
Proof.
  unfold str_of_Z. cbn [Z.to_int NilZero.string_of_int].
  pose proof (DecimalPos.Unsigned.to_uint_nonnil p) as Hn.
  unfold NilZero.string_of_uint. destruct (Pos.to_uint p); congruence.
Qed.

End IntFacts.

(** X16.  An integer cell goes through the summary clean-up as its absolute
    value and through the area clean-up as itself: the text of the integer is
    read back digit for digit, but in the summary clean-up the minus sign of
    a negative integer has become a leading zero. *)
Theorem integer_cells_cleaned (float_repr : Q -> string) (z : Z) :
  to_number float_repr (VInt z) = Fin (inject_Z (Z.abs z)) /\
  to_cases float_repr (VInt z) = Fin (inject_Z z).
Proof.
  unfold to_number, to_number_text, to_cases, clean_text. cbn [py_str].
  destruct z as [|p|p]; [split; reflexivity| |].
  - rewrite IntFacts.str_of_Z_pos.
    rewrite (AreaFacts.replace_absent ","%char)
      by apply IntFacts.uint_no_comma.
    rewrite (AreaFacts.replace_absent "-"%char)
      by apply TextFacts.uint_no_dash.
    unfold to_numeric, Parse.float_of_string.
    rewrite (proj1 (IntFacts.xstrtod_pos p)). split; reflexivity.
  - rewrite IntFacts.str_of_Z_neg. cbn [PyStr.replace].
    change (Ascii.eqb "-"%char ","%char) with false. cbv iota.
    rewrite (AreaFacts.replace_absent ","%char)
      by apply IntFacts.uint_no_comma.
    cbn [PyStr.replace]. change (Ascii.eqb "-"%char "-"%char) with true.
    cbv iota.
    rewrite (AreaFacts.replace_absent "-"%char)
      by apply TextFacts.uint_no_dash.
    unfold to_numeric, Parse.float_of_string.
    change ("0" ++ NilEmpty.string_of_uint (Pos.to_uint p))%string
      with (String "0"%char (NilEmpty.string_of_uint (Pos.to_uint p))).
    rewrite (proj2 (proj2 (IntFacts.xstrtod_pos p))).
    rewrite (proj1 (proj2 (IntFacts.xstrtod_pos p))). split; reflexivity.
Qed.

(** ** The order of the rules of the router *)

Module OrderFacts.
Import ExtraAux.

Ltac role_of H :=
  try (apply RouteFacts.bind_ok in H as [? [_ H]]);
  try discriminate H;
  injection H as <- <-.

Ltac rule_true :=
  cbv beta zeta iota delta [rule]; assumption.

Ltac rule_later :=
  let r' := fresh "r'" in
  let Hr := fresh "Hr" in
  intros r' Hr; destruct r'; cbn [rank]; try lia; exfalso;
  cbv beta zeta iota delta [rule] in Hr; congruence.

End OrderFacts.

(** X17.  The router stores a table under the first role, in the order
    summary, time, age, population, area, whose test the file passes: the
    role it stores under passes its test, and no role before it does.  A
    file that passes no test is skipped without an error, and a file whose
    first passed test is that of the time table is stored as it was read. *)
Theorem route_first_match (float_repr : Q -> string) (fname : string)
  (df : DataFrame) :
  (forall r t,
     route float_repr fname df = Ok (Some (r, t)) ->
     ExtraAux.rule r fname df = true /\
     forall r', ExtraAux.rule r' fname df = true ->
                (ExtraAux.rank r <= ExtraAux.rank r')%nat) /\
  ((forall r, ExtraAux.rule r fname df = false) ->
   route float_repr fname df = Ok None) /\
  (ExtraAux.rule Summary fname df = false ->
   ExtraAux.rule Time fname df = true ->
   route float_repr fname df = Ok (Some (Time, df))).
Proof.
  split; [|split].
  - intros r t H. unfold route in H. cbv beta zeta in H.
    repeat match type of H with
           | context [if ?b then _ else _] =>
               let E := fresh "E" in destruct b eqn:E
           end;
      try discriminate H; OrderFacts.role_of H;
      (split; [OrderFacts.rule_true | OrderFacts.rule_later]).
  - intros H. unfold route. cbv beta zeta.
    pose proof (H Summary) as H1. pose proof (H Time) as H2.
    pose proof (H Age) as H3. pose proof (H Pop) as H4.
    pose proof (H Area) as H5.
    cbv beta zeta iota delta [ExtraAux.rule] in H1, H2, H3, H4, H5.
    now rewrite H1, H2, H3, H4, H5.
  - intros H1 H2. unfold route. cbv beta zeta.
    cbv beta zeta iota delta [ExtraAux.rule] in H1, H2.
    now rewrite H1, H2.
Qed.

Lemma route_first_match_witness :
  route repr_fixed "时间与年龄.csv" (mkFrame ["月份"; "男"; "女"] [])
  = Ok (Some (Time, mkFrame ["月份"; "男"; "女"] [])).
Proof.
  apply (proj2 (proj2 (route_first_match repr_fixed "时间与年龄.csv"
                         (mkFrame ["月份"; "男"; "女"] [])))).
  - vm_compute. reflexivity.
  - vm_compute. reflexivity.
Defined.


(** ** The order of the files of a batch *)

Module OrderOfFiles.
Import ExtraAux DataFacts.

Lemma rank_inj r r' : rank r = rank r' -> r = r'.
Proof. destruct r, r'; simpl; congruence. Qed.

Lemma data_ext d d' : (forall r, lookup r d = lookup r d') -> d = d'.
Proof.
  intros H. destruct d, d'.
  pose proof (H Summary) as H1. pose proof (H Time) as H2.
  pose proof (H Age) as H3. pose proof (H Pop) as H4.
  pose proof (H Area) as H5. simpl in *. congruence.
Qed.

Section Files.

Variable float_repr : Q -> string.

Lemma stores_iff r f :
  stores float_repr r f = true <-> exists t, stored float_repr f = Some (r, t).
Proof.
  unfold stores. destruct (stored float_repr f) as [[r' t']|].
  - split.
    + intros H. apply Nat.eqb_eq, rank_inj in H. subst. eauto.
    + intros [t H]. injection H as -> _. apply Nat.eqb_refl.
  - split; [discriminate|intros [t H]; discriminate].
Qed.

Lemma stores_none r l :
  existsb (stores float_repr r) l = false ->
  forall g, In g l -> forall t, stored float_repr g <> Some (r, t).
Proof.
  intros H g Hg t Ht.
  assert (existsb (stores float_repr r) l = true) as K.
  { apply existsb_exists. exists g. split; [exact Hg|].
    apply stores_iff. eauto. }
  congruence.
Qed.

(** The last file of a batch that is stored under a role. *)
Lemma last_split r l :
  existsb (stores float_repr r) l = true ->
  exists pre f t post,
    l = pre ++ f :: post /\ stored float_repr f = Some (r, t) /\
    forall g, In g post -> forall t', stored float_repr g <> Some (r, t').
Proof.
  induction l as [|a l IH]; [discriminate|].
  cbn [existsb]. destruct (existsb (stores float_repr r) l) eqn:E.
  - intros _. destruct (IH eq_refl) as [pre [f [t [post [-> [Hf Hp]]]]]].
    exists (a :: pre), f, t, post. auto.
  - rewrite orb_false_r. intros Ha. apply stores_iff in Ha as [t Ht].
    exists [], a, t, l. split; [reflexivity|]. split; [exact Ht|].
    now apply stores_none.
Qed.

End Files.

End OrderOfFiles.

(** X19.  The order of the files of a batch matters only among the files of
    one role: two batches with the same files, in which the files stored
    under one role all store the same table (so, at most one file per role),
    leave the same data map. *)
Theorem parse_files_order (float_repr : Q -> string) (p : Parser)
  (l l' : list File) :
  (forall f, In f l <-> In f l') ->
  (forall f g r t u,
     In f l -> In g l ->
     stored float_repr f = Some (r, t) -> stored float_repr g = Some (r, u) ->
     t = u) ->
  data (fst (parse_files float_repr p l)) =
  data (fst (parse_files float_repr p l')).
Proof.
  intros Hsame Hone. apply OrderOfFiles.data_ext. intros r.
  destruct (existsb (ExtraAux.stores float_repr r) l) eqn:E.
  - destruct (OrderOfFiles.last_split float_repr r l E)
      as [pre [f [t [post [Hl [Hf Hp]]]]]].
    assert (In f l) as Hin by (rewrite Hl; apply in_elt).
    assert (existsb (ExtraAux.stores float_repr r) l' = true) as E'.
    { apply existsb_exists. exists f. split; [now apply Hsame|].
      apply OrderOfFiles.stores_iff. eauto. }
    destruct (OrderOfFiles.last_split float_repr r l' E')
      as [pre' [g [u [post' [Hl' [Hg Hp']]]]]].
    assert (In g l) as Hin' by (apply Hsame; rewrite Hl'; apply in_elt).
    rewrite Hl, Hl'.
    rewrite (DataFacts.parse_files_last float_repr r t f pre post p Hf Hp).
    rewrite (DataFacts.parse_files_last float_repr r u g pre' post' p Hg Hp').
    f_equal. apply (Hone f g r t u Hin Hin' Hf Hg).
  - assert (existsb (ExtraAux.stores float_repr r) l' = false) as E'.
    { apply not_true_is_false. intros K.
      apply existsb_exists in K as [g [Hg Hs]].
      assert (existsb (ExtraAux.stores float_repr r) l = true) as K'
        by (apply existsb_exists; exists g; split; [now apply Hsame|exact Hs]).
      congruence. }
    rewrite !DataFacts.parse_files_untouched
      by now apply OrderOfFiles.stores_none.
    reflexivity.
Qed.

Lemma parse_files_order_witness :
  data (fst (parse_files repr_fixed new_parser
               [Examples.area_1; Examples.e2e_file])) =
  data (fst (parse_files repr_fixed new_parser
               [Examples.e2e_file; Examples.area_1])).
Proof.
  apply (parse_files_order repr_fixed new_parser
           [Examples.area_1; Examples.e2e_file]
           [Examples.e2e_file; Examples.area_1]).
  - intros f. simpl. tauto.
  - intros f g r t u Hf Hg. simpl in Hf, Hg.
    destruct Hf as [<- | [<- | []]]; destruct Hg as [<- | [<- | []]];
      vm_compute; congruence.
Defined.

(** ** The text of a p-value *)

Module PValueFacts.
Import PyStr StrAux Parse.








End PValueFacts.


(** ** Ingested figures and the phrase for a fall; a tier without cases *)

Module FallFacts.
Import PyStr StrAux PyStrFacts Parse ExtraAux.

Lemma digit_char_neq a c :
  is_digit a = true -> is_digit c = false -> Ascii.eqb a c = false.
Proof.
  intros Ha Hc. destruct (Ascii.eqb_spec a c) as [->|]; congruence.
Qed.

Lemma uint_only_digits c d :
  is_digit c = false -> has_byte c (NilEmpty.string_of_uint d) = false.
Proof.
  intros Hc. induction d; cbn [NilEmpty.string_of_uint has_byte];
    [reflexivity|..];
    rewrite IHd, (digit_char_neq _ c) by (reflexivity || exact Hc);
    reflexivity.
Qed.

Lemma str_of_Z_only_digits c z :
  (0 <= z)%Z -> is_digit c = false -> has_byte c (str_of_Z z) = false.
Proof.
  intros Hz Hc. destruct z as [|p|p]; [|..|lia].
  - change (str_of_Z 0) with "0". cbn [has_byte].
    rewrite (digit_char_neq "0"%char c) by (reflexivity || exact Hc).
    reflexivity.
  - rewrite IntFacts.str_of_Z_pos. now apply uint_only_digits.
Qed.

Lemma format_2f_no_fall_byte v :
  Float.ltb v Float.zero = false -> Float.is_nan v = false ->
  has_byte FALL_BYTE (format_2f v) = false.
Proof.
  destruct v as [q| | |]; try reflexivity; try discriminate.
  intros H _. unfold format_2f. change (Float.Qltb q 0 = false) in H.
  rewrite H.
  set (a := Z.abs (Float.round_half_even (q * 100))).
  assert (0 <= a)%Z as Ha by apply Z.abs_nonneg.
  rewrite !has_byte_app.
  rewrite (str_of_Z_only_digits FALL_BYTE (a / 100))
    by (try reflexivity; apply Z.div_pos; lia).
  rewrite (str_of_Z_only_digits FALL_BYTE (a mod 100))
    by (try reflexivity; apply Z.mod_pos_bound; lia).
  destruct (a mod 100 <? 10)%Z; reflexivity.
Qed.

Lemma contains_fall_rise body :
  has_byte FALL_BYTE body = false ->
  contains "下降" ("上升" ++ body) = false.
Proof.
  intros H. cbn [append contains].
  repeat match goal with
         | |- context [prefix ?p (String ?a ?t)] =>
             change (prefix p (String a t)) with false
         end.
  cbn [orb]. apply not_true_is_false. intros K.
  apply (contains_has_first "下降" FALL_BYTE) in K; [congruence|reflexivity].
Qed.

End FallFacts.

(** X21.  No figure of an ingested summary table is ever reported as a
    fall: the month-over-month and year-over-year headers are cleaned as
    numeric columns, the clean-up returns no negative number, and the phrase
    for a fall does not occur in the trend phrase of any cleaned cell. *)
Theorem ingested_trend_never_falls (float_repr : Q -> string) (v : value) :
  PyStr.contains "下降" (fmt_trend (VFloat (to_number float_repr v))) = false /\
  is_numeric_header MOM = true /\
  is_numeric_header YOY = true.
Proof.
  split; [|split; reflexivity].
  unfold to_number. set (x := to_number_text (py_str float_repr v)).
  pose proof (NumberFacts.to_number_text_nonneg (py_str float_repr v)) as Hx.
  fold x in Hx.
  assert (Float.is_nan x = false) as Hn.
  { unfold x, to_number_text.
    pose proof (AreaFacts.fillna0_not_nan
                  (to_numeric (VStr (clean_text (py_str float_repr v))))) as K.
    destruct (fillna0 _); try reflexivity. congruence. }
  unfold fmt_trend. cbn [py_float]. rewrite Hx.
  destruct (Float.gtb x Float.zero); [|reflexivity].
  apply FallFacts.contains_fall_rise.
  rewrite PyStrFacts.has_byte_app.
  now rewrite (FallFacts.format_2f_no_fall_byte x Hx Hn).
Qed.

(** X22.  A tier that has rows but no case (every count of its rows is
    zero) gets its paragraph with the figures 0 and 0 and the word for none
    in the place of the ranking; the ranking, which divides by the total of
    the tier, is not computed. *)
Theorem tier_paragraph_without_cases (float_repr : Q -> string) (t : tier)
  (title lead : string) (cols : list string) (rws : list (list value))
  (classes : list tier) (i : nat) :
  Frame.index_of CASES cols = Some i ->
  let sub :=
    Frame.select
      (map (fun c => String.eqb (tier_label c) (tier_label t)) classes) rws in
  sub <> [] ->
  (forall r, In r sub ->
     exists q, number (Frame.cell i r) = Some (Fin q) /\ q == 0) ->
  tier_paragraph float_repr t title lead cols rws classes =
  Ok (tier_section title lead 0 0 "无").
Proof.
  intros Hi sub Hne Hz. unfold tier_paragraph. fold sub.
  assert (forall r, In r sub -> finite_cell (Frame.cell i r) = true) as Hf.
  { intros r Hr. destruct (Hz r Hr) as [q [Hq _]].
    unfold finite_cell. now rewrite Hq. }
  assert (forall r, In r sub ->
            Float.eqb (to_numeric (Frame.cell i r)) Float.zero = true) as He.
  { intros r Hr. destruct (Hz r Hr) as [q [Hq H0]].
    rewrite (RankFacts.finite_cell_to_numeric _ _ Hq).
    now apply Qeq_bool_iff. }
  destruct sub as [|r0 sub'] eqn:E; [congruence|]. rewrite <- E in *. clear E.
  rewrite (ReportFacts.getitem_cases cols i Hi). cbn [bind].
  rewrite (ReportFacts.gt0_cases i _ Hf). cbn [bind].
  assert (Float.nansum (map to_numeric (map (Frame.cell i) sub)) = Fin 0)
    as ->.
  { apply ShapeFacts.nansum_zeros. intros x Hx.
    apply in_map_iff in Hx as [c [<- Hc]].
    apply in_map_iff in Hc as [r [<- Hr]]. now apply He. }
  change (Float.gtb (Fin 0) Float.zero) with false. cbv iota.
  cbn [bind int_of_float].
  rewrite (ShapeFacts.filter_all_false (fun b : bool => b)); [reflexivity|].
  intros b Hb. apply in_map_iff in Hb as [c [<- Hc]].
  apply in_map_iff in Hc as [r [<- Hr]].
  destruct (ShapeFacts.eqb_zero _ (He r Hr)) as [q [-> Hq]].
  unfold Float.gtb, Float.ltb, Float.zero. apply FloatFacts.Qltb_ge.
  rewrite Hq. apply Qle_refl.
Qed.

Lemma tier_paragraph_without_cases_witness :
  tier_paragraph repr_fixed TierB TITLE_B LEAD_B ["病种"; CASES]
    [[VStr "肺结核"; VFloat (Fin 0)]; [VStr "手足口病"; VInt 9]]
    [TierB; TierC]
  = Ok (tier_section TITLE_B LEAD_B 0 0 "无").
Proof.
  apply (tier_paragraph_without_cases repr_fixed TierB TITLE_B LEAD_B
           ["病种"; CASES]
           [[VStr "肺结核"; VFloat (Fin 0)]; [VStr "手足口病"; VInt 9]]
           [TierB; TierC] 1%nat eq_refl).
  - discriminate.
  - intros r Hr. simpl in Hr. destruct Hr as [<- | []].
    exists 0. split; reflexivity.
Defined.

(** ** The exceptions of the router *)

Module RaiseFacts.
Import ExtraAux.






End RaiseFacts.



(** ** From a summary file to the report *)

Module PipelineFacts.
Import ExtraAux.

Section Clean.

Variable float_repr : Q -> string.

Lemma clean_summary_nodup df :
  NoDup (columns df) ->
  clean_summary float_repr df =
  Ok (mkFrame (columns df)
        (map (fun r =>
                map (fun cv => if is_numeric_header (fst cv)
                               then VFloat (to_number float_repr (snd cv))
                               else snd cv)
                    (combine (columns df) r))
             (rows df))).
Proof.
  intros H. unfold clean_summary.
  assert (existsb (fun c => is_numeric_header c &&
                            (1 <? count_occ string_dec (columns df) c)%nat)
                  (columns df) = false) as ->; [|reflexivity].
  apply not_true_is_false. intros E.
  apply existsb_exists in E as [c [_ Hc]].
  apply andb_true_iff in Hc as [_ Hc]. apply Nat.ltb_lt in Hc.
  pose proof (proj1 (NoDup_count_occ string_dec (columns df)) H c). lia.
Qed.

(** A cell of a row of the cleaned table. *)
Lemma cell_cleaned cols : forall r i c,
  nth_error cols i = Some c -> length r = length cols ->
  Frame.cell i
    (map (fun cv => if is_numeric_header (fst cv)
                    then VFloat (to_number float_repr (snd cv))
                    else snd cv)
         (combine cols r)) =
  if is_numeric_header c then VFloat (to_number float_repr (Frame.cell i r))
  else Frame.cell i r.
Proof.
  unfold Frame.cell.
  induction cols as [|c0 cols IH]; intros r i c Hc Hl;
    [destruct i; discriminate|].
  destruct r as [|v r]; [discriminate|].
  destruct i as [|i]; cbn [combine map nth fst snd].
  - injection Hc as ->. reflexivity.
  - apply IH; [exact Hc|]. cbn [length] in Hl. lia.
Qed.

End Clean.

End PipelineFacts.

(** X24.  A file that passes the test of the summary, with distinct headers
    and one cell per header in every row, makes the report come out: when
    the table has the case count column, a first header that is not the
    header of a count or a ratio, a row whose first cell holds the total
    marker, and case counts that read as numbers of at most 2^53 (so that
    none is stored as an infinity), the generator run on what the parser has
    stored returns its three paragraphs, and they are not the
    placeholder. *)
Theorem ingested_report_returns (float_repr : Q -> string) (p : Parser)
  (f : File) (df : DataFrame) (i : nat) (c0 : string) :
  is_geo (name f) = false ->
  body f = Tabular df ->
  ExtraAux.rule Summary (name f) df = true ->
  NoDup (columns df) ->
  (forall r, In r (rows df) -> length r = length (columns df)) ->
  Frame.index_of CASES (columns df) = Some i ->
  nth_error (columns df) 0 = Some c0 ->
  is_numeric_header c0 = false ->
  (exists r, In r (rows df) /\ ExtraAux.is_total_row float_repr r = true) ->
  (forall r, In r (rows df) ->
     exists q, to_number float_repr (Frame.cell i r) = Fin q /\
               q <= inject_Z (2 ^ 53)) ->
  exists s,
    generate_full_report float_repr
      (data (fst (parse_files float_repr p [f]))) = Ok s /\
    s <> PLACEHOLDER.
Proof.
  intros Hg Hb Hrule Hnd Hlen Hi Hc0 Hn0 [rt [Hrt Hmark]] Hfin.
  set (clean := fun r : list value =>
         map (fun cv => if is_numeric_header (fst cv)
                        then VFloat (to_number float_repr (snd cv))
                        else snd cv)
             (combine (columns df) r)).
  set (t := mkFrame (columns df) (map clean (rows df))).
  assert (route float_repr (name f) df = Ok (Some (Summary, t))) as Hroute.
  { unfold route. cbv beta zeta.
    cbv beta zeta iota delta [ExtraAux.rule] in Hrule. rewrite Hrule.
    rewrite (PipelineFacts.clean_summary_nodup float_repr df Hnd).
    reflexivity. }
  assert (summary (data (fst (parse_files float_repr p [f]))) = Some t) as Hs.
  { rewrite DataFacts.parse_files_cons. cbn [parse_files fst].
    rewrite DataFacts.parse_file_data. unfold stored.
    now rewrite Hg, Hb, Hroute. }
  assert (forall r, In r (rows df) ->
            Frame.cell i (clean r) =
            VFloat (to_number float_repr (Frame.cell i r))) as Hcell.
  { intros r Hr. unfold clean.
    rewrite (PipelineFacts.cell_cleaned float_repr (columns df) r i CASES
               (ReportFacts.index_of_nth _ _ _ Hi) (Hlen r Hr)).
    reflexivity. }
  assert (forall r, In r (rows df) ->
            Frame.cell 0 (clean r) = Frame.cell 0 r) as Hname.
  { intros r Hr. unfold clean.
    rewrite (PipelineFacts.cell_cleaned float_repr (columns df) r 0 c0
               Hc0 (Hlen r Hr)).
    now rewrite Hn0. }
  assert (forall r', In r' (rows t) -> finite_cell (Frame.cell i r') = true)
    as Hf.
  { intros r' Hr'. cbn [t rows] in Hr'.
    apply in_map_iff in Hr' as [r [<- Hr]]. rewrite (Hcell r Hr).
    destruct (Hfin r Hr) as [q [-> _]]. reflexivity. }
  destruct (filter (ExtraAux.is_total_row float_repr) (rows t))
    as [|total others] eqn:Et.
  { exfalso.
    assert (In (clean rt) (filter (ExtraAux.is_total_row float_repr) (rows t)))
      as Hin.
    { apply filter_In. split; [cbn [t rows]; now apply in_map|].
      unfold ExtraAux.is_total_row in *. now rewrite (Hname rt Hrt). }
    rewrite Et in Hin. destruct Hin. }
  destruct (ParagraphFacts.sections_finite float_repr _ t Hs i total others
              Hi Hf Et) as [s2 [s3 [_ [_ E]]]].
  unfold generate_full_report. rewrite E. cbn [bind].
  eexists. split; [reflexivity|].
  unfold section_1, nl, PLACEHOLDER. cbn [append]. discriminate.
Qed.

Lemma ingested_report_returns_witness :
  exists s,
    generate_full_report repr_fixed
      (data (fst (parse_files repr_fixed new_parser [Examples.e2e_file])))
    = Ok s /\ s <> PLACEHOLDER.
Proof.
  apply (ingested_report_returns repr_fixed new_parser Examples.e2e_file
           Examples.e2e_summary 1%nat "病种").
  - reflexivity.
  - reflexivity.
  - vm_compute. reflexivity.
  - repeat constructor; simpl; intuition discriminate.
  - intros r Hr. simpl in Hr.
    repeat (destruct Hr as [<- | Hr]; [reflexivity|]). destruct Hr.
  - reflexivity.
  - reflexivity.
  - vm_compute. reflexivity.
  - exists [VStr "合计"; VInt 100; VInt 5; VInt (-2)].
    split; [now left|vm_compute; reflexivity].
  - intros r Hr. simpl in Hr.
    repeat (destruct Hr as [<- | Hr];
            [eexists; split;
             [vm_compute; reflexivity
             |apply Qle_bool_iff; vm_compute; reflexivity]|]).
    destruct Hr.
Defined.
